(** * VoiceCast ML pipeline: audio preprocessing, augmentation, parallel
    extraction, status tracking and orchestration.

    A shallow embedding of [ml_pipeline/data_processing/data_processor.py],
    [ml_pipeline/pipeline_utils.py] and the orchestrator of
    [ml_pipeline/run_complete_pipeline.py].

    Conventions of the embedding:
    - a waveform ([np.ndarray] of amplitudes) is a [list Q]; arithmetic on
      amplitudes and on progress values is exact. Where a float is
      truncated to an integer ([int(max_duration * sample_rate)]) the
      rounding decides the result, and the product is computed in double
      precision ([fl], [float_mul]);
    - a Python call that may raise returns a [result]: [Return v] or
      [Raise e], an exception carrying the message it was raised with;
      [try ... except Exception] is [rtry], and [mtry] for code with
      effects;
    - code that talks to the bucket, the local disk or the clock runs in the
      monad [M] over a [World], which also keeps the list of the status
      updates that were asked for, stored or not;
    - librosa, numpy's random generator, scikit-learn, the storage client
      and the clock are outside the repository: they are the fields of
      [Librosa] and [Env], and what is known of them (array shapes) is
      stated as hypotheses where it is used ([LibrosaShapes]). *)

From Stdlib Require Import QArith Qabs Qminmax Qround Ascii Lqa.
From stdpp Require Import gmap strings list pretty.

Set Default Proof Using "Type".

(** ** Python values and exceptions *)

(** An exception: its class and the message it was raised with. An
    exception of a library outside the repository, of whatever class, is
    an [ExternalError]. *)
Inductive exn : Type :=
  | ValueError (msg : string)
  | ZeroDivisionError (msg : string)
  | IndexError (msg : string)
  | FileNotFoundError (msg : string)
  | OverflowError (msg : string)
  | AttributeError (msg : string)
  | ExternalError (what : string).

(** [str(e)] *)
Definition exn_str (e : exn) : string :=
  match e with
  | ValueError msg | ZeroDivisionError msg | IndexError msg
  | FileNotFoundError msg | OverflowError msg | AttributeError msg
  | ExternalError msg => msg
  end.

Inductive result (A : Type) : Type :=
  | Return (a : A)
  | Raise (e : exn).
Arguments Return {A} a.
Arguments Raise {A} e.

Definition rbind {A B} (r : result A) (k : A -> result B) : result B :=
  match r with
  | Return a => k a
  | Raise e => Raise e
  end.

(** [try: body except Exception as e: handler e] on a pure computation. *)
Definition rtry {A} (body : result A) (handler : exn -> result A) : result A :=
  match body with
  | Return a => Return a
  | Raise e => handler e
  end.

Declare Scope result_scope.
Delimit Scope result_scope with result.
Notation "x <~ r ; k" := (rbind r (fun x => k))
  (at level 100, r at next level, right associativity) : result_scope.

Definition returns {A} (r : result A) : Prop := exists a, r = Return a.
Definition raises {A} (r : result A) : Prop := exists e, r = Raise e.

Definition Signal := list Q.
Definition Matrix := list (list Q).

Definition Qgtb (x y : Q) : bool := negb (Qle_bool x y).

(** [int(x)] on a float: truncation toward zero. *)
Definition py_int (x : Q) : Z := Z.quot (Qnum x) (Z.pos (Qden x)).

(** [a / b] on Python integers. *)
Definition py_div (a b : Q) : result Q :=
  if Qeq_bool b 0 then Raise (ZeroDivisionError "division by zero")
  else Return (a / b)%Q.

(** [round(x)] on a float: to the nearest integer, ties to even. *)
Definition py_round (x : Q) : Z :=
  let f := Qfloor x in
  let r := (x - inject_Z f)%Q in
  match (r ?= 1 # 2)%Q with
  | Lt => f
  | Gt => (f + 1)%Z
  | Eq => if Z.even f then f else (f + 1)%Z
  end.

(** [l[:stop]]: a negative [stop] counts from the end. *)
Definition py_slice_to {A} (l : list A) (stop : Z) : list A :=
  if (stop <? 0)%Z
  then take (Z.to_nat (Z.of_nat (length l) + stop)) l
  else take (Z.to_nat stop) l.

(** [np.pad(a, (0, padding), mode='constant', constant_values=0)]. *)
Definition np_pad_right (a : Signal) (padding : Z) : Signal :=
  a ++ replicate (Z.to_nat padding) 0%Q.

Definition np_abs (a : Signal) : Signal := map Qabs a.

(** [np.max(a)]: a zero-size array has no maximum. *)
Definition np_max (a : Signal) : result Q :=
  match a with
  | [] => Raise (ValueError ("zero-size array to reduction operation " +:+
                             "maximum which has no identity"))
  | x :: xs => Return (foldl Qmax x xs)
  end.

(** ** Double-precision floats

    Where the code truncates a product of floats to an integer, the
    rounding of the product decides the result, so that product is
    computed as the machine computes it. A finite double is kept as the
    rational it denotes. *)

Inductive float : Type :=
  | Finite (x : Q)
  | Infinity (negative : bool)
  | NaN.

(** [2 ^ k] for any integer [k]. *)
Definition pow2 (k : Z) : Q :=
  if (0 <=? k)%Z then inject_Z (2 ^ k) else 1 # Z.to_pos (2 ^ (- k)).

(** The [e] with [2 ^ e <= n / d < 2 ^ (e + 1)]. *)
Definition binary_exponent (n d : positive) : Z :=
  let e := (Z.log2 (Z.pos n) - Z.log2 (Z.pos d))%Z in
  let below :=
    if (0 <=? e)%Z then (Z.pos n <? Z.pos d * 2 ^ e)%Z
    else (Z.pos n * 2 ^ (- e) <? Z.pos d)%Z in
  if below then (e - 1)%Z else e.

(** [n / d] to the nearest integer, ties to the even one. *)
Definition round_half_even (n d : Z) : Z :=
  let q := (n / d)%Z in
  let r := (n mod d)%Z in
  match (2 * r ?= d)%Z with
  | Lt => q
  | Gt => (q + 1)%Z
  | Eq => if Z.even q then q else (q + 1)%Z
  end.

(** The magnitude [n / d] as a double: 53 significant bits, round to
    nearest, ties to even, gradual underflow below [2 ^ -1022]; [None]
    when the result is beyond the largest double. *)
Definition fl_magnitude (n d : positive) : option Q :=
  let e := binary_exponent n d in
  let k := (Z.max e (-1022) - 52)%Z in
  let m :=
    if (0 <=? k)%Z then round_half_even (Z.pos n) (Z.pos d * 2 ^ k)
    else round_half_even (Z.pos n * 2 ^ (- k)) (Z.pos d) in
  if (0 <=? k)%Z && (2 ^ 1024 <=? m * 2 ^ k)%Z then None
  else Some (Qred (inject_Z m * pow2 k)).

(** The double nearest to a rational: what a decimal literal denotes, and
    what an exact result is rounded to. *)
Definition fl (x : Q) : float :=
  let x := Qred x in
  match Qnum x with
  | Z0 => Finite 0
  | Zpos n =>
      match fl_magnitude n (Qden x) with
      | Some y => Finite y
      | None => Infinity false
      end
  | Zneg n =>
      match fl_magnitude n (Qden x) with
      | Some y => Finite (- y)
      | None => Infinity true
      end
  end.

(** An integer operand of a float operation is converted first. *)
Definition float_of_int (n : Z) : result float :=
  match fl (inject_Z n) with
  | Infinity _ => Raise (OverflowError "int too large to convert to float")
  | x => Return x
  end.

(** [a * b] on floats. *)
Definition float_mul (a b : float) : float :=
  match a, b with
  | NaN, _ | _, NaN => NaN
  | Finite x, Finite y => fl (x * y)
  | Finite x, Infinity s | Infinity s, Finite x =>
      match Qnum x with
      | Z0 => NaN
      | Zpos _ => Infinity s
      | Zneg _ => Infinity (negb s)
      end
  | Infinity s, Infinity t => Infinity (xorb s t)
  end.

(** [int(x)] on a float. *)
Definition int_of_float (x : float) : result Z :=
  match x with
  | Finite q => Return (py_int q)
  | Infinity _ =>
      Raise (OverflowError "cannot convert float infinity to integer")
  | NaN => Raise (ValueError "cannot convert float NaN to integer")
  end.

(** ** AudioPreprocessor *)

Record AudioPreprocessor : Type := {
  sample_rate : Z;
  n_fft : Z;
  hop_length : Z;
  n_mels : Z;
  max_duration : Q;
  min_duration : Q
}.

(** The constructor's defaults, with the three fields [DataProcessor] sets. *)
Definition mk_preprocessor (sr : Z) (max_d min_d : Q) : AudioPreprocessor :=
  {| sample_rate := sr; n_fft := 2048; hop_length := 512; n_mels := 80;
     max_duration := max_d; min_duration := min_d |}.

Definition validate_audio_duration (self : AudioPreprocessor) (audio : Signal)
  : result bool :=
  (duration <~ py_div (inject_Z (Z.of_nat (length audio)))
                      (inject_Z (sample_rate self));
   Return (Qle_bool (min_duration self) duration
           && Qle_bool duration (max_duration self)))%result.

(** [int(self.max_duration * self.sample_rate)]: the float
    [max_duration] times the integer [sample_rate], in double precision,
    truncated toward zero. *)
Definition default_target_length (self : AudioPreprocessor) : result Z :=
  (sr <~ float_of_int (sample_rate self);
   int_of_float (float_mul (fl (max_duration self)) sr))%result.

Definition trim_or_pad_audio (self : AudioPreprocessor) (audio : Signal)
    (target_length : option Z) : result Signal :=
  (target_length <~
     match target_length with
     | None => default_target_length self
     | Some t => Return t
     end;
   let len := Z.of_nat (length audio) in
   if (len >? target_length)%Z then Return (py_slice_to audio target_length)
   else if (len <? target_length)%Z then
     let padding := (target_length - len)%Z in
     Return (np_pad_right audio padding)
   else Return audio)%result.

Definition normalize_audio (audio : Signal) : result Signal :=
  (peak <~ np_max (np_abs audio);
   if Qgtb peak 0
   then (peak' <~ np_max (np_abs audio);
         Return (map (fun x => x / peak')%Q audio))
   else Return audio)%result.

(** ** The signal-processing library (librosa, numpy.random)

    Each field stands for one library entry point, called with the arguments
    the source passes. A call may raise; the arrays it returns are opaque
    apart from their shape. *)

Record Librosa : Type := {
  (** [librosa.load(path, sr=sr)] *)
  librosa_load : string -> Z -> result (Signal * Z);
  (** [librosa.feature.melspectrogram(y, sr, n_fft, hop_length, n_mels)] *)
  feature_melspectrogram : Signal -> Z -> Z -> Z -> Z -> result Matrix;
  (** [librosa.power_to_db(S, ref=np.max)] *)
  power_to_db : Matrix -> result Matrix;
  (** [librosa.feature.mfcc(y, sr, n_mfcc, n_fft, hop_length)] *)
  feature_mfcc : Signal -> Z -> Z -> Z -> Z -> result Matrix;
  (** [librosa.feature.spectral_centroid(y, sr, hop_length)] and its
      siblings, each returning a two-dimensional array *)
  feature_spectral_centroid : Signal -> Z -> Z -> result Matrix;
  feature_spectral_rolloff : Signal -> Z -> Z -> result Matrix;
  feature_zero_crossing_rate : Signal -> Z -> result Matrix;
  feature_spectral_contrast : Signal -> Z -> Z -> result Matrix;
  feature_tonnetz : Signal -> Z -> Z -> result Matrix;
  (** [librosa.effects.time_stretch(y, rate)] *)
  effects_time_stretch : Signal -> Q -> result Signal;
  (** [librosa.effects.pitch_shift(y, sr, n_steps)] *)
  effects_pitch_shift : Signal -> Z -> Q -> result Signal;
  (** the [i]-th draw of [np.random.normal(0, scale, shape)] *)
  random_normal : Q -> nat -> Q
}.

Record SpectralFeatures : Type := {
  spectral_centroid : list Q;
  spectral_rolloff : list Q;
  zero_crossing_rate : list Q;
  spectral_contrast : Matrix;
  tonnetz : Matrix
}.

(** The dict [process_audio_file] builds. The key ['augmented'] is absent
    ([None]) until [augment_data] sets it. *)
Record ProcessedRecord : Type := {
  r_file_path : string;
  r_audio_data : Signal;
  r_sample_rate : Z;
  r_duration : Q;
  r_mel_spectrogram : Matrix;
  r_mfcc : Matrix;
  r_spectral_features : SpectralFeatures;
  r_augmented : option bool
}.

(** [a[0]] on a two-dimensional array. *)
Definition row0 (a : Matrix) : result (list Q) :=
  match a with
  | [] => Raise (IndexError "index 0 is out of bounds for axis 0 with size 0")
  | r :: _ => Return r
  end.

(** [a.flatten()] *)
Definition flatten (a : Matrix) : list Q := concat a.

Section Preprocessing.
Variable lib : Librosa.
Variable self : AudioPreprocessor.

Local Open Scope result_scope.

Definition load_audio (file_path : string) : result (Signal * Z) :=
  rtry (librosa_load lib file_path (sample_rate self))
       (fun e => Raise e).

Definition extract_mel_spectrogram (audio : Signal) : result Matrix :=
  rtry (mel_spec <~ feature_melspectrogram lib audio (sample_rate self)
                      (n_fft self) (hop_length self) (n_mels self);
        mel_spec_db <~ power_to_db lib mel_spec;
        Return mel_spec_db)
       (fun e => Raise e).

Definition extract_mfcc (audio : Signal) (n_mfcc : Z) : result Matrix :=
  rtry (feature_mfcc lib audio (sample_rate self) n_mfcc
          (n_fft self) (hop_length self))
       (fun e => Raise e).

Definition extract_spectral_features (audio : Signal)
  : result SpectralFeatures :=
  rtry (c <~ rbind (feature_spectral_centroid lib audio (sample_rate self)
                      (hop_length self)) row0;
        r <~ rbind (feature_spectral_rolloff lib audio (sample_rate self)
                      (hop_length self)) row0;
        z <~ rbind (feature_zero_crossing_rate lib audio (hop_length self))
                   row0;
        k <~ feature_spectral_contrast lib audio (sample_rate self)
               (hop_length self);
        t <~ feature_tonnetz lib audio (sample_rate self) (hop_length self);
        Return {| spectral_centroid := c; spectral_rolloff := r;
                  zero_crossing_rate := z; spectral_contrast := k;
                  tonnetz := t |})
       (fun e => Raise e).

(** The body of [process_audio_file], inside its [try]. *)
Definition process_audio_file_body (file_path : string)
  : result (option ProcessedRecord) :=
  loaded <~ load_audio file_path;
  let '(audio, sr) := loaded in
  valid <~ validate_audio_duration self audio;
  if negb valid then Return None
  else
    audio <~ normalize_audio audio;
    audio <~ trim_or_pad_audio self audio None;
    duration <~ py_div (inject_Z (Z.of_nat (length audio))) (inject_Z sr);
    mel <~ extract_mel_spectrogram audio;
    mf <~ extract_mfcc audio 13;
    spec <~ extract_spectral_features audio;
    Return (Some {| r_file_path := file_path; r_audio_data := audio;
                    r_sample_rate := sr; r_duration := duration;
                    r_mel_spectrogram := mel; r_mfcc := mf;
                    r_spectral_features := spec; r_augmented := None |}).

Definition process_audio_file (file_path : string)
  : result (option ProcessedRecord) :=
  rtry (process_audio_file_body file_path) (fun e => Return None).
End Preprocessing.

(** ** DataAugmentation *)

Record DataAugmentation : Type := { aug_sample_rate : Z }.

Section Augmentation.
Variable lib : Librosa.
Variable self : DataAugmentation.

(** [np.random.normal(0, noise_level, audio.shape)] *)
Definition np_random_normal (noise_level : Q) (shape : nat) : Signal :=
  map (random_normal lib noise_level) (seq 0 shape).

(** [audio + noise] on arrays of one shape. *)
Definition np_add (a b : Signal) : Signal := zip_with Qplus a b.

Definition add_noise (audio : Signal) (noise_level : Q) : Signal :=
  let noise := np_random_normal noise_level (length audio) in
  np_add audio noise.

Definition time_stretch (audio : Signal) (rate : Q) : result Signal :=
  rtry (effects_time_stretch lib audio rate) (fun e => Return audio).

Definition pitch_shift (audio : Signal) (n_steps : Q) : result Signal :=
  rtry (effects_pitch_shift lib audio (aug_sample_rate self) n_steps)
       (fun e => Return audio).
End Augmentation.

(** ** Strings *)

Definition lower_ascii (c : ascii) : ascii :=
  let n := nat_of_ascii c in
  if (65 <=? n)%nat && (n <=? 90)%nat then ascii_of_nat (n + 32) else c.

(** [s.lower()] *)
Fixpoint lower (s : string) : string :=
  match s with
  | EmptyString => EmptyString
  | String c rest => String (lower_ascii c) (lower rest)
  end.

(** [s.endswith(suffix)] *)
Definition endswith (s suffix : string) : bool :=
  let n := String.length s in
  let k := String.length suffix in
  (k <=? n)%nat && String.eqb (String.substring (n - k) k s) suffix.

Fixpoint basename_from (acc s : string) : string :=
  match s with
  | EmptyString => acc
  | String c rest =>
      if Ascii.eqb c "/" then basename_from EmptyString rest
      else basename_from (acc +:+ String c EmptyString) rest
  end.

(** [os.path.basename(path)] *)
Definition basename (path : string) : string := basename_from EmptyString path.

(** [os.path.join(dir, name)] for a relative [name]. *)
Definition path_join (dir name : string) : string := dir +:+ "/" +:+ name.

(** ** Status records, datasets and the contents of files and blobs *)

Record DatasetStats : Type := {
  total_samples : nat;
  training_samples : nat;
  validation_samples : nat;
  feature_dim : nat;
  num_classes : nat
}.

(** The values status metadata carries. *)
Inductive JsonValue : Type :=
  | JNull
  | JStr (s : string)
  | JStats (s : DatasetStats)
  | JOther (repr : string).

Record StatusData : Type := {
  pipeline_id : string;
  status : string;
  progress : Q;
  message : string;
  timestamp : string;
  metadata : gmap string JsonValue
}.

Record Metadata : Type := {
  m_file_path : string;
  m_duration : Q;
  m_augmented : bool
}.


(** What [train_test_split] returns. *)
Record Split : Type := {
  X_train : Matrix;
  X_val : Matrix;
  y_train : list string;
  y_val : list string;
  metadata_train : list Metadata;
  metadata_val : list Metadata
}.

(** A fitted [StandardScaler]: per-column mean and scale. *)
Record Scaler : Type := { scaler_mean : list Q; scaler_scale : list Q }.

Record Dataset : Type := {
  split : Split;
  scaler : Scaler;
  feature_names : list string;
  label_mapping : list (string * Z);
  dataset_stats : DatasetStats
}.

Record TrainingResult : Type := {
  model_gcs_path : string;
  vertex_model_name : string;
  final_metrics : JsonValue;
  model_config : JsonValue
}.

(** What a file or a blob holds: the JSON text of a status record or of
    dataset statistics, a pickled dataset, or any other bytes. *)
Inductive Content : Type :=
  | JsonStatus (d : StatusData)
  | JsonStats (s : DatasetStats)
  | Pickle (d : Dataset)
  | Bytes (b : string).

(** What [json.load] returns: the document the text denotes. *)
Inductive JsonDoc : Type :=
  | DocStatus (d : StatusData)
  | DocStats (s : DatasetStats)
  | DocOther (v : JsonValue).

(** ** The world: local disk, buckets, and the order of external calls *)

Record World : Type := {
  (** how many external calls have been made *)
  tick : nat;
  (** the local disk: path to content *)
  files : gmap string Content;
  (** the buckets: (bucket name, blob name) to content *)
  blobs : gmap (string * string) Content;
  (** every blob write so far, oldest first *)
  uploads : list (string * string * Content);
  (** every status update asked for so far, stored or not, oldest first:
      the blob write it asks for, its time not read yet *)
  requests : list (string * string * Content)
}.

Definition bump (w : World) : World :=
  {| tick := S (tick w); files := files w; blobs := blobs w;
     uploads := uploads w; requests := requests w |}.

Definition set_files (f : gmap string Content) (w : World) : World :=
  {| tick := tick w; files := f; blobs := blobs w; uploads := uploads w;
     requests := requests w |}.

Definition put_blob (bucket name : string) (c : Content) (w : World) : World :=
  {| tick := tick w; files := files w;
     blobs := <[(bucket, name) := c]> (blobs w);
     uploads := uploads w ++ [(bucket, name, c)];
     requests := requests w |}.

Definition note_request (u : string * string * Content) (w : World) : World :=
  {| tick := tick w; files := files w; blobs := blobs w;
     uploads := uploads w;
     requests := requests w ++ [u] |}.

Definition empty_world : World :=
  {| tick := 0; files := ∅; blobs := ∅; uploads := []; requests := [] |}.

(** One status update made by the trainer: status, progress, message. *)
Definition StatusCall : Type := string * Q * string.

(** Everything outside the repository. An external call may fail: [fault t]
    is the exception raised by the [t]-th external call of the run, if any,
    and [clock t] is what the clock reads at that call. *)
Record Env : Type := {
  lib : Librosa;
  fault : nat -> option exn;
  clock : nat -> string;
  (** the exception of the storage service for an object that does not
      exist, by bucket and name *)
  not_found : string -> string -> exn;
  (** what a download that fails leaves at its destination, by the number
      of the call and what was there: the client opens the destination for
      writing before it asks for the object *)
  download_leftover : nat -> option Content -> option Content;
  (** [json.loads] on text that is not one of the pipeline's documents *)
  json_loads : string -> result JsonValue;
  (** the order in which the pool's futures complete *)
  as_completed : list string -> list string;
  (** [StandardScaler().fit_transform(X)] *)
  scaler_fit_transform : Matrix -> result (Scaler * Matrix);
  (** [train_test_split(X, y, meta, test_size, random_state=42, stratify=y)] *)
  train_test_split : Matrix -> list string -> list Metadata -> Q -> result Split;
  (** [ModelTrainer.run_training_pipeline(dataset_path, pipeline_id)], kept
      abstract: the status updates it makes, all under the pipeline id it
      is given, and how it ends *)
  training_run : string -> string -> list StatusCall * result TrainingResult
}.

(** ** The monad of effectful code *)

Definition M (A : Type) : Type := World -> result A * World.

Definition mret {A} (a : A) : M A := fun w => (Return a, w).

Definition mraise {A} (e : exn) : M A := fun w => (Raise e, w).

Definition mbind {A B} (m : M A) (k : A -> M B) : M B := fun w =>
  match m w with
  | (Return a, w') => k a w'
  | (Raise e, w') => (Raise e, w')
  end.

(** [try: body except Exception as e: handler e] *)
Definition mtry {A} (body : M A) (handler : exn -> M A) : M A := fun w =>
  match body w with
  | (Return a, w') => (Return a, w')
  | (Raise e, w') => handler e w'
  end.

Definition lift {A} (r : result A) : M A := fun w => (r, w).

Declare Scope m_scope.
Delimit Scope m_scope with M.
Notation "x <- m ;; k" := (mbind m (fun x => k))
  (at level 100, m at next level, right associativity) : m_scope.
Notation "m ;;; k" := (mbind m (fun _ => k))
  (at level 100, right associativity) : m_scope.

(** ** GCP configuration, storage manager and status tracker *)

Record Buckets : Type := {
  raw_data : string;
  processed_data : string;
  models : string
}.

Record GCPConfig : Type := { project_id : string; buckets : Buckets }.

Definition mk_gcp_config (project : string) : GCPConfig :=
  {| project_id := project;
     buckets := {| raw_data := project +:+ "-ml-pipeline-raw-data";
                   processed_data := project +:+ "-ml-pipeline-processed-data";
                   models := project +:+ "-ml-pipeline-models" |} |}.

Record PipelineStatus : Type := {
  status_bucket : string;
  status_prefix : string
}.

Definition mk_pipeline_status (config : GCPConfig) : PipelineStatus :=
  {| status_bucket := models (buckets config);
     status_prefix := "pipeline_status/" |}.

Section Effects.
Variable env : Env.

Local Open Scope m_scope.

(** [open(path)] on a file that does not exist. *)
Definition no_such_file (path : string) : exn :=
  FileNotFoundError
    ("[Errno 2] No such file or directory: '" +:+ path +:+ "'").

(** An external call: it is counted, and fails if the environment says so. *)
Definition external {A} (op : World -> result A * World) : M A := fun w =>
  let w' := bump w in
  match fault env (tick w) with
  | Some e => (Raise e, w')
  | None => op w'
  end.

(** A step of the model only: it notes a status update that is asked
    for. *)
Definition request_noted (u : string * string * Content) : M unit :=
  fun w => (Return tt, note_request u w).

(** [aiplatform.utils.timestamp_now()] rendered with [str]. *)
Definition timestamp_now : M string :=
  external (fun w => (Return (clock env (tick w)), w)).

(** [with open(path, 'w') as f: json.dump(...)] or [pickle.dump(...)]. *)
Definition write_file (path : string) (c : Content) : M unit :=
  external (fun w => (Return tt, set_files (<[path := c]> (files w)) w)).

(** [os.remove(path)] *)
Definition os_remove (path : string) : M unit :=
  external (fun w =>
    match files w !! path with
    | None => (Raise (no_such_file path), w)
    | Some _ => (Return tt, set_files (delete path (files w)) w)
    end).

(** [os.makedirs(path, exist_ok=True)] *)
Definition os_makedirs (path : string) : M unit :=
  external (fun w => (Return tt, w)).

(** [bucket.blob(name).upload_from_filename(path)] *)
Definition blob_upload_from_filename (bucket name path : string) : M unit :=
  external (fun w =>
    match files w !! path with
    | None => (Raise (no_such_file path), w)
    | Some c => (Return tt, put_blob bucket name c w)
    end).

(** [bucket.blob(name).download_to_filename(path)]: when it fails, what
    is left at [path] is the environment's. *)
Definition blob_download_to_filename (bucket name path : string) : M unit :=
  fun w =>
    let w' := bump w in
    let failed :=
      set_files (partial_alter (download_leftover env (tick w)) path
                   (files w')) w' in
    match fault env (tick w) with
    | Some e => (Raise e, failed)
    | None =>
        match blobs w' !! (bucket, name) with
        | None => (Raise (not_found env bucket name), failed)
        | Some c => (Return tt, set_files (<[path := c]> (files w')) w')
        end
    end.

(** [[blob.name for blob in bucket.list_blobs(prefix=prefix)]] *)
Definition bucket_list_blobs (bucket prefix : string) : M (list string) :=
  external (fun w =>
    (Return (omap (fun kv : string * string * Content =>
                     let '(b, name, _) := kv in
                     if String.eqb b bucket && String.prefix prefix name
                     then Some name else None)
                  (map_to_list (blobs w))), w)).

(** *** StorageManager *)

Definition upload_file (bucket_name source_file_path destination_blob_name
    : string) : M string :=
  mtry (blob_upload_from_filename bucket_name destination_blob_name
          source_file_path;;;
        mret ("gs://" +:+ bucket_name +:+ "/" +:+ destination_blob_name))
       (fun e => mraise e).

Definition download_file (bucket_name source_blob_name destination_file_path
    : string) : M string :=
  mtry (blob_download_to_filename bucket_name source_blob_name
          destination_file_path;;;
        mret destination_file_path)
       (fun e => mraise e).

Definition list_files (bucket_name prefix : string) : M (list string) :=
  mtry (bucket_list_blobs bucket_name prefix) (fun e => mraise e).

(** *** PipelineStatus *)

Definition status_blob_name (self : PipelineStatus) (pipeline_id : string)
  : string :=
  status_prefix self +:+ pipeline_id +:+ ".json".

Definition status_file_path (pipeline_id : string) : string :=
  "/tmp/status_" +:+ pipeline_id +:+ ".json".

(** The blob write a status update asks for: the record without its time,
    which is read only when the update runs. *)
Definition status_request (self : PipelineStatus) (pipeline_id status : string)
    (progress : Q) (message : string)
    (metadata : option (gmap string JsonValue))
  : string * string * Content :=
  (status_bucket self, status_blob_name self pipeline_id,
   JsonStatus {| pipeline_id := pipeline_id; status := status;
                 progress := progress; message := message;
                 timestamp := "";
                 metadata := default ∅ metadata |}).

Definition update_status (self : PipelineStatus) (pipeline_id status : string)
    (progress : Q) (message : string)
    (metadata : option (gmap string JsonValue)) : M bool :=
  (* a step of the model: the call is noted, whatever becomes of it *)
  request_noted (status_request self pipeline_id status progress message
                   metadata);;;
  mtry (now <- timestamp_now;;
        let status_data :=
          {| pipeline_id := pipeline_id; status := status;
             progress := progress; message := message;
             timestamp := now;
             metadata := default ∅ metadata |} in
        let status_file := status_file_path pipeline_id in
        write_file status_file (JsonStatus status_data);;;
        let blob_name := status_blob_name self pipeline_id in
        upload_file (status_bucket self) status_file blob_name;;;
        os_remove status_file;;;
        mret true)
       (fun e => mret false).

(** The document a file's content denotes: a pickle does not decode as
    text. *)
Definition json_document (c : Content) : result JsonDoc :=
  match c with
  | JsonStatus d => Return (DocStatus d)
  | JsonStats s => Return (DocStats s)
  | Pickle _ =>
      Raise (ValueError ("'utf-8' codec can't decode byte 0x80 in " +:+
                         "position 0: invalid start byte"))
  | Bytes b => rbind (json_loads env b) (fun v => Return (DocOther v))
  end.

(** [with open(path, 'r') as f: json.load(f)] *)
Definition json_load (path : string) : M JsonDoc :=
  external (fun w =>
    match files w !! path with
    | Some c => (json_document c, w)
    | None => (Raise (no_such_file path), w)
    end).

(** A value that may be Python's [None], which is what JSON's [null]
    loads as. *)
Definition optional (d : JsonDoc) : option JsonDoc :=
  match d with
  | DocOther JNull => None
  | _ => Some d
  end.

Definition get_status (self : PipelineStatus) (pipeline_id : string)
  : M (option JsonDoc) :=
  mtry (let blob_name := status_blob_name self pipeline_id in
        let status_file := status_file_path pipeline_id in
        download_file (status_bucket self) blob_name status_file;;;
        status_data <- json_load status_file;;
        os_remove status_file;;;
        mret (optional status_data))
       (fun e => mret None).

End Effects.

(** ** DataProcessor *)

(** The keys of the configuration document the pipeline reads.
    [augmentation_enabled] is [config['data_processing']['augmentation']
    .get('enabled')]: [None] when the key is absent. *)
Record Config : Type := {
  cfg_sample_rate : Z;
  cfg_max_duration : Q;
  cfg_min_duration : Q;
  augmentation_enabled : option bool;
  validation_split : Q
}.

Record DataProcessor : Type := {
  config : Config;
  gcp_config : GCPConfig;
  pipeline_status : PipelineStatus;
  preprocessor : AudioPreprocessor;
  augmentation : DataAugmentation
}.

Definition mk_data_processor (cfg : Config) (gcp : GCPConfig) : DataProcessor :=
  {| config := cfg;
     gcp_config := gcp;
     pipeline_status := mk_pipeline_status gcp;
     preprocessor := mk_preprocessor (cfg_sample_rate cfg)
                       (cfg_max_duration cfg) (cfg_min_duration cfg);
     augmentation := {| aug_sample_rate := cfg_sample_rate cfg |} |}.

Definition audio_extensions : list string :=
  [".wav"; ".mp3"; ".flac"; ".m4a"; ".ogg"].

(** [lo + (i / total) * width]: the progress formula of the three loops. *)
Definition loop_progress (lo width : Q) (i total : nat) : result Q :=
  (q <~ py_div (inject_Z (Z.of_nat i)) (inject_Z (Z.of_nat total));
   Return (lo + q * width)%Q)%result.

(** [f"{done}/{total}"] *)
Definition fraction_str (done total : nat) : string :=
  pretty done +:+ "/" +:+ pretty total.

(** The vector [prepare_dataset] builds from one record. *)
Definition feature_vector (data : ProcessedRecord) : list Q :=
  flatten (r_mel_spectrogram data) ++
  flatten (r_mfcc data) ++
  spectral_centroid (r_spectral_features data) ++
  spectral_rolloff (r_spectral_features data) ++
  zero_crossing_rate (r_spectral_features data).

(** The [ValueError] of [np.array] for rows of different lengths, with the
    message of numpy 1.24 and later. *)
Definition inhomogeneous (rows : nat) : exn :=
  ValueError
    ("setting an array element with a sequence. The requested array has " +:+
     "an inhomogeneous shape after 1 dimensions. The detected shape was (" +:+
     pretty rows +:+ ",) + inhomogeneous part.").

(** [np.array(rows)] on a list of vectors: ragged rows are refused. *)
Definition np_array_2d (rows : list (list Q)) : result Matrix :=
  match rows with
  | [] => Return []
  | r :: rest =>
      if forallb (fun r' => (length r' =? length r)%nat) rest
      then Return rows else Raise (inhomogeneous (length rows))
  end.

(** [features.shape[1]] *)
Definition shape1 (a : Matrix) : result nat :=
  match a with
  | [] => Raise (IndexError "tuple index out of range")
  | r :: _ => Return (length r)
  end.

Definition _extract_label_from_filename (filename : string) : string :=
  "default_label".

Definition _get_feature_names : list string :=
  ["mel_spectrogram"; "mfcc"; "spectral_features"].

Definition _get_label_mapping : list (string * Z) := [("default_label", 0%Z)].

Definition record_metadata (data : ProcessedRecord) : Metadata :=
  {| m_file_path := r_file_path data;
     m_duration := r_duration data;
     m_augmented := default false (r_augmented data) |}.

Section Pipeline.
Variable env : Env.
Variable self : DataProcessor.

Local Open Scope m_scope.

Local Abbreviation status_update := (update_status env (pipeline_status self)).

(** *** download_raw_data *)

Fixpoint download_loop (raw_bucket temp_dir pipeline_id : string)
    (total i : nat) (todo local_files : list string) : M (list string) :=
  match todo with
  | [] => mret local_files
  | file_name :: rest =>
      let local_path := path_join temp_dir (basename file_name) in
      download_file env raw_bucket file_name local_path;;;
      let local_files := local_files ++ [local_path] in
      progress <- lift (loop_progress (1 # 10) (2 # 10) i total);;
      status_update pipeline_id "running" progress
        ("Downloaded " +:+ fraction_str (i + 1) total +:+ " files") None;;;
      download_loop raw_bucket temp_dir pipeline_id total (S i) rest local_files
  end.

Definition download_raw_data (pipeline_id : string) : M (list string) :=
  mtry (status_update pipeline_id "running" (1 # 10)
          "Downloading raw data" None;;;
        let raw_bucket := raw_data (buckets (gcp_config self)) in
        audio_files <- list_files env raw_bucket "";;
        let audio_files :=
          filter (fun f => existsb (endswith (lower f)) audio_extensions)
                 audio_files in
        let temp_dir := "/tmp/raw_audio" in
        os_makedirs env temp_dir;;;
        download_loop raw_bucket temp_dir pipeline_id
          (length audio_files) 0 audio_files [])
       (fun e =>
          status_update pipeline_id "failed" (1 # 10)
            ("Failed to download raw data: " +:+ exn_str e) None;;;
          mraise e).

(** *** process_audio_files *)

(** One iteration of the loop over completed futures. A record already
    appended to [processed_data] stays there when the rest of the
    iteration raises. *)
Definition on_completion (pipeline_id : string) (total i : nat)
    (file_path : string) (processed_data : list ProcessedRecord)
  : M (list ProcessedRecord) :=
  match process_audio_file (lib env) (preprocessor self) file_path with
  | Raise e => mret processed_data
  | Return result =>
      let processed_data :=
        match result with
        | Some r => processed_data ++ [r]
        | None => processed_data
        end in
      mtry (progress <- lift (loop_progress (3 # 10) (4 # 10) i total);;
            status_update pipeline_id "running" progress
              ("Processed " +:+ fraction_str (i + 1) total +:+ " files") None;;;
            mret processed_data)
           (fun e => mret processed_data)
  end.

Fixpoint completion_loop (pipeline_id : string) (total i : nat)
    (completed : list string) (processed_data : list ProcessedRecord)
  : M (list ProcessedRecord) :=
  match completed with
  | [] => mret processed_data
  | file_path :: rest =>
      processed_data <- on_completion pipeline_id total i file_path
                          processed_data;;
      completion_loop pipeline_id total (S i) rest processed_data
  end.

Definition process_audio_files (audio_files : list string)
    (pipeline_id : string) : M (list ProcessedRecord) :=
  mtry (status_update pipeline_id "running" (3 # 10)
          "Processing audio files" None;;;
        completion_loop pipeline_id (length audio_files) 0
          (as_completed env audio_files) [])
       (fun e =>
          status_update pipeline_id "failed" (3 # 10)
            ("Failed to process audio files: " +:+ exn_str e) None;;;
          mraise e).

(** *** augment_data *)

(** The three fixed variants of one signal. *)
Definition augmentations (audio : Signal) : result (list Signal) :=
  (let noisy := add_noise (lib env) audio (5 # 1000) in
   stretched <~ time_stretch (lib env) audio (11 # 10);
   shifted <~ pitch_shift (lib env) (augmentation self) audio 1;
   Return [noisy; stretched; shifted])%result.

(** The copy of [data] made for variant [j], features re-extracted. *)
Definition augmented_record (data : ProcessedRecord) (j : nat)
    (aug_audio : Signal) : result ProcessedRecord :=
  (mel <~ extract_mel_spectrogram (lib env) (preprocessor self) aug_audio;
   mf <~ extract_mfcc (lib env) (preprocessor self) aug_audio 13;
   spec <~ extract_spectral_features (lib env) (preprocessor self) aug_audio;
   Return {| r_file_path := r_file_path data +:+ "_aug_" +:+ pretty j;
             r_audio_data := aug_audio;
             r_sample_rate := r_sample_rate data;
             r_duration := r_duration data;
             r_mel_spectrogram := mel; r_mfcc := mf;
             r_spectral_features := spec;
             r_augmented := Some true |})%result.

Fixpoint augmented_records (data : ProcessedRecord) (j : nat)
    (variants : list Signal) : result (list ProcessedRecord) :=
  match variants with
  | [] => Return []
  | aug_audio :: rest =>
      (aug_data <~ augmented_record data j aug_audio;
       more <~ augmented_records data (S j) rest;
       Return (aug_data :: more))%result
  end.

(** What one iteration appends: the record, then its variants. *)
Definition augment_one (data : ProcessedRecord) : result (list ProcessedRecord) :=
  (variants <~ augmentations (r_audio_data data);
   augmented <~ augmented_records data 0 variants;
   Return (data :: augmented))%result.

Fixpoint augment_loop (pipeline_id : string) (total i : nat)
    (todo augmented_data : list ProcessedRecord) : M (list ProcessedRecord) :=
  match todo with
  | [] => mret augmented_data
  | data :: rest =>
      added <- lift (augment_one data);;
      let augmented_data := augmented_data ++ added in
      progress <- lift (loop_progress (7 # 10) (15 # 100) i total);;
      status_update pipeline_id "running" progress
        ("Augmented " +:+ fraction_str (i + 1) total +:+ " files") None;;;
      augment_loop pipeline_id total (S i) rest augmented_data
  end.

Definition augment_data (processed_data : list ProcessedRecord)
    (pipeline_id : string) : M (list ProcessedRecord) :=
  mtry (if negb (default true (augmentation_enabled (config self)))
        then mret processed_data
        else
          status_update pipeline_id "running" (7 # 10)
            "Applying data augmentation" None;;;
          augment_loop pipeline_id (length processed_data) 0 processed_data [])
       (fun e =>
          status_update pipeline_id "failed" (7 # 10)
            ("Failed to augment data: " +:+ exn_str e) None;;;
          mraise e).

(** *** prepare_dataset *)

Definition prepare_dataset (processed_data : list ProcessedRecord)
    (pipeline_id : string) : M Dataset :=
  mtry (status_update pipeline_id "running" (85 # 100)
          "Preparing dataset" None;;;
        let features := map feature_vector processed_data in
        let labels :=
          map (fun data => _extract_label_from_filename (r_file_path data))
              processed_data in
        let metadata := map record_metadata processed_data in
        features <- lift (np_array_2d features);;
        fitted <- lift (scaler_fit_transform env features);;
        let '(scaler, features_normalized) := fitted in
        parts <- lift (train_test_split env features_normalized labels metadata
                         (validation_split (config self)));;
        dim <- lift (shape1 features);;
        mret {| split := parts;
                scaler := scaler;
                feature_names := _get_feature_names;
                label_mapping := _get_label_mapping;
                dataset_stats :=
                  {| total_samples := length features;
                     training_samples := length (X_train parts);
                     validation_samples := length (X_val parts);
                     feature_dim := dim;
                     num_classes := length (remove_dups labels) |} |})
       (fun e =>
          status_update pipeline_id "failed" (85 # 100)
            ("Failed to prepare dataset: " +:+ exn_str e) None;;;
          mraise e).

(** *** save_processed_data *)

Definition save_processed_data (dataset : Dataset) (pipeline_id : string)
  : M string :=
  mtry (status_update pipeline_id "running" (95 # 100)
          "Saving processed data" None;;;
        let dataset_path := "/tmp/processed_dataset_" +:+ pipeline_id +:+ ".pkl" in
        write_file env dataset_path (Pickle dataset);;;
        let processed_bucket := processed_data (buckets (gcp_config self)) in
        let blob_name :=
          "datasets/processed_dataset_" +:+ pipeline_id +:+ ".pkl" in
        gcs_path <- upload_file env processed_bucket dataset_path blob_name;;
        let metadata_path :=
          "/tmp/dataset_metadata_" +:+ pipeline_id +:+ ".json" in
        write_file env metadata_path (JsonStats (dataset_stats dataset));;;
        let metadata_blob := "datasets/metadata_" +:+ pipeline_id +:+ ".json" in
        upload_file env processed_bucket metadata_path metadata_blob;;;
        os_remove env dataset_path;;;
        os_remove env metadata_path;;;
        mret gcs_path)
       (fun e =>
          status_update pipeline_id "failed" (95 # 100)
            ("Failed to save processed data: " +:+ exn_str e) None;;;
          mraise e).

(** *** DataProcessor.run_complete_pipeline *)

Definition data_run_complete_pipeline (pipeline_id : string) : M string :=
  mtry (audio_files <- download_raw_data pipeline_id;;
        processed_data <- process_audio_files audio_files pipeline_id;;
        augmented_data <- augment_data processed_data pipeline_id;;
        dataset <- prepare_dataset augmented_data pipeline_id;;
        gcs_path <- save_processed_data dataset pipeline_id;;
        status_update pipeline_id "completed" 1
          ("Data processing complete. Dataset saved to: " +:+ gcs_path)
          (Some (<["dataset_path" := JStr gcs_path]>
                   (<["dataset_stats" := JStats (dataset_stats dataset)]> ∅)));;;
        mret gcs_path)
       (fun e =>
          status_update pipeline_id "failed" 0
            ("Pipeline failed: " +:+ exn_str e) None;;;
          mraise e).

End Pipeline.

(** ** The orchestrator of run_complete_pipeline.py *)

Record Args : Type := {
  skip_data_processing : bool;
  existing_dataset_path : option string
}.

Record FinalResult : Type := {
  fr_pipeline_id : string;
  fr_dataset_path : string;
  fr_model_gcs_path : string;
  fr_vertex_model_name : string;
  fr_final_metrics : JsonValue;
  fr_model_config : JsonValue;
  fr_timestamp : string
}.

Definition final_result_metadata (r : FinalResult) : gmap string JsonValue :=
  <["pipeline_id" := JStr (fr_pipeline_id r)]>
    (<["dataset_path" := JStr (fr_dataset_path r)]>
       (<["model_gcs_path" := JStr (fr_model_gcs_path r)]>
          (<["vertex_model_name" := JStr (fr_vertex_model_name r)]>
             (<["final_metrics" := fr_final_metrics r]>
                (<["model_config" := fr_model_config r]>
                   (<["timestamp" := JStr (fr_timestamp r)]> ∅)))))).

Section Orchestrator.
Variable env : Env.
Variable gcp : GCPConfig.

Local Open Scope m_scope.

(** [datetime.now().isoformat()] *)
Definition datetime_now : M string := fun w => (Return (clock env (tick w)), w).

Definition run_data_processing (pipeline_id : string) (cfg : Config)
  : M string :=
  mtry (let processor := mk_data_processor cfg gcp in
        data_run_complete_pipeline env processor (pipeline_id +:+ "-data"))
       (fun e => mraise e).

(** The trainer reports through the tracker under the id it is given. *)
Fixpoint replay_updates (tracker : PipelineStatus) (pipeline_id : string)
    (calls : list StatusCall) : M unit :=
  match calls with
  | [] => mret tt
  | (st, pr, msg) :: rest =>
      update_status env tracker pipeline_id st pr msg None;;;
      replay_updates tracker pipeline_id rest
  end.

Definition run_training_pipeline (dataset_path pipeline_id : string)
  : M TrainingResult :=
  let '(calls, outcome) := training_run env dataset_path pipeline_id in
  replay_updates (mk_pipeline_status gcp) pipeline_id calls;;;
  lift outcome.

Definition run_model_training (pipeline_id dataset_path : string)
    (cfg : Config) : M TrainingResult :=
  mtry (run_training_pipeline dataset_path (pipeline_id +:+ "-training"))
       (fun e => mraise e).

Definition dataset_path_required : exn :=
  ValueError ("--existing-dataset-path is required when " +:+
              "--skip-data-processing is used").

(** [not args.existing_dataset_path]: absent or empty. *)
Definition falsy (s : option string) : bool :=
  match s with
  | None => true
  | Some s => String.eqb s ""
  end.

Definition run_complete_pipeline (pipeline_id : string) (cfg : Config)
    (args : Args) : M FinalResult :=
  let pipeline_status := mk_pipeline_status gcp in
  mtry (update_status env pipeline_status pipeline_id "running" 0
          "Complete pipeline started" None;;;
        dataset_path <-
          (if skip_data_processing args then
             if falsy (existing_dataset_path args)
             then mraise dataset_path_required
             else
               let dataset_path := default "" (existing_dataset_path args) in
               update_status env pipeline_status pipeline_id "running" (5 # 10)
                 "Skipped data processing, using existing dataset" None;;;
               mret dataset_path
           else
             dataset_path <- run_data_processing pipeline_id cfg;;
             update_status env pipeline_status pipeline_id "running" (5 # 10)
               "Data processing completed" None;;;
             mret dataset_path);;
        training_result <- run_model_training pipeline_id dataset_path cfg;;
        update_status env pipeline_status pipeline_id "running" (9 # 10)
          "Model training completed" None;;;
        now <- datetime_now;;
        let final_result :=
          {| fr_pipeline_id := pipeline_id;
             fr_dataset_path := dataset_path;
             fr_model_gcs_path := model_gcs_path training_result;
             fr_vertex_model_name := vertex_model_name training_result;
             fr_final_metrics := final_metrics training_result;
             fr_model_config := model_config training_result;
             fr_timestamp := now |} in
        update_status env pipeline_status pipeline_id "completed" 1
          "Complete pipeline finished successfully"
          (Some (final_result_metadata final_result));;;
        mret final_result)
       (fun e =>
          mtry (update_status env pipeline_status pipeline_id "failed" 0
                  ("Pipeline failed: " +:+ exn_str e) None;;;
                mret tt)
               (fun _ => mret tt);;;
          mraise e).

End Orchestrator.

(** ** Specification vocabulary *)

Definition all_zero (a : Signal) : Prop := Forall (fun x => x == 0)%Q a.

(** The peak absolute amplitude of [a] is at most [bound]. *)
Definition peak_at_most (bound : Q) (a : Signal) : Prop :=
  Forall (fun x => Qabs x <= bound)%Q a.

(** A sequence of progress values that never goes down. *)
Definition non_decreasing (l : list Q) : Prop :=
  forall (i j : nat) (x y : Q),
    (i <= j)%nat -> l !! i = Some x -> l !! j = Some y -> (x <= y)%Q.

(** How one input file ends. *)
Inductive FileOutcome : Type :=
  | Success (r : ProcessedRecord)
  | DurationSkip
  | HardFailure (e : exn).

(** The steps of [process_audio_file] after a successful validation. *)
Definition extract_record (l : Librosa) (self : AudioPreprocessor)
    (file_path : string) (audio : Signal) (sr : Z) : result ProcessedRecord :=
  (audio <~ normalize_audio audio;
   audio <~ trim_or_pad_audio self audio None;
   duration <~ py_div (inject_Z (Z.of_nat (length audio))) (inject_Z sr);
   mel <~ extract_mel_spectrogram l self audio;
   mf <~ extract_mfcc l self audio 13;
   spec <~ extract_spectral_features l self audio;
   Return {| r_file_path := file_path; r_audio_data := audio;
             r_sample_rate := sr; r_duration := duration;
             r_mel_spectrogram := mel; r_mfcc := mf;
             r_spectral_features := spec; r_augmented := None |})%result.

(** How the file at [file_path] ends, step by step: a failed duration
    check is a skip; a step that raises is a hard failure. *)
Definition file_outcome (l : Librosa) (self : AudioPreprocessor)
    (file_path : string) : FileOutcome :=
  match load_audio l self file_path with
  | Raise e => HardFailure e
  | Return (audio, sr) =>
      match validate_audio_duration self audio with
      | Raise e => HardFailure e
      | Return false => DurationSkip
      | Return true =>
          match extract_record l self file_path audio sr with
          | Raise e => HardFailure e
          | Return r => Success r
          end
      end
  end.

Definition is_success (o : FileOutcome) : bool :=
  match o with Success _ => true | _ => false end.

Definition is_skip (o : FileOutcome) : bool :=
  match o with DurationSkip => true | _ => false end.

Definition is_failure (o : FileOutcome) : bool :=
  match o with HardFailure _ => true | _ => false end.

Definition success_record (o : FileOutcome) : option ProcessedRecord :=
  match o with Success r => Some r | _ => None end.

(** How many elements of [l] satisfy [p]. *)
Fixpoint count_if {A} (p : A -> bool) (l : list A) : nat :=
  match l with
  | [] => 0
  | x :: rest => (if p x then 1 else 0) + count_if p rest
  end.

(** The value of [lo + (i / total) * width]. *)
Definition loop_value (lo width : Q) (i total : nat) : Q :=
  (lo + inject_Z (Z.of_nat i) / inject_Z (Z.of_nat total) * width)%Q.

(** The number of frames librosa computes for [n] samples (centered
    frames): [1 + n // hop_length]. *)
Definition frames_z (n hop : Z) : Z := 1 + n / hop.

Definition frames (n : nat) (hop : Z) : nat :=
  Z.to_nat (frames_z (Z.of_nat n) hop).

(** The length [librosa.effects.time_stretch] gives its output:
    [round(len(y) / rate)]. *)
Definition stretched_length_z (n : Z) (rate : Q) : Z :=
  py_round (inject_Z n / rate).

Definition stretched_length (n : nat) (rate : Q) : nat :=
  Z.to_nat (stretched_length_z (Z.of_nat n) rate).

(** What the library documents about the shapes of its results. *)
Record LibrosaShapes (l : Librosa) : Prop := {
  melspectrogram_shape : forall y sr nfft hop nmels S,
    feature_melspectrogram l y sr nfft hop nmels = Return S ->
    length S = Z.to_nat nmels /\
    Forall (fun row => length row = frames (length y) hop) S;
  power_to_db_shape : forall S S',
    power_to_db l S = Return S' -> map length S' = map length S;
  mfcc_shape : forall y sr n_mfcc nfft hop C,
    feature_mfcc l y sr n_mfcc nfft hop = Return C ->
    length C = Z.to_nat n_mfcc /\
    Forall (fun row => length row = frames (length y) hop) C;
  spectral_centroid_shape : forall y sr hop C,
    feature_spectral_centroid l y sr hop = Return C ->
    Forall (fun row => length row = frames (length y) hop) C;
  spectral_rolloff_shape : forall y sr hop C,
    feature_spectral_rolloff l y sr hop = Return C ->
    Forall (fun row => length row = frames (length y) hop) C;
  zero_crossing_rate_shape : forall y hop C,
    feature_zero_crossing_rate l y hop = Return C ->
    Forall (fun row => length row = frames (length y) hop) C;
  time_stretch_length : forall y rate y',
    effects_time_stretch l y rate = Return y' ->
    length y' = stretched_length (length y) rate;
  pitch_shift_length : forall y sr n_steps y',
    effects_pitch_shift l y sr n_steps = Return y' ->
    length y' = length y
}.

(** The status records for [id] among blob writes, oldest first. *)
Definition status_writes (id : string) (us : list (string * string * Content))
  : list StatusData :=
  omap (fun u : string * string * Content =>
          match u.2 with
          | JsonStatus d => if String.eqb (pipeline_id d) id then Some d else None
          | _ => None
          end)
       us.

(** The status records written for [id] so far. *)
Definition status_history (id : string) (w : World) : list StatusData :=
  status_writes id (uploads w).

Definition not_failed (d : StatusData) : bool :=
  negb (String.eqb (status d) "failed").

Definition in_unit_interval (d : StatusData) : Prop :=
  (0 <= progress d)%Q /\ (progress d <= 1)%Q.

(** The record [update_status] builds when called in world [w]. *)
Definition status_record (env : Env) (w : World) (id st : string) (pr : Q)
    (msg : string) (md : option (gmap string JsonValue)) : StatusData :=
  {| pipeline_id := id; status := st; progress := pr; message := msg;
     timestamp := clock env (S (tick w)); metadata := default ∅ md |}.

(** The [n] external calls starting with call number [t] all succeed. *)
Definition calls_succeed (env : Env) (t n : nat) : Prop :=
  forall i, (i < n)%nat -> fault env (t + i) = None.

(** The status updates asked for under [id] so far, stored or not. *)
Definition status_requests (id : string) (w : World) : list StatusData :=
  status_writes id (requests w).

(** The two histories of a world: the blob writes made, and the status
    updates asked for. *)
Inductive History : Type := Stored | Requested.

Definition history (hist : History) (w : World)
  : list (string * string * Content) :=
  match hist with
  | Stored => uploads w
  | Requested => requests w
  end.

(** [m] only appends to the history, and what it appends satisfies [P]. *)
Definition emits (hist : History) {A} (m : M A)
    (P : list (string * string * Content) -> Prop) : Prop :=
  forall w, exists delta,
    history hist (m w).2 = history hist w ++ delta /\ P delta.

(** The records have progress within [0, 1]; those not marked failed lie
    within [lo, hi] and never go down. *)
Definition window_ok (lo hi : Q) (ds : list StatusData) : Prop :=
  Forall in_unit_interval ds /\
  Forall (fun d => lo <= progress d /\ progress d <= hi)%Q
         (filter (fun d => not_failed d = true) ds) /\
  non_decreasing (map progress (filter (fun d => not_failed d = true) ds)).

Definition in_window (id : string) (lo hi : Q)
    (delta : list (string * string * Content)) : Prop :=
  window_ok lo hi (status_writes id delta).

(** Every status record among [delta] belongs to pipeline [id]. *)
Definition only_for (id : string) (delta : list (string * string * Content))
  : Prop :=
  Forall (fun u : string * string * Content =>
            match u.2 with
            | JsonStatus d => pipeline_id d = id
            | _ => True
            end) delta.

(** What a step of the orchestrator run [id] may append: the records of
    [id] fit the window, and the records of the data pipeline it starts
    (under [id'], at most once) fit the window of that pipeline; a step
    that is [silent] writes none of the latter. *)
Definition top_ok (id id' : string) (silent : bool) (lo hi : Q)
    (delta : list (string * string * Content)) : Prop :=
  in_window id lo hi delta /\
  (if silent then status_writes id' delta = []
   else in_window id' (1 # 10) 1 delta).

(** What a stage of pipeline [id] may append. *)
Definition stage_ok (id : string) (lo hi : Q)
    (delta : list (string * string * Content)) : Prop :=
  only_for id delta /\ in_window id lo hi delta.

(** ** Stand-ins for the environment, for running the model *)

Definition zeros (rows cols : nat) : Matrix :=
  replicate rows (replicate cols 0%Q).

(** Nearest-sample resampling to the length librosa would return. *)
Definition resample (y : Signal) (rate : Q) : Signal :=
  map (fun i => nth (Z.to_nat (Qfloor (inject_Z (Z.of_nat i) * rate))) y 0%Q)
      (seq 0 (stretched_length (length y) rate)).

(** A library with librosa's shapes, decoding each path as [decode] says. *)
Definition stub_librosa (decode : string -> result Signal) : Librosa :=
  {| librosa_load := fun path sr =>
       rbind (decode path) (fun a => Return (a, sr));
     feature_melspectrogram := fun y sr nfft hop nmels =>
       Return (zeros (Z.to_nat nmels) (frames (length y) hop));
     power_to_db := fun S => Return S;
     feature_mfcc := fun y sr n_mfcc nfft hop =>
       Return (zeros (Z.to_nat n_mfcc) (frames (length y) hop));
     feature_spectral_centroid := fun y sr hop =>
       Return (zeros 1 (frames (length y) hop));
     feature_spectral_rolloff := fun y sr hop =>
       Return (zeros 1 (frames (length y) hop));
     feature_zero_crossing_rate := fun y hop =>
       Return (zeros 1 (frames (length y) hop));
     feature_spectral_contrast := fun y sr hop =>
       Return (zeros 7 (frames (length y) hop));
     feature_tonnetz := fun y sr hop =>
       Return (zeros 6 (frames (length y) hop));
     effects_time_stretch := fun y rate => Return (resample y rate);
     effects_pitch_shift := fun y sr n_steps => Return y;
     random_normal := fun scale i => 0%Q |}.

(** The same library with both effects failing. *)
Definition with_failing_effects (l : Librosa) : Librosa :=
  {| librosa_load := librosa_load l;
     feature_melspectrogram := feature_melspectrogram l;
     power_to_db := power_to_db l;
     feature_mfcc := feature_mfcc l;
     feature_spectral_centroid := feature_spectral_centroid l;
     feature_spectral_rolloff := feature_spectral_rolloff l;
     feature_zero_crossing_rate := feature_zero_crossing_rate l;
     feature_spectral_contrast := feature_spectral_contrast l;
     feature_tonnetz := feature_tonnetz l;
     effects_time_stretch := fun y rate =>
       Raise (ExternalError "time_stretch: bad input");
     effects_pitch_shift := fun y sr n_steps =>
       Raise (ExternalError "pitch_shift: bad input");
     random_normal := random_normal l |}.

(** A split that holds one sample out, refusing fewer than two samples. *)
Definition stub_split (X : Matrix) (y : list string) (meta : list Metadata)
    (test_size : Q) : result Split :=
  if (length X <? 2)%nat
  then Raise (ValueError "the resulting train set will be empty")
  else Return {| X_train := drop 1 X; X_val := take 1 X;
                 y_train := drop 1 y; y_val := take 1 y;
                 metadata_train := drop 1 meta; metadata_val := take 1 meta |}.

Definition stub_training : TrainingResult :=
  {| model_gcs_path := "gs://models/model.pt";
     vertex_model_name := "models/1";
     final_metrics := JOther "{}";
     model_config := JOther "{}" |}.

(** Ten files: two outside the duration bounds, one that cannot be
    decoded. *)
Definition demo_decode (path : string) : result Signal :=
  if String.eqb path "corrupt.wav" then Raise (ExternalError "cannot decode")
  else if String.eqb path "short.wav" then Return (replicate 2 (1 # 2)%Q)
  else if String.eqb path "long.wav" then Return (replicate 16 (1 # 2)%Q)
  else Return (replicate 8 (1 # 2)%Q).

Definition demo_files : list string :=
  ["a.wav"; "b.wav"; "short.wav"; "c.wav"; "corrupt.wav";
   "d.wav"; "e.wav"; "long.wav"; "f.wav"; "g.wav"].

(** Four samples a second, one to three seconds. *)
Definition demo_config : Config :=
  {| cfg_sample_rate := 4; cfg_max_duration := 3; cfg_min_duration := 1;
     augmentation_enabled := None; validation_split := 2 # 10 |}.

(** The defaults of [create_pipeline_config]: 22050 samples a second, one
    to thirty seconds, no ['enabled'] key, a fifth held out. *)
Definition default_config : Config :=
  {| cfg_sample_rate := 22050; cfg_max_duration := 30; cfg_min_duration := 1;
     augmentation_enabled := None; validation_split := 2 # 10 |}.

(** Every file decodes to thirty seconds of signal. *)
Definition default_decode (path : string) : result Signal :=
  Return (replicate (Z.to_nat 661500) (1 # 2)%Q).

(** One file, augmentation switched off: a dataset of a single sample. *)
Definition single_config : Config :=
  {| cfg_sample_rate := 4; cfg_max_duration := 3; cfg_min_duration := 1;
     augmentation_enabled := Some false; validation_split := 2 # 10 |}.

(** A world whose raw-data bucket holds one audio file. *)
Definition one_file_world : World :=
  {| tick := 0; files := ∅;
     blobs := {[ (raw_data (buckets (mk_gcp_config "p")), "a.wav")
                 := Bytes "RIFF" ]};
     uploads := []; requests := [] |}.

(** An environment in which no external call fails; the clock reads the
    number of the call. *)
Definition calm_env (l : Librosa) : Env :=
  {| lib := l;
     fault := fun _ => None;
     clock := fun t => "t" +:+ pretty t;
     not_found := fun bucket name =>
       ExternalError ("404 No such object: " +:+ bucket +:+ "/" +:+ name);
     download_leftover := fun _ _ => None;
     json_loads := fun _ =>
       Raise (ValueError "Expecting value: line 1 column 1 (char 0)");
     as_completed := fun files => files;
     scaler_fit_transform := fun X =>
       Return ({| scaler_mean := []; scaler_scale := [] |}, X);
     train_test_split := stub_split;
     training_run := fun _ _ =>
       ([("running", 1%Q, "Training epoch 1/1")], Return stub_training) |}.

(** The same environment with the [t]-th external call failing. *)
Definition failing_at (t : nat) (e : Env) : Env :=
  {| lib := lib e;
     fault := fun t' => if (t' =? t)%nat then Some (ExternalError "503")
                        else fault e t';
     clock := clock e;
     not_found := not_found e;
     download_leftover := download_leftover e;
     json_loads := json_loads e;
     as_completed := as_completed e;
     scaler_fit_transform := scaler_fit_transform e;
     train_test_split := train_test_split e;
     training_run := training_run e |}.

(** An environment in which every external call fails, the clock
    included. *)
Definition offline_env (l : Librosa) : Env :=
  {| lib := l;
     fault := fun _ => Some (ExternalError "service unavailable");
     clock := fun t => "t" +:+ pretty t;
     not_found := fun bucket name =>
       ExternalError ("404 No such object: " +:+ bucket +:+ "/" +:+ name);
     download_leftover := fun _ old => old;
     json_loads := fun _ =>
       Raise (ValueError "Expecting value: line 1 column 1 (char 0)");
     as_completed := fun files => files;
     scaler_fit_transform := fun X =>
       Return ({| scaler_mean := []; scaler_scale := [] |}, X);
     train_test_split := stub_split;
     training_run := fun _ _ =>
       ([], Raise (ExternalError "service unavailable")) |}.

(** An environment in which the services answer and the clock does not:
    the external calls numbered in [others] go through, and every other
    call, a reading of the clock, fails as a call of a function that the
    library does not have. *)
Definition without_clock (others : list nat) (l : Librosa) : Env :=
  {| lib := l;
     fault := fun t =>
       if bool_decide (t ∈ others) then None
       else Some (AttributeError
                    ("module 'google.cloud.aiplatform.utils' has no " +:+
                     "attribute 'timestamp_now'"));
     clock := fun t => "t" +:+ pretty t;
     not_found := fun bucket name =>
       ExternalError ("404 No such object: " +:+ bucket +:+ "/" +:+ name);
     download_leftover := fun _ _ => None;
     json_loads := fun _ =>
       Raise (ValueError "Expecting value: line 1 column 1 (char 0)");
     as_completed := fun files => files;
     scaler_fit_transform := fun X =>
       Return ({| scaler_mean := []; scaler_scale := [] |}, X);
     train_test_split := stub_split;
     training_run := fun _ _ =>
       ([("running", 1%Q, "Training epoch 1/1")], Return stub_training) |}.

(** The same environment with a trainer that fails. *)
Definition with_failing_training (e : Env) : Env :=
  {| lib := lib e;
     fault := fault e;
     clock := clock e;
     not_found := not_found e;
     download_leftover := download_leftover e;
     json_loads := json_loads e;
     as_completed := as_completed e;
     scaler_fit_transform := scaler_fit_transform e;
     train_test_split := train_test_split e;
     training_run := fun _ _ => ([], Raise (ExternalError "training diverged")) |}.

(** ** More stand-ins *)

(** Two records of the same short file, as [process_audio_file] builds
    them. *)
Definition demo_records : list ProcessedRecord :=
  match process_audio_file (stub_librosa demo_decode)
          (mk_preprocessor 4 3 1) "a.wav" with
  | Return (Some r) => [r; r]
  | _ => []
  end.

(** ** StorageManager.delete_file *)

Definition remove_blob (bucket name : string) (w : World) : World :=
  {| tick := tick w; files := files w;
     blobs := delete (bucket, name) (blobs w);
     uploads := uploads w; requests := requests w |}.

Section Deletion.
Variable env : Env.

Local Open Scope m_scope.

(** [bucket.blob(name).delete()], which raises [NotFound] when the blob
    does not exist. *)
Definition blob_delete (bucket name : string) : M unit :=
  external env (fun w =>
    match blobs w !! (bucket, name) with
    | None => (Raise (not_found env bucket name), w)
    | Some _ => (Return tt, remove_blob bucket name w)
    end).

Definition delete_file (bucket_name blob_name : string) : M bool :=
  mtry (blob_delete bucket_name blob_name;;;
        mret true)
       (fun e => mret false).

End Deletion.

(** A small dataset: one training and one validation sample. *)
Definition demo_dataset : Dataset :=
  {| split := {| X_train := [[1; 0]%Q]; X_val := [[0; 1]%Q];
                 y_train := ["default_label"]; y_val := ["default_label"];
                 metadata_train := []; metadata_val := [] |};
     scaler := {| scaler_mean := [1 # 2; 1 # 2]%Q; scaler_scale := [1; 1]%Q |};
     feature_names := _get_feature_names;
     label_mapping := _get_label_mapping;
     dataset_stats := {| total_samples := 2; training_samples := 1;
                         validation_samples := 1; feature_dim := 2;
                         num_classes := 1 |} |}.

(** ** DataAugmentation.apply_random_augmentation *)

(** Python's [random] module: the stream of draws from [[0, 1)], read at
    the position of the next draw. *)
Definition Rng : Type := nat -> Q.

(** [random.random()] *)
Definition random_random (rng : Rng) (pos : nat) : Q * nat :=
  (rng pos, S pos).

(** [random.uniform(a, b)], which is [a + (b - a) * random()]. *)
Definition random_uniform (rng : Rng) (a b : Q) (pos : nat) : Q * nat :=
  ((a + (b - a) * rng pos)%Q, S pos).

Definition Qltb (x y : Q) : bool := negb (Qle_bool y x).

Section RandomAugmentation.
Variable lib : Librosa.
Variable self : DataAugmentation.
Variable rng : Rng.

(** The signal returned, and the position of the next draw. *)
Definition apply_random_augmentation (audio : Signal) (pos : nat)
  : result (Signal * nat) :=
  (let augmented := audio in
   let '(u, pos) := random_random rng pos in
   step <~ (if Qltb u (5 # 10) then
              let '(noise_level, pos) :=
                random_uniform rng (1 # 1000) (1 # 100) pos in
              Return (add_noise lib augmented noise_level, pos)
            else Return (augmented, pos));
   let '(augmented, pos) := step in
   let '(u, pos) := random_random rng pos in
   step <~ (if Qltb u (3 # 10) then
              let '(rate, pos) := random_uniform rng (8 # 10) (12 # 10) pos in
              stretched <~ time_stretch lib augmented rate;
              Return (stretched, pos)
            else Return (augmented, pos));
   let '(augmented, pos) := step in
   let '(u, pos) := random_random rng pos in
   step <~ (if Qltb u (3 # 10) then
              let '(n_steps, pos) := random_uniform rng (-2) 2 pos in
              shifted <~ pitch_shift lib self augmented n_steps;
              Return (shifted, pos)
            else Return (augmented, pos));
   Return step)%result.

End RandomAugmentation.


(** * Proofs *)

(** ** Numbers and slices *)

Lemma Qgtb_true (x y : Q) : Qgtb x y = true <-> (y < x)%Q.
Proof.
  unfold Qgtb. rewrite negb_true_iff, <- not_true_iff_false, Qle_bool_iff.
  split; [apply Qnot_le_lt | apply Qlt_not_le].
Qed.

Lemma Qgtb_false (x y : Q) : Qgtb x y = false <-> (x <= y)%Q.
Proof. unfold Qgtb. by rewrite negb_false_iff, Qle_bool_iff. Qed.

Lemma py_int_integral (q : Q) (k : Z) : (q == inject_Z k)%Q -> py_int q = k.
Proof.
  destruct q as [n d]. unfold Qeq, py_int. simpl. intros H.
  rewrite Z.mul_1_r in H. subst n. apply Z.quot_mul. discriminate.
Qed.

Lemma py_slice_to_nat {A} (l : list A) (n : nat) :
  py_slice_to l (Z.of_nat n) = take n l.
Proof.
  unfold py_slice_to. destruct (Z.ltb_spec (Z.of_nat n) 0); [lia|].
  by rewrite Nat2Z.id.
Qed.

Lemma py_div_nonzero (a b : Q) : ~ (b == 0)%Q -> py_div a b = Return (a / b)%Q.
Proof.
  intros Hb. unfold py_div. destruct (Qeq_bool b 0) eqn:E; [|done].
  by apply Qeq_bool_iff in E.
Qed.

(** ** fit_length *)

(** With a target that is a length, the result is the first [n] samples
    of the signal followed by as many zeros as are missing. *)
Lemma trim_or_pad_audio_fit (self : AudioPreprocessor) (audio : Signal)
    (n : nat) :
  trim_or_pad_audio self audio (Some (Z.of_nat n))
  = Return (take n audio ++ replicate (n - length audio) 0%Q).
Proof.
  unfold trim_or_pad_audio. cbn [rbind].
  destruct (Z.gtb_spec (Z.of_nat (length audio)) (Z.of_nat n)).
  - rewrite py_slice_to_nat.
    replace (n - length audio)%nat with 0%nat by lia.
    by rewrite app_nil_r.
  - destruct (Z.ltb_spec (Z.of_nat (length audio)) (Z.of_nat n)).
    + unfold np_pad_right. rewrite take_ge by lia. do 3 f_equal. lia.
    + rewrite take_ge by lia.
      replace (n - length audio)%nat with 0%nat by lia.
      by rewrite app_nil_r.
Qed.

Lemma length_fit (audio : Signal) (n : nat) :
  length (take n audio ++ replicate (n - length audio) 0%Q) = n.
Proof. rewrite length_app, length_take, length_replicate. lia. Qed.

Lemma trim_or_pad_audio_length (self : AudioPreprocessor) (audio : Signal)
    (n : nat) (out : Signal) :
  trim_or_pad_audio self audio (Some (Z.of_nat n)) = Return out ->
  length out = n.
Proof. rewrite trim_or_pad_audio_fit. intros [= <-]. apply length_fit. Qed.

(** Without a target the default is computed first. *)
Lemma trim_or_pad_audio_default (self : AudioPreprocessor) (audio : Signal) :
  trim_or_pad_audio self audio None
  = rbind (default_target_length self)
          (fun t => trim_or_pad_audio self audio (Some t)).
Proof.
  unfold trim_or_pad_audio.
  by destruct (default_target_length self).
Qed.

(** *** Whole numbers below [2 ^ 53] are doubles *)

Lemma Qred_inject_Z (z : Z) : Qred (inject_Z z) = inject_Z z.
Proof.
  unfold Qred, inject_Z.
  generalize (Z.ggcd_gcd z 1) (Z.ggcd_correct_divisors z 1).
  destruct (Z.ggcd z 1) as [g [aa bb]]. cbn [fst snd].
  intros Hg [Ha Hb]. rewrite Z.gcd_1_r in Hg. subst g.
  rewrite Z.mul_1_l in Ha, Hb. by subst.
Qed.

Lemma Qred_whole (q : Q) (z : Z) : (q == inject_Z z)%Q -> Qred q = inject_Z z.
Proof. intros H. rewrite <- Qred_inject_Z. by apply Qred_complete. Qed.

Lemma fl_magnitude_whole (n : positive) :
  (Z.pos n < 2 ^ 53)%Z -> fl_magnitude n 1 = Some (inject_Z (Z.pos n)).
Proof.
  intros Hn. unfold fl_magnitude, binary_exponent.
  change (Z.log2 (Z.pos 1)) with 0%Z. rewrite Z.sub_0_r.
  assert (He0 : (0 <= Z.log2 (Z.pos n))%Z) by apply Z.log2_nonneg.
  assert (He : (Z.log2 (Z.pos n) < 53)%Z) by (apply Z.log2_lt_pow2; lia).
  set (e := Z.log2 (Z.pos n)) in *.
  assert (Hlow : (2 ^ e <= Z.pos n)%Z) by (apply Z.log2_spec; lia).
  destruct (Z.leb_spec 0 e) as [_|]; [|lia].
  destruct (Z.ltb_spec (Z.pos n) (Z.pos 1 * 2 ^ e)) as [Hb|_]; [lia|].
  cbv zeta. rewrite Z.max_l by lia.
  assert (Hround : forall a : Z, round_half_even a 1 = a).
  { intros a. unfold round_half_even.
    rewrite Z.div_1_r, Z.mod_1_r. done. }
  destruct (Z.leb_spec 0 (e - 52)) as [Hk|Hk].
  - assert (e = 52%Z) as -> by lia.
    change (52 - 52)%Z with 0%Z. change (2 ^ 0)%Z with 1%Z.
    rewrite !Z.mul_1_r, Hround.
    destruct (Z.leb_spec (2 ^ 1024) (Z.pos n)) as [Hbig|_].
    { exfalso. assert (2 ^ 53 < 2 ^ 1024)%Z by (apply Z.pow_lt_mono_r; lia).
      lia. }
    cbn [andb]. f_equal. apply Qred_whole.
    unfold pow2. cbn. unfold Qeq. cbn. lia.
  - cbn [andb]. rewrite Hround. f_equal. apply Qred_whole.
    unfold pow2. destruct (Z.leb_spec 0 (e - 52)) as [|_]; [lia|].
    assert (Hp : (0 < 2 ^ (- (e - 52)))%Z) by (apply Z.pow_pos_nonneg; lia).
    unfold Qeq. cbn [Qnum Qden Qmult inject_Z Pos.mul].
    rewrite Pos.mul_1_l, Z2Pos.id by exact Hp. ring.
Qed.

Lemma fl_whole (z : Z) :
  (Z.abs z < 2 ^ 53)%Z -> fl (inject_Z z) = Finite (inject_Z z).
Proof.
  intros Hz. unfold fl. rewrite Qred_inject_Z. cbn [Qnum Qden inject_Z].
  destruct z as [|n|n]; [done| |].
  - rewrite fl_magnitude_whole by lia. done.
  - rewrite fl_magnitude_whole by lia. done.
Qed.

(** A whole number of seconds at an integer rate: while everything stays
    below [2 ^ 53] the product is exact. *)
Lemma default_target_length_whole (self : AudioPreprocessor) (seconds : Z) :
  (max_duration self == inject_Z seconds)%Q ->
  (Z.abs seconds < 2 ^ 53)%Z ->
  (Z.abs (sample_rate self) < 2 ^ 53)%Z ->
  (Z.abs (seconds * sample_rate self) < 2 ^ 53)%Z ->
  default_target_length self = Return (seconds * sample_rate self)%Z.
Proof.
  intros Hmax Hs Hr Hp. unfold default_target_length, float_of_int.
  rewrite (fl_whole (sample_rate self)) by done. cbn [rbind].
  assert (Hfl : fl (max_duration self) = Finite (inject_Z seconds)).
  { rewrite <- (fl_whole seconds) by done. unfold fl.
    by rewrite (Qred_complete _ _ Hmax). }
  rewrite Hfl. cbn [float_mul].
  assert (Hprod : fl (inject_Z seconds * inject_Z (sample_rate self))
                  = Finite (inject_Z (seconds * sample_rate self))).
  { rewrite <- (fl_whole (seconds * sample_rate self)) by done.
    unfold fl. f_equal. }
  rewrite Hprod. cbn [int_of_float]. f_equal.
  apply py_int_integral. reflexivity.
Qed.

(** C8, as amended: for every signal and every target length [n],
    [trim_or_pad_audio] returns a signal of exactly [n] samples: the first
    [n] samples when the input is longer, the input followed by zeros when
    it is shorter, the input itself when the lengths agree. Without a
    target, the target is [int(max_duration * sample_rate)], the product
    being computed in double precision and truncated toward zero (the call
    raises when that product is not finite); it is the product itself for
    a whole number of seconds, as long as the numbers stay below
    [2 ^ 53]. *)
Theorem trim_or_pad_audio_spec (self : AudioPreprocessor) (audio : Signal)
    (n : nat) :
  (exists out,
     trim_or_pad_audio self audio (Some (Z.of_nat n)) = Return out /\
     length out = n /\
     ((n < length audio)%nat -> out = take n audio) /\
     ((length audio < n)%nat ->
      out = audio ++ replicate (n - length audio) 0%Q) /\
     (length audio = n -> out = audio)) /\
  trim_or_pad_audio self audio None
  = rbind (rbind (float_of_int (sample_rate self))
                 (fun sr => int_of_float
                              (float_mul (fl (max_duration self)) sr)))
          (fun t => trim_or_pad_audio self audio (Some t)) /\
  (forall seconds : Z,
     (max_duration self == inject_Z seconds)%Q ->
     (Z.abs seconds < 2 ^ 53)%Z ->
     (Z.abs (sample_rate self) < 2 ^ 53)%Z ->
     (Z.abs (seconds * sample_rate self) < 2 ^ 53)%Z ->
     trim_or_pad_audio self audio None
     = trim_or_pad_audio self audio (Some (seconds * sample_rate self)%Z)).
Proof.
  split_and!.
  - eexists. split; [apply trim_or_pad_audio_fit|].
    split; [apply length_fit|]. split_and!.
    + intros H. replace (n - length audio)%nat with 0%nat by lia.
      by rewrite app_nil_r.
    + intros H. by rewrite take_ge by lia.
    + intros H. rewrite take_ge by lia.
      replace (n - length audio)%nat with 0%nat by lia.
      by rewrite app_nil_r.
  - apply trim_or_pad_audio_default.
  - intros seconds Hmax Hs Hr Hp.
    rewrite trim_or_pad_audio_default.
    by rewrite (default_target_length_whole self seconds).
Qed.

(** C8 as stated fails: at 0.7 seconds and 22050 samples a second the
    product is 15435, but the doubles give 15434.999999999998 and the
    target is 15434; and half a second at 22051 samples a second, where
    the product is 11025.5, is fitted to 11025 samples. *)
Lemma trim_or_pad_audio_default_truncates :
  let short := mk_preprocessor 22050 (7 # 10) (1 # 10) in
  let odd := mk_preprocessor 22051 (1 # 2) (1 # 10) in
  (max_duration short * inject_Z (sample_rate short) == 15435)%Q /\
  default_target_length short = Return 15434%Z /\
  trim_or_pad_audio short [] None
  = Return (replicate (Z.to_nat 15434) 0%Q) /\
  (max_duration odd * inject_Z (sample_rate odd) == 22051 # 2)%Q /\
  default_target_length odd = Return 11025%Z.
Proof.
  cbv zeta.
  assert (H1 : default_target_length (mk_preprocessor 22050 (7 # 10) (1 # 10))
               = Return 15434%Z) by (vm_compute; reflexivity).
  split_and!.
  - reflexivity.
  - exact H1.
  - rewrite trim_or_pad_audio_default, H1. cbn [rbind].
    change 15434%Z with (Z.of_nat (Z.to_nat 15434)).
    rewrite trim_or_pad_audio_fit. reflexivity.
  - reflexivity.
  - vm_compute. reflexivity.
Qed.

Example trim_or_pad_audio_default_target :
  trim_or_pad_audio (mk_preprocessor 4 3 1) [1 # 2; 1 # 3]%Q None =
  Return [1 # 2; 1 # 3; 0; 0; 0; 0; 0; 0; 0; 0; 0; 0]%Q.
Proof. vm_compute. reflexivity. Qed.

(** A negative target is not a length: the slice then counts from the end. *)
Example trim_or_pad_audio_negative_target :
  trim_or_pad_audio (mk_preprocessor 4 3 1) [1 # 2; 1 # 3; 1 # 4]%Q
    (Some (-1)%Z) = Return [1 # 2; 1 # 3]%Q.
Proof. reflexivity. Qed.

(** ** normalize *)

Lemma foldl_Qmax_ge (xs : list Q) (x : Q) :
  (x <= foldl Qmax x xs)%Q /\ Forall (fun y => y <= foldl Qmax x xs)%Q xs.
Proof.
  revert x. induction xs as [|y ys IH]; intros x; simpl.
  - split; [apply Qle_refl | constructor].
  - destruct (IH (Qmax x y)) as [H1 H2]. split_and!.
    + eapply Qle_trans; [apply Q.le_max_l | exact H1].
    + constructor; [|exact H2].
      eapply Qle_trans; [apply Q.le_max_r | exact H1].
Qed.

Lemma foldl_Qmax_le (bound : Q) (xs : list Q) (x : Q) :
  (x <= bound)%Q -> Forall (fun y => y <= bound)%Q xs ->
  (foldl Qmax x xs <= bound)%Q.
Proof.
  revert x. induction xs as [|y ys IH]; intros x Hx Hxs; simpl; [done|].
  inversion Hxs; subst. apply IH; [|done]. by apply Q.max_lub.
Qed.

Lemma np_max_upper (a : Signal) (m : Q) :
  np_max a = Return m -> Forall (fun x => x <= m)%Q a.
Proof.
  destruct a as [|x xs]; simpl; [done|]. intros [= <-].
  destruct (foldl_Qmax_ge xs x). by constructor.
Qed.

Lemma np_max_le (bound : Q) (a : Signal) (m : Q) :
  np_max a = Return m -> Forall (fun x => x <= bound)%Q a -> (m <= bound)%Q.
Proof.
  destruct a as [|x xs]; simpl; [done|]. intros [= <-] H.
  inversion H; subst. by apply foldl_Qmax_le.
Qed.

Lemma np_max_nonempty (a : Signal) : a <> [] -> exists m, np_max a = Return m.
Proof. destruct a; [done|]. intros _. by eexists. Qed.

Lemma np_abs_nil (a : Signal) : np_abs a = [] -> a = [].
Proof. by destruct a. Qed.

Lemma normalize_audio_returns (audio : Signal) :
  audio <> [] -> returns (normalize_audio audio).
Proof.
  intros Hne. destruct (np_max_nonempty (np_abs audio)) as [m Hm].
  { intros H%np_abs_nil. done. }
  unfold normalize_audio. rewrite Hm. simpl.
  destruct (Qgtb m 0); by eexists.
Qed.

(** C7, as amended: for every non-empty signal, [normalize_audio] returns
    a signal of the same length whose peak absolute amplitude is at most 1;
    the output is all-zero exactly when the input is; and a signal whose
    peak is zero is returned unchanged (nothing is divided). *)
Theorem normalize_audio_spec (audio : Signal) :
  audio <> [] ->
  exists out,
    normalize_audio audio = Return out /\
    length out = length audio /\
    peak_at_most 1 out /\
    (exists peak_out,
       np_max (np_abs out) = Return peak_out /\ (peak_out <= 1)%Q) /\
    (all_zero out <-> all_zero audio) /\
    (forall peak, np_max (np_abs audio) = Return peak -> (peak == 0)%Q ->
                  out = audio).
Proof.
  intros Hne.
  destruct (np_max_nonempty (np_abs audio)) as [m Hm].
  { intros H%np_abs_nil. done. }
  assert (Hup : Forall (fun x => Qabs x <= m)%Q audio).
  { apply np_max_upper in Hm. unfold np_abs in Hm.
    by rewrite Forall_map in Hm. }
  assert (Hpeak : forall out, length out = length audio -> peak_at_most 1 out ->
            exists p, np_max (np_abs out) = Return p /\ (p <= 1)%Q).
  { intros out Hlen Hp.
    destruct (np_max_nonempty (np_abs out)) as [p Hp'].
    { intros H%np_abs_nil. subst out. destruct audio; done. }
    exists p. split; [done|]. eapply np_max_le; [exact Hp'|].
    unfold np_abs. by rewrite Forall_map. }
  unfold normalize_audio. rewrite Hm. simpl.
  destruct (Qgtb m 0) eqn:Hgt.
  - apply Qgtb_true in Hgt.
    assert (Hm0 : ~ (m == 0)%Q).
    { intros E. rewrite E in Hgt. by apply Qlt_irrefl in Hgt. }
    assert (Hb : peak_at_most 1 (map (fun x => x / m)%Q audio)).
    { unfold peak_at_most. rewrite Forall_map.
      eapply Forall_impl; [exact Hup|]. intros x Hx. cbv beta in *.
      unfold Qdiv. rewrite Qabs_Qmult, Qabs_Qinv.
      rewrite (Qabs_pos m) by (by apply Qlt_le_weak).
      apply Qle_shift_div_r; [done|]. by rewrite Qmult_1_l. }
    eexists. split_and!; [done|by rewrite length_map|done| |..].
    + apply Hpeak; [by rewrite length_map|done].
    + unfold all_zero. rewrite Forall_map.
      split; (intros HF; eapply Forall_impl; [exact HF|]);
        intros x Hx; cbv beta in *.
      * apply (Qmult_inj_r _ _ (/ m)).
        { intros E. apply Hm0. rewrite <- (Qinv_involutive m), E. reflexivity. }
        rewrite Qmult_0_l. exact Hx.
      * rewrite Hx. unfold Qdiv. apply Qmult_0_l.
    + intros peak [= <-] E. done.
  - apply Qgtb_false in Hgt.
    assert (Hz : all_zero audio).
    { eapply Forall_impl; [exact Hup|]. intros x Hx. cbv beta in Hx.
      assert (H1 : (Qabs x <= 0)%Q) by (eapply Qle_trans; eauto).
      assert (H2 : (Qabs x == 0)%Q).
      { apply Qle_antisym; [done|apply Qabs_nonneg]. }
      revert H2. apply Qabs_case; intros _ E; [done|].
      rewrite <- (Qopp_involutive x), E. reflexivity. }
    assert (Hb : peak_at_most 1 audio).
    { eapply Forall_impl; [exact Hup|]. intros x Hx. cbv beta in Hx.
      eapply Qle_trans; [exact Hx|]. eapply Qle_trans; [exact Hgt|]. done. }
    eexists. split_and!; [done|done|done| |done|done].
    by apply Hpeak.
Qed.

Lemma normalize_audio_spec_witness :
  exists out,
    normalize_audio [1 # 2; -3 # 1; 1 # 4]%Q = Return out /\
    length out = 3%nat /\
    peak_at_most 1 out.
Proof.
  destruct (normalize_audio_spec [1 # 2; -3 # 1; 1 # 4]%Q) as (out & H1 & H2 & H3 & _).
  - discriminate.
  - exists out. split_and!; [exact H1| exact H2| exact H3].
Defined.

(** C7 as stated fails on the empty signal: [np.max] of a zero-size array
    raises, so no signal is returned. *)
Lemma normalize_audio_empty_raises :
  normalize_audio []
  = Raise (ValueError ("zero-size array to reduction operation maximum " +:+
                       "which has no identity")) /\
  ~ returns (normalize_audio []).
Proof. split; [reflexivity|]. intros [out H]. discriminate H. Qed.

Example normalize_audio_silent :
  normalize_audio [0; 0; 0]%Q = Return [0; 0; 0]%Q.
Proof. reflexivity. Qed.

(** ** process_one *)

Lemma process_audio_file_by_outcome (l : Librosa) (self : AudioPreprocessor)
    (file_path : string) :
  process_audio_file l self file_path =
  Return (success_record (file_outcome l self file_path)).
Proof.
  unfold process_audio_file, process_audio_file_body, file_outcome,
    extract_record.
  destruct (load_audio l self file_path) as [[audio sr]|e]; simpl; [|done].
  destruct (validate_audio_duration self audio) as [[|]|e]; simpl; [|done|done].
  destruct (normalize_audio audio) as [audio'|e]; simpl; [|done].
  destruct (trim_or_pad_audio self audio' None) as [fitted|e]; simpl; [|done].
  destruct (py_div _ _) as [d|e]; simpl; [|done].
  destruct (extract_mel_spectrogram l self _) as [mel|e]; simpl; [|done].
  destruct (extract_mfcc l self _ 13) as [mf|e]; simpl; [|done].
  destruct (extract_spectral_features l self _) as [spec|e]; simpl; done.
Qed.

(** C2, as amended: [process_audio_file] never raises. It returns a record
    exactly when loading, duration validation and feature extraction all
    succeed, and null in every other case: when the duration check fails
    and also when any step raises (the error is caught, not propagated). *)
Theorem process_audio_file_never_raises (l : Librosa)
    (self : AudioPreprocessor) (file_path : string) :
  exists r,
    process_audio_file l self file_path = Return r /\
    (forall rec, r = Some rec <-> file_outcome l self file_path = Success rec) /\
    (r = None <->
     file_outcome l self file_path = DurationSkip \/
     exists e, file_outcome l self file_path = HardFailure e).
Proof.
  rewrite process_audio_file_by_outcome. eexists. split; [done|].
  destruct (file_outcome l self file_path) as [r| |e]; simpl; split.
  - intros rec. split; congruence.
  - split; [done|]. intros [?|[? ?]]; done.
  - intros rec. split; done.
  - split; [by left|done].
  - intros rec. split; done.
  - split; [right; by eexists|done].
Qed.

(** C2 as stated fails: when loading raises, the error is not propagated;
    null is returned although no duration check failed. *)
Lemma process_audio_file_swallows_load_error :
  let l := stub_librosa (fun _ => Raise (ExternalError "corrupt file")) in
  let pre := mk_preprocessor 22050 30 1 in
  load_audio l pre "bad.wav" = Raise (ExternalError "corrupt file") /\
  process_audio_file l pre "bad.wav" = Return None /\
  file_outcome l pre "bad.wav" <> DurationSkip.
Proof. split_and!; [reflexivity|reflexivity|discriminate]. Qed.

(** ** Augmentation transforms *)

(** C9: when the library's time-stretch or pitch-shift raises, the
    function returns its input unchanged; neither function ever raises, and
    so building the three variants of a signal never raises either. *)
Theorem augmentation_soft_fail (env : Env) (dp : DataProcessor)
    (audio : Signal) (rate n_steps : Q) :
  let l := lib env in
  let self := augmentation dp in
  (raises (effects_time_stretch l audio rate) ->
   time_stretch l audio rate = Return audio) /\
  (raises (effects_pitch_shift l audio (aug_sample_rate self) n_steps) ->
   pitch_shift l self audio n_steps = Return audio) /\
  returns (time_stretch l audio rate) /\
  returns (pitch_shift l self audio n_steps) /\
  returns (augmentations env dp audio).
Proof.
  cbv zeta. unfold time_stretch, pitch_shift, augmentations, returns, raises.
  split_and!.
  - intros [e ->]. done.
  - intros [e ->]. done.
  - destruct (effects_time_stretch _ _ _); simpl; by eexists.
  - destruct (effects_pitch_shift _ _ _ _); simpl; by eexists.
  - unfold time_stretch, pitch_shift.
    destruct (effects_time_stretch _ _ _);
      destruct (effects_pitch_shift _ _ _ _); simpl; by eexists.
Qed.

Example time_stretch_falls_back :
  time_stretch (with_failing_effects (stub_librosa (fun _ => Return [])))
    [1 # 2; 1 # 3]%Q (11 # 10) = Return [1 # 2; 1 # 3]%Q.
Proof. reflexivity. Qed.

(** ** The status tracker *)

Lemma external_fault {A} env (op : World -> result A * World) w e :
  fault env (tick w) = Some e -> external env op w = (Raise e, bump w).
Proof. unfold external. by intros ->. Qed.

Lemma external_ok {A} env (op : World -> result A * World) w :
  fault env (tick w) = None -> external env op w = op (bump w).
Proof. unfold external. by intros ->. Qed.

Lemma request_noted_then {A} (u : string * string * Content) (k : M A) w :
  mbind (request_noted u) (fun _ => k) w = k (note_request u w).
Proof. reflexivity. Qed.

(** Either the four external calls of [update_status] all succeed and the
    record is in the bucket, or one of them fails and [False] is returned. *)
Lemma update_status_cases env self id st pr msg md w :
  (calls_succeed env (tick w) 4 /\
   update_status env self id st pr msg md w =
     (Return true,
      {| tick := tick w + 4;
         files := delete (status_file_path id)
                    (<[status_file_path id :=
                         JsonStatus (status_record env w id st pr msg md)]>
                       (files w));
         blobs := <[(status_bucket self, status_blob_name self id) :=
                      JsonStatus (status_record env w id st pr msg md)]>
                    (blobs w);
         uploads := uploads w ++
                    [(status_bucket self, status_blob_name self id,
                      JsonStatus (status_record env w id st pr msg md))];
         requests := requests w ++ [status_request self id st pr msg md] |}))
  \/
  (~ calls_succeed env (tick w) 4 /\
   exists w', update_status env self id st pr msg md w = (Return false, w') /\
     requests w' = requests w ++ [status_request self id st pr msg md] /\
     (uploads w' = uploads w \/
      uploads w' = uploads w ++
                    [(status_bucket self, status_blob_name self id,
                      JsonStatus (status_record env w id st pr msg md))])).
Proof.
  unfold update_status. rewrite !request_noted_then.
  set (w0 := note_request (status_request self id st pr msg md) w).
  change (status_record env w id st pr msg md)
    with (status_record env w0 id st pr msg md).
  change (tick w) with (tick w0). change (files w) with (files w0).
  change (blobs w) with (blobs w0). change (uploads w) with (uploads w0).
  change (requests w ++ [status_request self id st pr msg md])
    with (requests w0).
  clearbody w0.
  assert (T1 : tick w0 + 1 = S (tick w0)) by lia.
  assert (T2 : tick w0 + 2 = S (S (tick w0))) by lia.
  assert (T3 : tick w0 + 3 = S (S (S (tick w0)))) by lia.
  unfold mtry, mbind, timestamp_now.
  destruct (fault env (tick w0)) as [e0|] eqn:F0.
  { right. split.
    - intros H. specialize (H 0 ltac:(lia)). rewrite Nat.add_0_r in H.
      congruence.
    - rewrite (external_fault _ _ _ _ F0). eexists.
      split; [reflexivity|]. split; [reflexivity|left; reflexivity]. }
  rewrite (external_ok _ _ _ F0). cbn [bump tick].
  unfold write_file.
  destruct (fault env (S (tick w0))) as [e1|] eqn:F1.
  { right. split.
    - intros H. specialize (H 1 ltac:(lia)). rewrite T1 in H. congruence.
    - rewrite external_fault with (e := e1) by done.
      eexists. split; [reflexivity|]. split; [reflexivity|left; reflexivity]. }
  rewrite external_ok by done. cbn [bump tick set_files files].
  unfold upload_file, mtry, mbind, blob_upload_from_filename.
  destruct (fault env (S (S (tick w0)))) as [e2|] eqn:F2.
  { right. split.
    - intros H. specialize (H 2 ltac:(lia)). rewrite T2 in H. congruence.
    - rewrite external_fault with (e := e2) by done.
      eexists. split; [reflexivity|]. split; [reflexivity|left; reflexivity]. }
  rewrite external_ok by done. cbn [bump tick set_files files].
  rewrite lookup_insert_eq. cbn [mret mraise].
  unfold os_remove.
  destruct (fault env (S (S (S (tick w0))))) as [e3|] eqn:F3.
  { right. split.
    - intros H. specialize (H 3 ltac:(lia)). rewrite T3 in H. congruence.
    - rewrite external_fault with (e := e3) by done.
      eexists. split; [reflexivity|]. split; [reflexivity|right; reflexivity]. }
  rewrite external_ok by done. cbn [bump tick set_files files put_blob].
  rewrite lookup_insert_eq.
  left. split.
  - intros i Hi.
    destruct i as [|[|[|[|]]]]; try lia;
      [rewrite Nat.add_0_r|rewrite T1|rewrite T2|rewrite T3]; done.
  - unfold mret, set_files, put_blob, bump. simpl. do 2 f_equal. lia.
Qed.

Lemma update_status_returns env self id st pr msg md w :
  exists b w', update_status env self id st pr msg md w = (Return b, w').
Proof.
  destruct (update_status_cases env self id st pr msg md w)
    as [[_ ->]|[_ (w' & -> & _)]]; by do 2 eexists.
Qed.

(** C10: [update_status] never raises. It returns [True] exactly when the
    four external calls of the write (clock, serialization to the temp
    file, upload, removal of the temp file) all succeed, and then the
    record is in the bucket; when any of them fails it returns [False]. *)
Theorem update_status_never_raises (env : Env) (self : PipelineStatus)
    (id st : string) (pr : Q) (msg : string)
    (md : option (gmap string JsonValue)) (w : World) :
  exists b w',
    update_status env self id st pr msg md w = (Return b, w') /\
    (b = true <-> calls_succeed env (tick w) 4) /\
    (b = true ->
     blobs w' !! (status_bucket self, status_blob_name self id) =
     Some (JsonStatus (status_record env w id st pr msg md))).
Proof.
  destruct (update_status_cases env self id st pr msg md w)
    as [[Hok ->]|[Hbad (w' & -> & _)]]; do 2 eexists;
    (split; [reflexivity|]).
  - split; [done|]. intros _. cbn [blobs]. apply lookup_insert_eq.
  - split; [|done]. split; [done|]. intros H. by destruct Hbad.
Qed.

Example update_status_upload_failure :
  let env := failing_at 2 (calm_env (stub_librosa (fun _ => Return []))) in
  (update_status env (mk_pipeline_status (mk_gcp_config "p")) "run"
     "running" (1 # 10) "Downloading raw data" None empty_world).1
  = Return false.
Proof. reflexivity. Qed.

Lemma calls_succeed_shift env t n k m :
  calls_succeed env t n -> (k + m <= n)%nat -> calls_succeed env (t + k) m.
Proof.
  intros H Hle i Hi. rewrite <- Nat.add_assoc. apply H. lia.
Qed.

Lemma calls_succeed_weaken env t n m :
  calls_succeed env t n -> (m <= n)%nat -> calls_succeed env t m.
Proof. intros H Hle i Hi. apply H. lia. Qed.

Lemma update_status_ok env self id st pr msg md w :
  calls_succeed env (tick w) 4 ->
  update_status env self id st pr msg md w =
     (Return true,
      {| tick := tick w + 4;
         files := delete (status_file_path id)
                    (<[status_file_path id :=
                         JsonStatus (status_record env w id st pr msg md)]>
                       (files w));
         blobs := <[(status_bucket self, status_blob_name self id) :=
                      JsonStatus (status_record env w id st pr msg md)]>
                    (blobs w);
         uploads := uploads w ++
                    [(status_bucket self, status_blob_name self id,
                      JsonStatus (status_record env w id st pr msg md))];
         requests := requests w ++ [status_request self id st pr msg md] |}).
Proof.
  intros H. destruct (update_status_cases env self id st pr msg md w)
    as [[_ ->]|[Hbad _]]; [done|by destruct Hbad].
Qed.




(** X21: two calls of [update_status] with identical arguments whose
    external calls all go through leave one record for the pipeline: the
    second call overwrites the blob of the first, no other blob changes
    and no blob is added. The record after the second call equals the
    record after the first in every field except [timestamp], which is the
    clock reading of the second call; the two records are identical when
    the clock reads the same. *)
Theorem update_status_twice (env : Env) (self : PipelineStatus)
    (id st : string) (pr : Q) (msg : string)
    (md : option (gmap string JsonValue)) (w : World) :
  calls_succeed env (tick w) 8 ->
  let key := (status_bucket self, status_blob_name self id) in
  let record := fun now =>
    JsonStatus {| pipeline_id := id; status := st; progress := pr;
                  message := msg; timestamp := now;
                  metadata := default ∅ md |} in
  let first := update_status env self id st pr msg md w in
  let second := update_status env self id st pr msg md first.2 in
  first.1 = Return true /\
  second.1 = Return true /\
  blobs first.2 !! key = Some (record (clock env (tick w + 1))) /\
  blobs second.2 !! key = Some (record (clock env (tick w + 5))) /\
  (forall k, k <> key -> blobs second.2 !! k = blobs first.2 !! k) /\
  size (blobs second.2) = size (blobs first.2) /\
  (clock env (tick w + 5) = clock env (tick w + 1) ->
   blobs second.2 = blobs first.2).
Proof.
  intros Hok. cbv zeta.
  rewrite (update_status_ok env self id st pr msg md w)
    by (eapply calls_succeed_weaken; [exact Hok|lia]).
  cbn [fst snd].
  rewrite update_status_ok
    by (cbn [tick]; eapply calls_succeed_shift; [exact Hok|lia]).
  cbn [fst snd blobs tick]. unfold status_record. cbn [tick].
  replace (S (tick w + 4)) with (tick w + 5) by lia.
  replace (S (tick w)) with (tick w + 1) by lia.
  split_and!; try done.
  - apply lookup_insert_eq.
  - apply lookup_insert_eq.
  - intros k Hk. by rewrite lookup_insert_ne.
  - rewrite insert_insert_eq.
    rewrite <- !size_dom, !dom_insert_L. done.
  - intros ->. by rewrite insert_insert_eq.
Qed.

Lemma update_status_twice_witness :
  let env := calm_env (stub_librosa (fun _ => Return [])) in
  let self := mk_pipeline_status (mk_gcp_config "p") in
  let first := update_status env self "run" "running" (1 # 10) "Downloading raw data" None empty_world in
  let second := update_status env self "run" "running" (1 # 10) "Downloading raw data" None first.2 in
  second.1 = Return true /\ size (blobs second.2) = size (blobs first.2).
Proof.
  cbv zeta.
  destruct (update_status_twice (calm_env (stub_librosa (fun _ => Return [])))
              (mk_pipeline_status (mk_gcp_config "p")) "run" "running" (1 # 10)
              "Downloading raw data" None empty_world)
    as (_ & H2 & _ & _ & _ & H6 & _).
  - intros i _. reflexivity.
  - split; [exact H2|exact H6].
Defined.

(** ** The extraction coordinator *)

Lemma loop_progress_value (lo width : Q) (i total : nat) :
  total <> 0%nat ->
  loop_progress lo width i total = Return (loop_value lo width i total).
Proof.
  intros H. unfold loop_progress, loop_value.
  rewrite py_div_nonzero; [done|].
  unfold Qeq. simpl. lia.
Qed.

Lemma on_completion_returns env self id total i file_path acc w :
  exists w',
    on_completion env self id total i file_path acc w =
    (Return (acc ++ option_list
               (success_record
                  (file_outcome (lib env) (preprocessor self) file_path))),
     w').
Proof.
  unfold on_completion. rewrite process_audio_file_by_outcome.
  set (r := success_record _).
  assert (E : match r with Some r0 => acc ++ [r0] | None => acc end
              = acc ++ option_list r).
  { destruct r; simpl; [done|by rewrite app_nil_r]. }
  rewrite E. unfold mtry, mbind, lift.
  destruct (loop_progress _ _ _ _) as [p|e]; [|by eexists].
  destruct (update_status_returns env (pipeline_status self) id "running" p
              ("Processed " +:+ fraction_str (i + 1) total +:+ " files")
              None w) as (b & w' & ->).
  by eexists.
Qed.

Lemma completion_loop_returns env self id total completed :
  forall i acc w, exists w',
    completion_loop env self id total i completed acc w =
    (Return (acc ++ omap (fun f => success_record
                             (file_outcome (lib env) (preprocessor self) f))
                         completed), w').
Proof.
  induction completed as [|f rest IH]; intros i acc w; simpl.
  - rewrite app_nil_r. by eexists.
  - unfold mbind.
    destruct (on_completion_returns env self id total i f acc w) as [w1 ->].
    destruct (IH (S i) (acc ++ option_list (success_record
                (file_outcome (lib env) (preprocessor self) f))) w1)
      as [w2 ->].
    exists w2. f_equal. f_equal. rewrite <- app_assoc. f_equal.
    by destruct (success_record _).
Qed.

Lemma process_audio_files_returns env self audio_files id w :
  exists w',
    process_audio_files env self audio_files id w =
    (Return (omap (fun f => success_record
                     (file_outcome (lib env) (preprocessor self) f))
                  (as_completed env audio_files)), w').
Proof.
  unfold process_audio_files, mtry, mbind.
  destruct (update_status_returns env (pipeline_status self) id "running"
              (3 # 10) "Processing audio files" None w) as (b & w1 & ->).
  destruct (completion_loop_returns env self id (length audio_files)
              (as_completed env audio_files) 0 [] w1) as [w2 ->].
  by eexists.
Qed.

Lemma count_if_Permutation {A} (p : A -> bool) (l1 l2 : list A) :
  l1 ≡ₚ l2 -> count_if p l1 = count_if p l2.
Proof.
  induction 1; simpl; try lia.
Qed.

Lemma count_if_map {A B} (p : B -> bool) (f : A -> B) (l : list A) :
  count_if p (map f l) = count_if (fun x => p (f x)) l.
Proof. induction l; simpl; congruence. Qed.

Lemma omap_cons_eq {A B} (f : A -> option B) (x : A) (l : list A) :
  omap f (x :: l) =
  match f x with Some y => y :: omap f l | None => omap f l end.
Proof. reflexivity. Qed.

Lemma length_omap_success (f : string -> FileOutcome) (l : list string) :
  length (omap (fun x => success_record (f x)) l) =
  count_if (fun x => is_success (f x)) l.
Proof.
  induction l as [|x l IH]; [done|].
  rewrite omap_cons_eq. cbn [count_if].
  destruct (f x); simpl; by rewrite IH.
Qed.

Lemma outcome_partition (f : string -> FileOutcome) (l : list string) :
  count_if (fun x => is_success (f x)) l +
  count_if (fun x => is_skip (f x)) l +
  count_if (fun x => is_failure (f x)) l = length l.
Proof.
  induction l as [|x l IH]; simpl; [done|].
  destruct (f x); simpl; lia.
Qed.

(** C3: for a batch of N files whose futures complete in any order, the
    coordinator returns the records of exactly the files that succeed, in
    completion order: at most N records, and their number plus the number
    of duration skips plus the number of hard failures is N. It returns
    them whatever fails for single files or for status updates. *)
Theorem process_audio_files_accounting (env : Env) (self : DataProcessor)
    (audio_files : list string) (id : string) (w : World) :
  as_completed env audio_files ≡ₚ audio_files ->
  let outcome := file_outcome (lib env) (preprocessor self) in
  exists data w',
    process_audio_files env self audio_files id w = (Return data, w') /\
    data = omap (fun f => success_record (outcome f))
                (as_completed env audio_files) /\
    (length data <= length audio_files)%nat /\
    (length data
     + count_if is_skip (map outcome audio_files)
     + count_if is_failure (map outcome audio_files)
     = length audio_files)%nat.
Proof.
  intros Hperm outcome.
  destruct (process_audio_files_returns env self audio_files id w) as [w' E].
  eexists _, w'. split; [exact E|]. split; [done|].
  rewrite length_omap_success, !count_if_map.
  rewrite (count_if_Permutation _ _ _ Hperm).
  pose proof (outcome_partition outcome audio_files) as HP.
  fold outcome. split; lia.
Qed.

Lemma process_audio_files_accounting_witness :
  let env := calm_env (stub_librosa demo_decode) in
  let self := mk_data_processor demo_config (mk_gcp_config "p") in
  let outcome := file_outcome (lib env) (preprocessor self) in
  exists data w',
    process_audio_files env self demo_files "run" empty_world
    = (Return data, w') /\
    length data = 7%nat /\
    count_if is_skip (map outcome demo_files) = 2%nat /\
    count_if is_failure (map outcome demo_files) = 1%nat.
Proof.
  cbv zeta.
  destruct (process_audio_files_accounting
              (calm_env (stub_librosa demo_decode))
              (mk_data_processor demo_config (mk_gcp_config "p"))
              demo_files "run" empty_world)
    as (data & w' & E & Hd & _ & _).
  - reflexivity.
  - exists data, w'. split; [exact E|]. subst data.
    split_and!; vm_compute; reflexivity.
Defined.

Lemma status_writes_app id us1 us2 :
  status_writes id (us1 ++ us2) = status_writes id us1 ++ status_writes id us2.
Proof. unfold status_writes. apply omap_app. Qed.

Lemma status_writes_own id bucket name d :
  pipeline_id d = id ->
  status_writes id [(bucket, name, JsonStatus d)] = [d].
Proof.
  intros <-. unfold status_writes. rewrite omap_cons_eq. simpl.
  by rewrite String.eqb_refl.
Qed.

Lemma update_status_calm env self id st pr msg md w :
  (forall t, fault env t = None) ->
  exists w',
    update_status env self id st pr msg md w = (Return true, w') /\
    uploads w' = uploads w ++
      [(status_bucket self, status_blob_name self id,
        JsonStatus (status_record env w id st pr msg md))].
Proof.
  intros H. rewrite update_status_ok by (intros i _; apply H).
  by eexists.
Qed.

Lemma completion_loop_progress env self id total completed :
  (forall t, fault env t = None) ->
  forall i acc w,
    (i + length completed = total)%nat ->
    exists delta,
      uploads (completion_loop env self id total i completed acc w).2
      = uploads w ++ delta /\
      map progress (status_writes id delta)
      = map (fun k => loop_value (3 # 10) (4 # 10) k total)
            (seq i (length completed)).
Proof.
  intros Hcalm. induction completed as [|f rest IH]; intros i acc w Hlen.
  - exists []. simpl. by rewrite app_nil_r.
  - simpl in Hlen. cbn [completion_loop]. unfold mbind.
    unfold on_completion at 1. rewrite process_audio_file_by_outcome.
    set (acc' := match success_record _ with Some r => acc ++ [r] | None => acc end).
    unfold mtry, mbind, lift.
    rewrite loop_progress_value by lia.
    destruct (update_status_calm env (pipeline_status self) id "running"
                (loop_value (3 # 10) (4 # 10) i total)
                ("Processed " +:+ fraction_str (i + 1) total +:+ " files")
                None w Hcalm) as (w1 & -> & Hup).
    cbn [mret].
    destruct (IH (S i) acc' w1 ltac:(lia)) as (delta & Hd & Hp).
    eexists (_ :: delta). split.
    + rewrite Hd, Hup, <- app_assoc. reflexivity.
    + change (?x :: delta) with ([x] ++ delta).
      rewrite status_writes_app, status_writes_own by done.
      simpl. by rewrite Hp.
Qed.

(** C4, what the code does: in a run where no status write fails, the
    coordinator reports 0.3 at the start of the stage and, after the k-th
    completion (k = 1..N), the value 0.3 + ((k - 1) / N) * 0.4: the loop
    index counts from zero. That is below the 0.3 + (k / N) * 0.4 of the
    claim, and 0.7 is not reached by this stage. *)
Theorem process_audio_files_progress (env : Env) (self : DataProcessor)
    (audio_files : list string) (id : string) (w : World) :
  (forall t, fault env t = None) ->
  length (as_completed env audio_files) = length audio_files ->
  let N := length audio_files in
  exists delta,
    uploads (process_audio_files env self audio_files id w).2
    = uploads w ++ delta /\
    map progress (status_writes id delta)
    = (3 # 10)%Q :: map (fun i => loop_value (3 # 10) (4 # 10) i N) (seq 0 N) /\
    forall k, (1 <= k <= N)%nat ->
      map progress (status_writes id delta) !! k
      = Some (loop_value (3 # 10) (4 # 10) (k - 1) N) /\
      (loop_value (3 # 10) (4 # 10) (k - 1) N
       < loop_value (3 # 10) (4 # 10) k N)%Q /\
      (loop_value (3 # 10) (4 # 10) (k - 1) N < 7 # 10)%Q.
Proof.
  intros Hcalm Hlen N. subst N. set (N := length audio_files) in *.
  unfold process_audio_files, mtry, mbind. fold N.
  destruct (update_status_calm env (pipeline_status self) id "running"
              (3 # 10) "Processing audio files" None w Hcalm)
    as (w1 & -> & Hup).
  destruct (completion_loop_progress env self id N
              (as_completed env audio_files) Hcalm 0 [] w1 ltac:(lia))
    as (delta & Hd & Hp).
  destruct (completion_loop_returns env self id N
              (as_completed env audio_files) 0 [] w1) as [w2 E].
  cbv beta iota zeta. rewrite E in Hd |- *. cbn [snd] in Hd |- *.
  eexists (_ :: delta). split; [|split].
  - rewrite Hd, Hup, <- app_assoc. reflexivity.
  - change (?x :: delta) with ([x] ++ delta).
    rewrite status_writes_app, status_writes_own by done.
    simpl. by rewrite Hp, Hlen.
  - intros k Hk.
    change (?x :: delta) with ([x] ++ delta).
    rewrite status_writes_app, status_writes_own by done.
    rewrite map_app, Hp, Hlen.
    destruct k as [|k]; [lia|]. cbn [map app lookup list_lookup Nat.sub].
    rewrite Nat.sub_0_r. split; [|split].
    + change (map ?f ?l !! k) with ((f <$> l) !! k).
      rewrite list_lookup_fmap, lookup_seq_lt by lia. done.
    + unfold loop_value.
      assert (inject_Z (Z.of_nat k) / inject_Z (Z.of_nat N)
              < inject_Z (Z.of_nat (S k)) / inject_Z (Z.of_nat N))%Q.
      { apply Qmult_lt_compat_r.
        - apply Qinv_lt_0_compat. unfold Qlt. simpl. lia.
        - unfold Qlt. simpl. lia. }
      lra.
    + unfold loop_value.
      assert (inject_Z (Z.of_nat k) / inject_Z (Z.of_nat N) < 1)%Q.
      { apply Qlt_shift_div_r; [unfold Qlt; simpl; lia|].
        unfold Qlt. simpl. lia. }
      lra.
Qed.

Lemma process_audio_files_progress_witness :
  let env := calm_env (stub_librosa demo_decode) in
  let self := mk_data_processor demo_config (mk_gcp_config "p") in
  exists delta,
    uploads (process_audio_files env self demo_files "run" empty_world).2
    = uploads empty_world ++ delta /\
    map progress (status_writes "run" delta) !! 10%nat
    = Some (loop_value (3 # 10) (4 # 10) 9 10) /\
    (loop_value (3 # 10) (4 # 10) 9 10 < 7 # 10)%Q.
Proof.
  cbv zeta.
  destruct (process_audio_files_progress
              (calm_env (stub_librosa demo_decode))
              (mk_data_processor demo_config (mk_gcp_config "p"))
              demo_files "run" empty_world)
    as (delta & Hd & _ & Hk).
  - intros t. reflexivity.
  - reflexivity.
  - exists delta. split; [exact Hd|].
    destruct (Hk 10%nat) as (H1 & _ & H3).
    + simpl. lia.
    + split; [exact H1|exact H3].
Defined.

(** One file: the stage reports 0.3 when it starts and 0.3 again when its
    only file has completed. *)
Example process_audio_files_one_file :
  let env := calm_env (stub_librosa demo_decode) in
  let self := mk_data_processor demo_config (mk_gcp_config "p") in
  Forall2 Qeq
    (map progress
       (status_history "run"
          (process_audio_files env self ["a.wav"] "run" empty_world).2))
    [3 # 10; 3 # 10]%Q.
Proof. vm_compute. repeat constructor. Qed.
(** ** Feature vectors of augmented records *)

Lemma length_flatten (a : Matrix) (cols : nat) :
  Forall (fun row => length row = cols) a ->
  length (flatten a) = (length a * cols)%nat.
Proof.
  unfold flatten. induction 1 as [|row a Hrow _ IH]; simpl; [done|].
  rewrite length_app, IH, Hrow. done.
Qed.

Lemma Forall_length_map_eq (a b : Matrix) (cols : nat) :
  map length a = map length b ->
  Forall (fun row => length row = cols) b ->
  Forall (fun row => length row = cols) a.
Proof.
  revert b. induction a as [|r a IH]; intros [|r' b] E H; try done.
  injection E as E1 E2. inversion H; subst.
  constructor; [congruence|]. by eapply IH.
Qed.

Lemma row0_length (a : Matrix) (row : list Q) (cols : nat) :
  row0 a = Return row ->
  Forall (fun r => length r = cols) a -> length row = cols.
Proof.
  destruct a as [|r a]; simpl; [done|]. intros [= <-] H. by inversion H.
Qed.

Section VectorLength.
Variable l : Librosa.
Variable pre : AudioPreprocessor.
Hypothesis shapes : LibrosaShapes l.

Lemma mel_spectrogram_length (audio : Signal) (mel : Matrix) :
  extract_mel_spectrogram l pre audio = Return mel ->
  length (flatten mel)
  = (Z.to_nat (n_mels pre) * frames (length audio) (hop_length pre))%nat.
Proof using shapes.
  unfold extract_mel_spectrogram, rtry, rbind.
  destruct (feature_melspectrogram _ _ _ _ _ _) as [S|e] eqn:ES; [|done].
  destruct (power_to_db l S) as [S'|e] eqn:ED; [|done]. intros [= <-].
  destruct (melspectrogram_shape l shapes _ _ _ _ _ _ ES) as [Hrows Hcols].
  pose proof (power_to_db_shape l shapes _ _ ED) as Hdb.
  rewrite (length_flatten S' (frames (length audio) (hop_length pre))).
  - f_equal. rewrite <- Hrows.
    rewrite <- (length_map length S'), Hdb. apply length_map.
  - by eapply Forall_length_map_eq.
Qed.

Lemma mfcc_length (audio : Signal) (n_mfcc : Z) (mf : Matrix) :
  extract_mfcc l pre audio n_mfcc = Return mf ->
  length (flatten mf)
  = (Z.to_nat n_mfcc * frames (length audio) (hop_length pre))%nat.
Proof using shapes.
  unfold extract_mfcc, rtry.
  destruct (feature_mfcc _ _ _ _ _ _) as [C|e] eqn:EC; [|done]. intros [= <-].
  destruct (mfcc_shape l shapes _ _ _ _ _ _ EC) as [Hrows Hcols].
  by rewrite (length_flatten C _ Hcols), Hrows.
Qed.

Lemma spectral_features_length (audio : Signal) (spec : SpectralFeatures) :
  extract_spectral_features l pre audio = Return spec ->
  length (spectral_centroid spec) = frames (length audio) (hop_length pre) /\
  length (spectral_rolloff spec) = frames (length audio) (hop_length pre) /\
  length (zero_crossing_rate spec) = frames (length audio) (hop_length pre).
Proof using shapes.
  unfold extract_spectral_features, rtry, rbind.
  destruct (feature_spectral_centroid _ _ _ _) as [C|e] eqn:EC; [|done].
  destruct (row0 C) as [c|e] eqn:Ec; [|done].
  destruct (feature_spectral_rolloff _ _ _ _) as [R|e] eqn:ER; [|done].
  destruct (row0 R) as [r|e] eqn:Er; [|done].
  destruct (feature_zero_crossing_rate _ _ _) as [Z|e] eqn:EZ; [|done].
  destruct (row0 Z) as [z|e] eqn:Ez; [|done].
  destruct (feature_spectral_contrast _ _ _ _); [|done].
  destruct (feature_tonnetz _ _ _ _); [|done].
  intros [= <-]. cbn.
  split_and!; eapply row0_length; eauto.
  - eapply spectral_centroid_shape; eauto.
  - eapply spectral_rolloff_shape; eauto.
  - eapply zero_crossing_rate_shape; eauto.
Qed.

(** The vector of a record whose features come from [audio] has
    [(n_mels + 13 + 3) * frames] entries. *)
Lemma feature_vector_length (audio : Signal) (r : ProcessedRecord) :
  extract_mel_spectrogram l pre audio = Return (r_mel_spectrogram r) ->
  extract_mfcc l pre audio 13 = Return (r_mfcc r) ->
  extract_spectral_features l pre audio = Return (r_spectral_features r) ->
  length (feature_vector r)
  = ((Z.to_nat (n_mels pre) + 16) * frames (length audio) (hop_length pre))%nat.
Proof using shapes.
  intros Hmel Hmf Hspec. unfold feature_vector.
  rewrite !length_app.
  rewrite (mel_spectrogram_length _ _ Hmel), (mfcc_length _ _ _ Hmf).
  destruct (spectral_features_length _ _ Hspec) as (-> & -> & ->).
  change (Z.to_nat 13) with 13%nat. lia.
Qed.

Lemma process_audio_file_features (file_path : string) (r : ProcessedRecord) :
  process_audio_file l pre file_path = Return (Some r) ->
  length (feature_vector r)
  = ((Z.to_nat (n_mels pre) + 16)
     * frames (length (r_audio_data r)) (hop_length pre))%nat.
Proof using shapes.
  rewrite process_audio_file_by_outcome. unfold file_outcome.
  destruct (load_audio l pre file_path) as [[audio sr]|e]; [|done].
  destruct (validate_audio_duration pre audio) as [[|]|e]; [|done|done].
  destruct (extract_record l pre file_path audio sr) as [r'|e] eqn:E; [|done].
  simpl. intros [= ->]. revert E. unfold extract_record, rbind.
  destruct (normalize_audio audio) as [a|e]; [|done].
  destruct (trim_or_pad_audio pre a None) as [fitted|e]; [|done].
  destruct (py_div _ _) as [d|e]; [|done].
  destruct (extract_mel_spectrogram _ _ _) as [mel|e] eqn:E1; [|done].
  destruct (extract_mfcc _ _ _ _) as [mf|e] eqn:E2; [|done].
  destruct (extract_spectral_features _ _ _) as [spec|e] eqn:E3; [|done].
  intros [= <-]. by apply feature_vector_length.
Qed.

End VectorLength.

(** Every record [process_audio_file] returns holds a signal of the fixed
    length. *)
Lemma process_audio_file_length (l : Librosa) (pre : AudioPreprocessor)
    (file_path : string) (r : ProcessedRecord) :
  process_audio_file l pre file_path = Return (Some r) ->
  exists t,
    default_target_length pre = Return t /\
    ((0 <= t)%Z -> length (r_audio_data r) = Z.to_nat t).
Proof.
  rewrite process_audio_file_by_outcome. unfold file_outcome.
  destruct (load_audio l pre file_path) as [[audio sr]|e]; [|done].
  destruct (validate_audio_duration pre audio) as [[|]|e]; [|done|done].
  destruct (extract_record l pre file_path audio sr) as [r'|e] eqn:E; [|done].
  simpl. intros [= ->]. revert E. unfold extract_record, rbind.
  destruct (normalize_audio audio) as [a|e]; [|done].
  rewrite trim_or_pad_audio_default. unfold rbind.
  destruct (default_target_length pre) as [t|e]; [|done].
  destruct (trim_or_pad_audio pre a (Some t)) as [fitted|e] eqn:Efit; [|done].
  destruct (py_div _ _) as [d|e]; [|done].
  destruct (extract_mel_spectrogram _ _ _) as [mel|e]; [|done].
  destruct (extract_mfcc _ _ _ _) as [mf|e]; [|done].
  destruct (extract_spectral_features _ _ _) as [spec|e]; [|done].
  intros [= <-]. cbn [r_audio_data]. exists t. split; [done|].
  intros Hpos. rewrite <- (Z2Nat.id t) in Efit by done.
  by apply trim_or_pad_audio_length in Efit.
Qed.

Lemma augmented_record_vector_length env self data j aug_audio r :
  LibrosaShapes (lib env) ->
  augmented_record env self data j aug_audio = Return r ->
  length (feature_vector r)
  = ((Z.to_nat (n_mels (preprocessor self)) + 16)
     * frames (length aug_audio) (hop_length (preprocessor self)))%nat.
Proof.
  intros shapes. unfold augmented_record, rbind.
  destruct (extract_mel_spectrogram _ _ _) as [mel|e] eqn:E1; [|done].
  destruct (extract_mfcc _ _ _ _) as [mf|e] eqn:E2; [|done].
  destruct (extract_spectral_features _ _ _) as [spec|e] eqn:E3; [|done].
  intros [= <-]. by apply (feature_vector_length _ _ shapes aug_audio).
Qed.

(** A library that behaves as librosa documents returns a time-stretched
    signal of [round(len / 1.1)] samples, and [augment_data] extracts the
    features of that signal as it is. When that length gives another
    number of frames than the fixed length of the original, the stretched
    variant (the third record appended) has a feature vector of another
    length than the original's, [np.array] refuses the batch, and
    [prepare_dataset] raises. *)
Lemma augment_one_ragged (env : Env) (self : DataProcessor)
    (file_path : string) (data : ProcessedRecord)
    (added : list ProcessedRecord) (id : string) (w : World) (t : Z) :
  let pre := preprocessor self in
  let fixed := Z.to_nat t in
  let width := (Z.to_nat (n_mels pre) + 16)%nat in
  LibrosaShapes (lib env) ->
  default_target_length pre = Return t ->
  (0 <= t)%Z ->
  frames (stretched_length fixed (11 # 10)) (hop_length pre)
  <> frames fixed (hop_length pre) ->
  process_audio_file (lib env) pre file_path = Return (Some data) ->
  returns (effects_time_stretch (lib env) (r_audio_data data) (11 # 10)) ->
  augment_one env self data = Return added ->
  exists stretched,
    added !! 0%nat = Some data /\
    added !! 2%nat = Some stretched /\
    length (r_audio_data data) = fixed /\
    length (r_audio_data stretched) = stretched_length fixed (11 # 10) /\
    length (feature_vector data)
    = (width * frames fixed (hop_length pre))%nat /\
    length (feature_vector stretched)
    = (width * frames (stretched_length fixed (11 # 10)) (hop_length pre))%nat /\
    np_array_2d (map feature_vector added) = Raise (inhomogeneous 4) /\
    (prepare_dataset env self added id w).1 = Raise (inhomogeneous 4).
Proof.
  intros pre fixed width shapes Ht Hpos Hframes Hdata [y' Hy'] Hadd.
  pose proof (process_audio_file_features _ _ shapes _ _ Hdata) as Hlen0.
  destruct (process_audio_file_length _ _ _ _ Hdata) as (t' & Ht' & Hfixed).
  fold pre in Ht'. rewrite Ht in Ht'. injection Ht' as <-.
  specialize (Hfixed Hpos).
  fold pre fixed in Hlen0, Hfixed. rewrite Hfixed in Hlen0.
  revert Hadd. unfold augment_one, augmentations, time_stretch, rbind at 1 2.
  rewrite Hy'. cbn [rtry rbind].
  destruct (pitch_shift _ _ _ _) as [y''|e]; [|done].
  cbn [augmented_records rbind].
  destruct (augmented_record env self data 0 _) as [v0|e] eqn:E0; [|done].
  cbn [rbind].
  destruct (augmented_record env self data 1 y') as [v1|e] eqn:E1; [|done].
  cbn [rbind].
  destruct (augmented_record env self data 2 y'') as [v2|e] eqn:E2; [|done].
  cbn [rbind]. intros [= <-].
  pose proof (augmented_record_vector_length _ _ _ _ _ _ shapes E1) as Hlen1.
  rewrite (time_stretch_length _ shapes _ _ _ Hy'), Hfixed in Hlen1.
  fold pre in Hlen1.
  assert (Hne : length (feature_vector v1) <> length (feature_vector data)).
  { rewrite Hlen0, Hlen1. intros E. apply Hframes.
    apply Nat.mul_cancel_l in E; [done|lia]. }
  assert (Hraise : np_array_2d (map feature_vector [data; v0; v1; v2])
                   = Raise (inhomogeneous 4)).
  { cbn [map np_array_2d forallb].
    apply Nat.eqb_neq in Hne. rewrite Hne.
    by rewrite andb_false_r. }
  exists v1. split_and!; try done.
  - revert E1. unfold augmented_record, rbind.
    destruct (extract_mel_spectrogram _ _ _); [|done].
    destruct (extract_mfcc _ _ _ _); [|done].
    destruct (extract_spectral_features _ _ _); [|done].
    intros [= <-]. cbn.
    rewrite (time_stretch_length _ shapes _ _ _ Hy'). by rewrite Hfixed.
  - unfold prepare_dataset, mtry, mbind.
    destruct (update_status_returns env (pipeline_status self) id "running"
                (85 # 100) "Preparing dataset" None w) as (b & w1 & ->).
    unfold lift at 1. rewrite Hraise.
    destruct (update_status_returns env (pipeline_status self) id "failed"
                (85 # 100)
                ("Failed to prepare dataset: " +:+
                 exn_str (inhomogeneous 4))
                None w1) as (b' & w2 & ->).
    done.
Qed.

Lemma frames_to_nat (n hop : Z) :
  (0 <= n)%Z -> frames (Z.to_nat n) hop = Z.to_nat (frames_z n hop).
Proof. intros H. unfold frames. by rewrite Z2Nat.id. Qed.

Lemma stretched_length_to_nat (n : Z) (rate : Q) :
  (0 <= n)%Z ->
  stretched_length (Z.to_nat n) rate = Z.to_nat (stretched_length_z n rate).
Proof. intros H. unfold stretched_length. by rewrite Z2Nat.id. Qed.

(** At the default configuration (22050 samples a second, 30 seconds) the
    fixed length is 661500 samples and 1292 frames; the stretched signal
    has 601364 samples and 1175 frames. *)
Lemma default_configuration_frames :
  let pre := mk_preprocessor 22050 30 1 in
  default_target_length pre = Return 661500%Z /\
  frames_z 661500 (hop_length pre) = 1292%Z /\
  stretched_length_z 661500 (11 # 10) = 601364%Z /\
  frames_z 601364 (hop_length pre) = 1175%Z.
Proof. cbv zeta. split_and!; vm_compute; reflexivity. Qed.

(** C1, what the code does at the default configuration (sample rate
    22050, 30 seconds, hop 512, 80 mel bands), with a library that keeps
    librosa's documented shapes: every record of [process_audio_file]
    holds 661500 samples and a feature vector of 124032 entries, but the
    time-stretched variant that [augment_data] appends holds 601364
    samples, and its features, extracted from that signal as it is, make a
    vector of 112800 entries. The batch is ragged: [np.array] refuses it
    and [prepare_dataset] raises. *)
Theorem augmented_vectors_ragged (env : Env) (gcp : GCPConfig) (cfg : Config)
    (file_path : string) (data : ProcessedRecord)
    (added : list ProcessedRecord) (id : string) (w : World) :
  let self := mk_data_processor cfg gcp in
  LibrosaShapes (lib env) ->
  cfg_sample_rate cfg = 22050%Z ->
  cfg_max_duration cfg = 30%Q ->
  process_audio_file (lib env) (preprocessor self) file_path
  = Return (Some data) ->
  returns (effects_time_stretch (lib env) (r_audio_data data) (11 # 10)) ->
  augment_one env self data = Return added ->
  exists stretched,
    added !! 0%nat = Some data /\
    added !! 2%nat = Some stretched /\
    Z.of_nat (length (r_audio_data data)) = 661500%Z /\
    Z.of_nat (length (r_audio_data stretched)) = 601364%Z /\
    Z.of_nat (length (feature_vector data)) = 124032%Z /\
    Z.of_nat (length (feature_vector stretched)) = 112800%Z /\
    np_array_2d (map feature_vector added) = Raise (inhomogeneous 4) /\
    (prepare_dataset env self added id w).1 = Raise (inhomogeneous 4).
Proof.
  intros self shapes Hsr Hmax Hdata Hstretch Hadd.
  assert (Hfixed : default_target_length (preprocessor self)
                   = Return 661500%Z).
  { unfold self, mk_data_processor, mk_preprocessor, default_target_length.
    cbn [preprocessor max_duration sample_rate]. rewrite Hsr, Hmax.
    vm_compute. reflexivity. }
  assert (Hhop : hop_length (preprocessor self) = 512%Z) by done.
  assert (Hmels : n_mels (preprocessor self) = 80%Z) by done.
  assert (F1 : frames (Z.to_nat 661500) 512 = Z.to_nat 1292).
  { rewrite frames_to_nat by lia. f_equal. }
  assert (S1 : stretched_length (Z.to_nat 661500) (11 # 10)
               = Z.to_nat 601364).
  { rewrite stretched_length_to_nat by lia. f_equal. }
  assert (F2 : frames (Z.to_nat 601364) 512 = Z.to_nat 1175).
  { rewrite frames_to_nat by lia. f_equal. }
  destruct (augment_one_ragged env self file_path data added id w 661500
              shapes Hfixed)
    as (stretched & H0 & H2 & L0 & L2 & V0 & V2 & Hraise & Hprep).
  - lia.
  - rewrite Hhop, S1, F1, F2. lia.
  - exact Hdata.
  - exact Hstretch.
  - exact Hadd.
  - rewrite Hhop in V0, V2.
    rewrite Hmels in V0, V2. rewrite S1 in L2, V2.
    rewrite F1 in V0. rewrite F2 in V2.
    exists stretched.
    split; [exact H0|]. split; [exact H2|].
    split; [lia|]. split; [lia|]. split; [lia|]. split; [lia|].
    split; [exact Hraise|exact Hprep].
Qed.

Lemma zeros_shape (rows cols : nat) :
  length (zeros rows cols) = rows /\
  Forall (fun row => length row = cols) (zeros rows cols).
Proof.
  unfold zeros. split; [apply length_replicate|].
  apply Forall_replicate. apply length_replicate.
Qed.

Lemma stub_librosa_shapes (decode : string -> result Signal) :
  LibrosaShapes (stub_librosa decode).
Proof.
  constructor; cbn.
  - intros y sr nfft hop nmels S [= <-]. apply zeros_shape.
  - by intros S S' [= <-].
  - intros y sr n nfft hop C [= <-]. apply zeros_shape.
  - intros y sr hop C [= <-]. apply (zeros_shape 1).
  - intros y sr hop C [= <-]. apply (zeros_shape 1).
  - intros y hop C [= <-]. apply (zeros_shape 1).
  - intros y rate y' [= <-]. unfold resample.
    by rewrite length_map, length_seq.
  - by intros y sr n y' [= <-].
Qed.

(** With the stand-in library a decodable file of valid duration is
    processed to a record. *)
Lemma stub_process_audio_file (decode : string -> result Signal)
    (pre : AudioPreprocessor) (file_path : string) (audio : Signal) (t : Z) :
  decode file_path = Return audio ->
  validate_audio_duration pre audio = Return true ->
  audio <> [] ->
  default_target_length pre = Return t ->
  exists data,
    process_audio_file (stub_librosa decode) pre file_path
    = Return (Some data).
Proof.
  intros Hdec Hval Hne Ht.
  unfold process_audio_file, process_audio_file_body, load_audio.
  cbn [librosa_load stub_librosa]. rewrite Hdec. cbn [rbind rtry].
  rewrite Hval. cbn [rbind negb].
  destruct (normalize_audio_returns audio Hne) as [out ->].
  cbn [rbind].
  rewrite trim_or_pad_audio_default, Ht. cbn [rbind].
  assert (Hfit : exists fitted,
            trim_or_pad_audio pre out (Some t) = Return fitted).
  { unfold trim_or_pad_audio. cbn [rbind].
    destruct (_ >? _)%Z; [by eexists|]. destruct (_ <? _)%Z; by eexists. }
  destruct Hfit as [fitted ->]. cbn [rbind].
  rewrite py_div_nonzero.
  - cbn. by eexists.
  - revert Hval. unfold validate_audio_duration, py_div.
    destruct (Qeq_bool (inject_Z (sample_rate pre)) 0) eqn:E; [done|].
    intros _ H. apply Qeq_bool_neq in E. done.
Qed.

Lemma stub_augment_one (decode : string -> result Signal)
    (self : DataProcessor) (data : ProcessedRecord) :
  exists added,
    augment_one (calm_env (stub_librosa decode)) self data = Return added.
Proof. unfold augment_one. cbn. by eexists. Qed.

Lemma augmented_vectors_ragged_witness :
  let env := calm_env (stub_librosa default_decode) in
  let gcp := mk_gcp_config "p" in
  let self := mk_data_processor default_config gcp in
  exists data added,
    process_audio_file (lib env) (preprocessor self) "a.wav"
    = Return (Some data) /\
    augment_one env self data = Return added /\
    np_array_2d (map feature_vector added) = Raise (inhomogeneous 4).
Proof.
  cbv zeta.
  destruct (stub_process_audio_file default_decode
              (preprocessor (mk_data_processor default_config
                               (mk_gcp_config "p")))
              "a.wav" (replicate (Z.to_nat 661500) (1 # 2)%Q) 661500)
    as [data Hdata].
  { reflexivity. }
  { unfold validate_audio_duration.
    rewrite length_replicate, Z2Nat.id by lia. reflexivity. }
  { intros H. apply (f_equal length) in H.
    rewrite length_replicate in H. cbn [length] in H. lia. }
  { vm_compute. reflexivity. }
  destruct (stub_augment_one default_decode
              (mk_data_processor default_config (mk_gcp_config "p")) data)
    as [added Hadd].
  exists data, added. split; [exact Hdata|]. split; [exact Hadd|].
  destruct (augmented_vectors_ragged
              (calm_env (stub_librosa default_decode)) (mk_gcp_config "p")
              default_config "a.wav" data added "run" empty_world)
    as (_ & _ & _ & _ & _ & _ & _ & H & _).
  - apply stub_librosa_shapes.
  - reflexivity.
  - reflexivity.
  - exact Hdata.
  - eexists. reflexivity.
  - exact Hadd.
  - exact H.
Defined.

(** ** Progress over a pipeline run *)

(** *** What a computation appends to a history *)

Section Histories.
Variable hist : History.

Lemma emits_weaken {A} (m : M A) (P P' : list (string * string * Content) -> Prop) :
  emits hist m P -> (forall d, P d -> P' d) -> emits hist m P'.
Proof. intros H HP w. destruct (H w) as (d & E & Hd). eauto. Qed.

Lemma emits_mret {A} (a : A) (P : list (string * string * Content) -> Prop) :
  P [] -> emits hist (mret a) P.
Proof. intros H w. exists []. by rewrite app_nil_r. Qed.

Lemma emits_mraise {A} (e : exn) (P : list (string * string * Content) -> Prop) :
  P [] -> emits hist (mraise (A := A) e) P.
Proof. intros H w. exists []. by rewrite app_nil_r. Qed.

Lemma emits_lift {A} (r : result A) (P : list (string * string * Content) -> Prop) :
  P [] -> emits hist (lift r) P.
Proof. intros H w. exists []. by rewrite app_nil_r. Qed.

Lemma emits_mbind {A B} (m : M A) (k : A -> M B)
    (P1 P2 P : list (string * string * Content) -> Prop) :
  emits hist m P1 ->
  (forall a, emits hist (k a) P2) ->
  (forall d1, P1 d1 -> P d1) ->
  (forall d1 d2, P1 d1 -> P2 d2 -> P (d1 ++ d2)) ->
  emits hist (mbind m k) P.
Proof.
  intros Hm Hk H1 H12 w. unfold mbind.
  destruct (Hm w) as (d1 & E1 & Hd1).
  destruct (m w) as [[a|e] w1]; cbn [snd] in *.
  - destruct (Hk a w1) as (d2 & E2 & Hd2).
    exists (d1 ++ d2). split; [|by apply H12].
    by rewrite E2, E1, app_assoc.
  - exists d1. split; [done|by apply H1].
Qed.

Lemma emits_mtry {A} (m : M A) (h : exn -> M A)
    (P1 P2 P : list (string * string * Content) -> Prop) :
  emits hist m P1 ->
  (forall e, emits hist (h e) P2) ->
  (forall d1, P1 d1 -> P d1) ->
  (forall d1 d2, P1 d1 -> P2 d2 -> P (d1 ++ d2)) ->
  emits hist (mtry m h) P.
Proof.
  intros Hm Hh H1 H12 w. unfold mtry.
  destruct (Hm w) as (d1 & E1 & Hd1).
  destruct (m w) as [[a|e] w1]; cbn [snd] in *.
  - exists d1. split; [done|by apply H1].
  - destruct (Hh e w1) as (d2 & E2 & Hd2).
    exists (d1 ++ d2). split; [|by apply H12].
    by rewrite E2, E1, app_assoc.
Qed.

(** An external call that leaves the buckets alone appends nothing. *)
Lemma history_bump w : history hist (bump w) = history hist w.
Proof. by destruct hist. Qed.

Lemma history_set_files f w : history hist (set_files f w) = history hist w.
Proof. by destruct hist. Qed.

Lemma emits_external_silent {A} env (op : World -> result A * World) :
  (forall w, history hist (op w).2 = history hist w) ->
  emits hist (external env op) (fun d => d = []).
Proof.
  intros H w. exists []. rewrite app_nil_r. split; [|done].
  unfold external. destruct (fault env (tick w)); [apply history_bump|].
  by rewrite H, history_bump.
Qed.

Lemma emits_write_file env path c :
  emits hist (write_file env path c) (fun d => d = []).
Proof.
  apply emits_external_silent. intros w. apply history_set_files.
Qed.





(** An upload appends at most one blob write, of whatever the file holds. *)
Lemma emits_upload_file env bucket path name :
  emits hist (upload_file env bucket path name)
        (fun d => d = [] \/ exists c, d = [(bucket, name, c)]).
Proof.
  intros w. unfold upload_file, mtry, mbind, blob_upload_from_filename, external.
  destruct (fault env (tick w)).
  - exists []. rewrite app_nil_r. split; [apply history_bump|by left].
  - cbn [bump files]. destruct (files w !! path) as [c|].
    + destruct hist.
      * exists [(bucket, name, c)]. split; [done|]. right. by eexists.
      * exists []. rewrite app_nil_r. split; [done|by left].
    + exists []. rewrite app_nil_r. split; [by destruct hist|by left].
Qed.

(** A status update appends nothing or the one record it was given. *)
Lemma emits_update_status env self id st pr msg md :
  emits hist (update_status env self id st pr msg md)
        (fun d => d = [] \/
           exists bucket name rec,
             d = [(bucket, name, JsonStatus rec)] /\
             pipeline_id rec = id /\ status rec = st /\ progress rec = pr).
Proof.
  intros w. destruct hist; cbn [history].
  - destruct (update_status_cases env self id st pr msg md w)
      as [[_ ->]|[_ (w' & -> & _ & [E|E])]]; cbn [snd uploads].
    + eexists. split; [done|]. right. by do 3 eexists.
    + exists []. rewrite app_nil_r. split; [done|by left].
    + eexists. split; [exact E|]. right. by do 3 eexists.
  - destruct (update_status_cases env self id st pr msg md w)
      as [[_ ->]|[_ (w' & -> & E & _)]]; cbn [snd requests].
    + eexists. split; [done|]. right. by do 3 eexists.
    + eexists. split; [exact E|]. right. by do 3 eexists.
Qed.

(** *** Windows of progress values *)

Lemma non_decreasing_nil : non_decreasing [].
Proof. intros i j x y _ H. by rewrite lookup_nil in H. Qed.

Lemma non_decreasing_singleton (x : Q) : non_decreasing [x].
Proof.
  intros i j a b _ Hi Hj.
  apply list_lookup_singleton_Some in Hi as [_ <-].
  apply list_lookup_singleton_Some in Hj as [_ <-].
  apply Qle_refl.
Qed.

Lemma non_decreasing_app (l1 l2 : list Q) :
  non_decreasing l1 -> non_decreasing l2 ->
  (forall x y, x ∈ l1 -> y ∈ l2 -> (x <= y)%Q) ->
  non_decreasing (l1 ++ l2).
Proof.
  intros H1 H2 H12 i j x y Hij Hi Hj.
  apply lookup_app_Some in Hi as [Hi|[Hi1 Hi2]];
    apply lookup_app_Some in Hj as [Hj|[Hj1 Hj2]].
  - by eapply H1.
  - eapply H12; by eapply list_elem_of_lookup_2.
  - apply lookup_lt_Some in Hj. lia.
  - eapply (H2 (i - length l1)%nat (j - length l1)%nat); [lia|done|done].
Qed.

Lemma window_ok_nil (lo hi : Q) : window_ok lo hi [].
Proof.
  split_and!; [constructor|constructor|apply non_decreasing_nil].
Qed.

Lemma window_ok_app (a b c e : Q) (l1 l2 : list StatusData) :
  window_ok a b l1 -> window_ok c e l2 ->
  (b <= c)%Q -> (a <= c)%Q -> (b <= e)%Q ->
  window_ok a e (l1 ++ l2).
Proof.
  intros (U1 & B1 & S1) (U2 & B2 & S2) Hbc Hac Hbe.
  split_and!.
  - by apply Forall_app.
  - rewrite filter_app. apply Forall_app. split.
    + eapply Forall_impl; [exact B1|]. intros d [? ?]. split; lra.
    + eapply Forall_impl; [exact B2|]. intros d [? ?]. split; lra.
  - rewrite filter_app, map_app. apply non_decreasing_app; [done|done|].
    intros x y Hx Hy.
    apply list_elem_of_fmap in Hx as (d1 & -> & Hd1).
    apply list_elem_of_fmap in Hy as (d2 & -> & Hd2).
    rewrite Forall_forall in B1, B2.
    destruct (B1 _ Hd1) as [_ ?]. destruct (B2 _ Hd2) as [? _]. lra.
Qed.

Lemma window_ok_widen (a b a' b' : Q) (l : list StatusData) :
  window_ok a b l -> (a' <= a)%Q -> (b <= b')%Q -> window_ok a' b' l.
Proof.
  intros (U & B & S) Ha Hb. split_and!; [done| |done].
  eapply Forall_impl; [exact B|]. intros d [? ?]. split; lra.
Qed.

Lemma window_ok_singleton (lo hi : Q) (d : StatusData) :
  in_unit_interval d ->
  (not_failed d = true -> (lo <= progress d)%Q /\ (progress d <= hi)%Q) ->
  window_ok lo hi [d].
Proof.
  intros Hu Hb. split_and!.
  - by constructor.
  - rewrite filter_cons. case_decide; [|constructor].
    rewrite filter_nil. constructor; [auto|constructor].
  - rewrite filter_cons. case_decide; rewrite filter_nil.
    + apply non_decreasing_singleton.
    + apply non_decreasing_nil.
Qed.

(** *** Stages *)

Lemma stage_ok_nil id lo hi : stage_ok id lo hi [].
Proof. split; [constructor|apply window_ok_nil]. Qed.




(** What a status update appends, when its progress fits the window or it
    is marked failed. *)
Lemma stage_ok_update id lo hi st pr d :
  (d = [] \/
   exists bucket name rec,
     d = [(bucket, name, JsonStatus rec)] /\
     pipeline_id rec = id /\ status rec = st /\ progress rec = pr) ->
  (0 <= pr)%Q -> (pr <= 1)%Q ->
  (st = "failed" \/ ((lo <= pr)%Q /\ (pr <= hi)%Q)) ->
  stage_ok id lo hi d.
Proof.
  intros [->|(bucket & name & rec & -> & Hid & Hst & Hpr)] H0 H1 Hw.
  { apply stage_ok_nil. }
  split.
  - constructor; [done|constructor].
  - unfold in_window. rewrite status_writes_own by done.
    apply window_ok_singleton.
    + unfold in_unit_interval. by rewrite Hpr.
    + unfold not_failed. rewrite Hst, Hpr.
      destruct Hw as [->|?]; [done|auto].
Qed.

(** Records of another pipeline do not count for [id]. *)
Lemma only_for_other id id' lo hi d :
  only_for id' d -> id <> id' -> in_window id lo hi d.
Proof.
  intros H Hne. unfold in_window.
  assert (E : status_writes id d = []).
  { induction H as [|[[b n] c] d Hc _ IH]; [done|].
    unfold status_writes. rewrite omap_cons_eq. cbn in *.
    destruct c as [rec| | |]; try exact IH.
    destruct (String.eqb_spec (pipeline_id rec) id) as [E|_]; [|exact IH].
    congruence. }
  rewrite E. apply window_ok_nil.
Qed.



Lemma emits_silent_then {A B} (m : M A) (k : A -> M B)
    (P : list (string * string * Content) -> Prop) :
  emits hist m (fun d => d = []) -> P [] -> (forall a, emits hist (k a) P) ->
  emits hist (mbind m k) P.
Proof.
  intros Hm Hnil Hk.
  eapply emits_mbind; [exact Hm|exact Hk| |].
  - by intros ? ->.
  - by intros ? ? ->.
Qed.




(** *** The progress formula of the loops *)




(** *** The stages of the data pipeline *)


Section Stages.
Variable env : Env.
Variable self : DataProcessor.
Variable id : string.












End Stages.

(** *** The orchestrator *)

Lemma string_app_inj (a b c : string) : a +:+ b = a +:+ c -> b = c.
Proof.
  induction a as [|ch a IH]; [done|].
  change (String ch (a +:+ b) = String ch (a +:+ c) -> b = c).
  intros [= H]. auto.
Qed.

Lemma string_app_empty (a : string) : a +:+ "" = a.
Proof.
  induction a as [|ch a IH]; [done|].
  change (String ch (a +:+ "") = String ch a). by rewrite IH.
Qed.

Lemma string_app_nonempty (a b : string) : b <> "" -> a <> a +:+ b.
Proof.
  intros Hb H. apply Hb. symmetry. apply (string_app_inj a).
  by rewrite string_app_empty.
Qed.

Lemma only_for_silent (id id' : string)
    (d : list (string * string * Content)) :
  only_for id' d -> id <> id' -> status_writes id d = [].
Proof.
  intros H Hne.
  induction H as [|[[b n] c] d Hc _ IH]; [done|].
  unfold status_writes. rewrite omap_cons_eq. cbn in *.
  destruct c as [rec| | |]; try exact IH.
  destruct (String.eqb_spec (pipeline_id rec) id) as [E|_]; [|exact IH].
  congruence.
Qed.

Lemma only_for_app id d1 d2 :
  only_for id d1 -> only_for id d2 -> only_for id (d1 ++ d2).
Proof. intros. by apply Forall_app. Qed.

Lemma top_ok_nil id id' silent lo hi : top_ok id id' silent lo hi [].
Proof.
  split; [apply window_ok_nil|]. destruct silent; [done|apply window_ok_nil].
Qed.

(** The orchestrator's own records. *)
Lemma top_ok_own id id' lo hi a b d :
  stage_ok id a b d -> id' <> id -> (lo <= a)%Q -> (b <= hi)%Q ->
  top_ok id id' true lo hi d.
Proof.
  intros [O W] Hne ? ?. split.
  - by eapply window_ok_widen.
  - by eapply only_for_silent.
Qed.

(** The records of another pipeline. *)
Lemma top_ok_foreign id id' id'' lo hi d :
  only_for id'' d -> id <> id'' -> id' <> id'' ->
  top_ok id id' true lo hi d.
Proof.
  intros O ? ?. split.
  - unfold in_window. rewrite (only_for_silent id id'') by done.
    apply window_ok_nil.
  - by eapply only_for_silent.
Qed.


Lemma top_ok_quiet id id' lo hi d :
  top_ok id id' true lo hi d -> top_ok id id' false lo hi d.
Proof.
  intros [W S]. split; [done|]. unfold in_window. rewrite S.
  apply window_ok_nil.
Qed.

Lemma top_ok_widen id id' silent a b a' b' d :
  top_ok id id' silent a b d -> (a' <= a)%Q -> (b <= b')%Q ->
  top_ok id id' silent a' b' d.
Proof. intros [W S] ? ?. split; [by eapply window_ok_widen|done]. Qed.

Lemma top_ok_app_l id id' silent a b c e d1 d2 :
  top_ok id id' true a b d1 -> top_ok id id' silent c e d2 ->
  (b <= c)%Q -> (a <= c)%Q -> (b <= e)%Q ->
  top_ok id id' silent a e (d1 ++ d2).
Proof.
  intros [W1 S1] [W2 S2] ? ? ?. split.
  - unfold in_window. rewrite status_writes_app. by eapply window_ok_app.
  - unfold in_window in *. destruct silent;
      rewrite status_writes_app, S1; exact S2.
Qed.

Lemma top_ok_app_r id id' silent a b c e d1 d2 :
  top_ok id id' silent a b d1 -> top_ok id id' true c e d2 ->
  (b <= c)%Q -> (a <= c)%Q -> (b <= e)%Q ->
  top_ok id id' silent a e (d1 ++ d2).
Proof.
  intros [W1 S1] [W2 S2] ? ? ?. split.
  - unfold in_window. rewrite status_writes_app. by eapply window_ok_app.
  - unfold in_window in *. destruct silent;
      rewrite status_writes_app, S2, app_nil_r; exact S1.
Qed.

Lemma emits_top_seq_l {A B} (m : M A) (k : A -> M B) id id' silent
    (a b c e : Q) :
  emits hist m (top_ok id id' true a b) ->
  (forall x, emits hist (k x) (top_ok id id' silent c e)) ->
  (b <= c)%Q -> (a <= c)%Q -> (b <= e)%Q ->
  emits hist (mbind m k) (top_ok id id' silent a e).
Proof.
  intros Hm Hk ? ? ?.
  eapply emits_mbind; [exact Hm|exact Hk| |].
  - intros d Hd. destruct silent; [|apply top_ok_quiet];
      (eapply top_ok_widen; [exact Hd|lra|lra]).
  - intros d1 d2 Hd1 Hd2. by eapply top_ok_app_l.
Qed.

Lemma emits_top_seq_r {A B} (m : M A) (k : A -> M B) id id' silent
    (a b c e : Q) :
  emits hist m (top_ok id id' silent a b) ->
  (forall x, emits hist (k x) (top_ok id id' true c e)) ->
  (b <= c)%Q -> (a <= c)%Q -> (b <= e)%Q ->
  emits hist (mbind m k) (top_ok id id' silent a e).
Proof.
  intros Hm Hk ? ? ?.
  eapply emits_mbind; [exact Hm|exact Hk| |].
  - intros d Hd. eapply top_ok_widen; [exact Hd|lra|lra].
  - intros d1 d2 Hd1 Hd2. by eapply top_ok_app_r.
Qed.

(** One status update of the orchestrator, under its own id. *)
Lemma emits_top_update env ps id id' st pr msg md :
  id' <> id -> (0 <= pr)%Q -> (pr <= 1)%Q ->
  emits hist (update_status env ps id st pr msg md) (top_ok id id' true pr pr).
Proof.
  intros Hne ? ?.
  eapply emits_weaken; [apply emits_update_status|].
  intros d Hd. eapply (top_ok_own id id' pr pr pr pr); [|done|lra|lra].
  eapply stage_ok_update; [exact Hd|done|done|].
  right. split; apply Qle_refl.
Qed.

Lemma emits_top_update_ret {A} env ps id id' st pr msg md (x : A) :
  id' <> id -> (0 <= pr)%Q -> (pr <= 1)%Q ->
  emits hist (mbind (update_status env ps id st pr msg md) (fun _ => mret x))
        (top_ok id id' true pr pr).
Proof.
  intros Hne ? ?.
  eapply emits_mbind with (P2 := fun d => d = []);
    [by apply emits_top_update|intros _; by apply emits_mret|done|].
  intros d1 d2 Hd1 ->. by rewrite app_nil_r.
Qed.

Lemma emits_replay_updates env ps id calls :
  emits hist (replay_updates env ps id calls) (only_for id).
Proof.
  induction calls as [|[[st pr] msg] rest IH]; cbn [replay_updates].
  - apply emits_mret. constructor.
  - eapply emits_mbind; [apply emits_update_status|intros _; exact IH| |].
    + intros d [->|(b & n & rec & -> & Hid & _)]; [constructor|].
      constructor; [done|constructor].
    + intros d1 d2 [->|(b & n & rec & -> & Hid & _)] H2; [done|].
      constructor; [done|exact H2].
Qed.

Section Orchestration.
Variable env : Env.
Variable gcp : GCPConfig.
Variable id : string.
Hypothesis completion_length : forall l, length (as_completed env l) = length l.

Local Abbreviation data_id := (id +:+ "-data").
Local Abbreviation training_id := (id +:+ "-training").

Lemma data_id_fresh : id <> data_id.
Proof using Type. by apply string_app_nonempty. Qed.

Lemma training_id_fresh : id <> training_id /\ data_id <> training_id.
Proof using Type.
  split; [by apply string_app_nonempty|].
  intros H. by apply string_app_inj in H.
Qed.


Lemma emits_run_model_training (dataset_path : string) (cfg : Config)
    (lo hi : Q) :
  emits hist (run_model_training env gcp id dataset_path cfg)
        (top_ok id data_id true lo hi).
Proof using Type.
  destruct training_id_fresh as [? ?].
  unfold run_model_training, run_training_pipeline.
  destruct (training_run env dataset_path training_id) as [calls outcome].
  eapply emits_mtry with (P1 := only_for training_id) (P2 := fun d => d = []).
  - eapply emits_mbind with (P2 := fun d => d = []);
      [apply emits_replay_updates|intros _; by apply emits_lift|done|].
    intros d1 d2 Hd1 ->. by rewrite app_nil_r.
  - intros e. by apply emits_mraise.
  - intros d Hd. by eapply top_ok_foreign.
  - intros d1 d2 Hd1 ->. rewrite app_nil_r. by eapply top_ok_foreign.
Qed.


End Orchestration.

End Histories.




(** The same with the storage service at hand and only the clock missing:
    the file is downloaded and processed, a dataset of one sample cannot
    be split, and the updates asked for carry 0.1, 0.1, 0.3, 0.3, 0.85,
    then 0.85 and 0.0 marked failed; none of them is stored. *)
Example pipeline_progress_drops_without_clock :
  let env := without_clock [1; 2; 3]%nat (stub_librosa demo_decode) in
  let self := mk_data_processor single_config (mk_gcp_config "p") in
  let run := data_run_complete_pipeline env self "run" one_file_world in
  run.1 = Raise (ValueError "the resulting train set will be empty") /\
  is_Some (files run.2 !! "/tmp/raw_audio/a.wav") /\
  tick run.2 = 10%nat /\
  status_history "run" run.2 = [] /\
  Forall2 Qeq (map progress (status_requests "run" run.2))
    [1 # 10; 1 # 10; 3 # 10; 3 # 10; 85 # 100; 85 # 100; 0]%Q.
Proof.
  cbv zeta. split_and!.
  - vm_compute. reflexivity.
  - vm_compute. by eexists.
  - vm_compute. reflexivity.
  - vm_compute. reflexivity.
  - vm_compute. repeat constructor.
Qed.

(** The orchestrator does the same: with training failing after the
    dataset step, it asks for 0.0, 0.5, and then 0.0 marked failed. *)
Example orchestrator_progress_drops_on_failure :
  let env := offline_env (stub_librosa demo_decode) in
  let run := run_complete_pipeline env (mk_gcp_config "p") "run"
               demo_config
               {| skip_data_processing := true;
                  existing_dataset_path := Some "gs://data/set.pkl" |}
               empty_world in
  map status (status_requests "run" run.2) = ["running"; "running"; "failed"] /\
  Forall2 Qeq (map progress (status_requests "run" run.2))
    [0; 5 # 10; 0]%Q.
Proof. cbv zeta. split; vm_compute; [reflexivity|repeat constructor]. Qed.

(** * Further properties of the code *)

(** ** fit_length, again *)

(** X1: fitting a signal that already has the target length changes
    nothing, so [trim_or_pad_audio] is idempotent; the samples it keeps are
    the first samples of the input, and everything after the end of the
    input is zero. *)
Theorem trim_or_pad_audio_idempotent (self : AudioPreprocessor)
    (audio : Signal) (n : nat) :
  exists out,
    trim_or_pad_audio self audio (Some (Z.of_nat n)) = Return out /\
    trim_or_pad_audio self out (Some (Z.of_nat n)) = Return out /\
    take (length audio) out = take n audio /\
    Forall (fun x => x = 0%Q) (drop (length audio) out).
Proof.
  eexists. split; [apply trim_or_pad_audio_fit|].
  pose proof (length_fit audio n) as Hlen.
  split_and!.
  - rewrite trim_or_pad_audio_fit, Hlen, Nat.sub_diag, app_nil_r.
    f_equal. apply take_ge. by rewrite Hlen.
  - destruct (Nat.le_gt_cases (length audio) n) as [Hle|Hgt].
    + rewrite (take_ge audio n) by exact Hle. apply take_app_length.
    + replace (n - length audio)%nat with 0%nat by lia.
      rewrite app_nil_r, take_take. f_equal. lia.
  - destruct (Nat.le_gt_cases (length audio) n) as [Hle|Hgt].
    + rewrite (take_ge audio n) by exact Hle. rewrite drop_app_length.
      by apply Forall_replicate.
    + rewrite drop_ge; [constructor|]. rewrite Hlen. lia.
Qed.

(** X2: a negative target is not clamped: the slice [audio[:target]]
    counts from the end, so the last [-target] samples are dropped and the
    result never has the target length. *)
Theorem trim_or_pad_audio_negative_target_drops (self : AudioPreprocessor)
    (audio : Signal) (target : Z) :
  (target < 0)%Z ->
  exists out,
    trim_or_pad_audio self audio (Some target) = Return out /\
    out = take (length audio - Z.to_nat (- target)) audio /\
    Z.of_nat (length out) = Z.max 0 (Z.of_nat (length audio) + target) /\
    Z.of_nat (length out) <> target.
Proof.
  intros Hneg. unfold trim_or_pad_audio. cbn [rbind].
  destruct (Z.gtb_spec (Z.of_nat (length audio)) target); [|lia].
  eexists. split; [reflexivity|].
  unfold py_slice_to. destruct (Z.ltb_spec target 0); [|lia].
  replace (Z.to_nat (Z.of_nat (length audio) + target))
    with (length audio - Z.to_nat (- target))%nat by lia.
  split; [done|]. rewrite length_take. split; lia.
Qed.

Lemma trim_or_pad_audio_negative_target_drops_witness :
  trim_or_pad_audio (mk_preprocessor 4 3 1) [1 # 2; 1 # 3; 1 # 4]%Q
    (Some (-2)%Z)
  = Return (take (3 - Z.to_nat (- (-2))) [1 # 2; 1 # 3; 1 # 4]%Q).
Proof.
  destruct (trim_or_pad_audio_negative_target_drops (mk_preprocessor 4 3 1)
              [1 # 2; 1 # 3; 1 # 4]%Q (-2)%Z) as (out & H & -> & _).
  - lia.
  - exact H.
Defined.

(** ** Duration check *)

(** X3: with a positive sample rate the duration check compares the
    number of samples with the bounds scaled by the rate; with a sample
    rate of zero it raises [ZeroDivisionError]. *)
Theorem validate_audio_duration_bounds (self : AudioPreprocessor)
    (audio : Signal) :
  let len := inject_Z (Z.of_nat (length audio)) in
  let sr := inject_Z (sample_rate self) in
  (sample_rate self = 0%Z ->
   validate_audio_duration self audio
   = Raise (ZeroDivisionError "division by zero")) /\
  ((0 < sample_rate self)%Z ->
   exists ok,
     validate_audio_duration self audio = Return ok /\
     (ok = true <->
      (min_duration self * sr <= len)%Q /\ (len <= max_duration self * sr)%Q)).
Proof.
  cbv zeta. unfold validate_audio_duration, rbind. split.
  - intros ->. reflexivity.
  - intros Hsr.
    assert (Hpos : (0 < inject_Z (sample_rate self))%Q).
    { unfold Qlt. simpl. lia. }
    rewrite py_div_nonzero.
    2:{ intros E. rewrite E in Hpos. by apply Qlt_irrefl in Hpos. }
    eexists. split; [reflexivity|].
    rewrite andb_true_iff, !Qle_bool_iff.
    set (len := inject_Z (Z.of_nat (length audio))) in *.
    set (sr := inject_Z (sample_rate self)) in *.
    assert (E : (len / sr * sr == len)%Q).
    { rewrite Qmult_comm. apply Qmult_div_r. intros E. rewrite E in Hpos.
      by apply Qlt_irrefl in Hpos. }
    split; intros [H1 H2]; split.
    + rewrite <- E. apply Qmult_le_compat_r; [done|by apply Qlt_le_weak].
    + rewrite <- E. apply Qmult_le_compat_r; [done|by apply Qlt_le_weak].
    + by apply Qle_shift_div_l.
    + by apply Qle_shift_div_r.
Qed.

(** ** normalize, again *)

Lemma foldl_Qmax_attained (xs : list Q) (x : Q) :
  (foldl Qmax x xs == x)%Q \/ Exists (fun y => foldl Qmax x xs == y)%Q xs.
Proof.
  revert x. induction xs as [|y ys IH]; intros x; simpl.
  - left. reflexivity.
  - destruct (IH (Qmax x y)) as [E|E].
    + destruct (Q.max_spec x y) as [[_ Hm]|[_ Hm]].
      * right. left. by rewrite E.
      * left. by rewrite E.
    + right. by right.
Qed.

Lemma np_max_attained (a : Signal) (m : Q) :
  np_max a = Return m -> Exists (fun x => m == x)%Q a.
Proof.
  destruct a as [|x xs]; simpl; [done|]. intros [= <-].
  destruct (foldl_Qmax_attained xs x) as [E|E]; [by left|by right].
Qed.

Lemma normalize_audio_scaled (audio : Signal) (peak : Q) :
  np_max (np_abs audio) = Return peak -> (0 < peak)%Q ->
  normalize_audio audio = Return (map (fun x => x / peak)%Q audio).
Proof.
  intros Hm Hpos. unfold normalize_audio. rewrite Hm. simpl.
  apply Qgtb_true in Hpos. by rewrite Hpos.
Qed.

(** X4: a signal that is not silent comes out of [normalize_audio] with a
    peak absolute amplitude of exactly 1, and normalizing the result again
    gives the same signal (sample by sample, as numbers). *)
Theorem normalize_audio_peak_one (audio : Signal) :
  ~ all_zero audio ->
  exists out peak_out again,
    normalize_audio audio = Return out /\
    np_max (np_abs out) = Return peak_out /\
    (peak_out == 1)%Q /\
    normalize_audio out = Return again /\
    Forall2 Qeq again out.
Proof.
  intros Hnz.
  assert (Hne : audio <> []) by (intros ->; apply Hnz; constructor).
  destruct (np_max_nonempty (np_abs audio)) as [m Hm].
  { intros H%np_abs_nil. done. }
  assert (Hup : Forall (fun x => Qabs x <= m)%Q audio).
  { apply np_max_upper in Hm. unfold np_abs in Hm.
    by rewrite Forall_map in Hm. }
  assert (Hpos : (0 < m)%Q).
  { apply Qnot_le_lt. intros Hle. apply Hnz.
    eapply Forall_impl; [exact Hup|]. intros x Hx. cbv beta in Hx.
    assert (H2 : (Qabs x == 0)%Q).
    { apply Qle_antisym; [lra|apply Qabs_nonneg]. }
    revert H2. apply Qabs_case; intros _ E; [done|].
    rewrite <- (Qopp_involutive x), E. reflexivity. }
  assert (Hm0 : ~ (m == 0)%Q) by (intros E; rewrite E in Hpos; lra).
  set (out := map (fun x => x / m)%Q audio).
  assert (Hout : normalize_audio audio = Return out).
  { by apply normalize_audio_scaled. }
  assert (Hb : Forall (fun y => Qabs y <= 1)%Q out).
  { unfold out. rewrite Forall_map.
    eapply Forall_impl; [exact Hup|]. intros x Hx. cbv beta in *.
    unfold Qdiv. rewrite Qabs_Qmult, Qabs_Qinv.
    rewrite (Qabs_pos m) by lra.
    apply Qle_shift_div_r; [done|]. by rewrite Qmult_1_l. }
  destruct (np_max_nonempty (np_abs out)) as [p Hp].
  { intros H%np_abs_nil. unfold out in H. by destruct audio. }
  assert (Hp1 : (p == 1)%Q).
  { apply Qle_antisym.
    - eapply np_max_le; [exact Hp|]. unfold np_abs. by rewrite Forall_map.
    - apply np_max_attained in Hm. unfold np_abs in Hm.
      rewrite Exists_fmap in Hm.
      apply Exists_exists in Hm as (x & Hx & Ex). cbv beta in Ex.
      apply np_max_upper in Hp. rewrite Forall_forall in Hp.
      assert (Hin : Qabs (x / m) ∈ np_abs out).
      { unfold np_abs, out.
        apply list_elem_of_fmap. exists (x / m)%Q. split; [done|].
        apply list_elem_of_fmap. by exists x. }
      apply Hp in Hin.
      assert (E1 : (Qabs (x / m) == 1)%Q).
      { unfold Qdiv. rewrite Qabs_Qmult, Qabs_Qinv, (Qabs_pos m) by lra.
        transitivity (m * / m)%Q; [|by apply Qmult_inv_r].
        apply Qmult_comp; [symmetry; exact Ex|reflexivity]. }
      by rewrite E1 in Hin. }
  exists out, p, (map (fun x => x / p)%Q out).
  split_and!; [done|done|done| |].
  - apply normalize_audio_scaled; [done|]. rewrite Hp1. reflexivity.
  - apply Forall2_fmap_l. apply Forall_Forall2_diag.
    apply Forall_forall. intros y _. cbv beta.
    assert (E : (y / p == y)%Q); [|exact E].
    rewrite Hp1. unfold Qdiv. change (/ 1)%Q with 1%Q. apply Qmult_1_r.
Qed.

Lemma normalize_audio_peak_one_witness :
  exists out peak_out,
    normalize_audio [1 # 2; -3 # 1; 1 # 4]%Q = Return out /\
    np_max (np_abs out) = Return peak_out /\
    (peak_out == 1)%Q.
Proof.
  destruct (normalize_audio_peak_one [1 # 2; -3 # 1; 1 # 4]%Q)
    as (out & p & again & H1 & H2 & H3 & _).
  - intros H. inversion H as [|x l Hx Hl]; subst.
    revert Hx. unfold Qeq. simpl. lia.
  - exists out, p. split; [exact H1|]. split; [exact H2|exact H3].
Defined.

(** ** The record of a processed file *)

Lemma normalize_audio_peak (audio out : Signal) :
  normalize_audio audio = Return out -> peak_at_most 1 out.
Proof.
  unfold normalize_audio, rbind.
  destruct (np_max (np_abs audio)) as [m|e] eqn:Hm; [|done].
  assert (Hup : Forall (fun x => Qabs x <= m)%Q audio).
  { apply np_max_upper in Hm. unfold np_abs in Hm.
    by rewrite Forall_map in Hm. }
  destruct (Qgtb m 0) eqn:Hgt; intros [= <-].
  - apply Qgtb_true in Hgt. unfold peak_at_most. rewrite Forall_map.
    eapply Forall_impl; [exact Hup|]. intros x Hx. cbv beta in *.
    unfold Qdiv. rewrite Qabs_Qmult, Qabs_Qinv.
    rewrite (Qabs_pos m) by lra.
    apply Qle_shift_div_r; [done|]. by rewrite Qmult_1_l.
  - apply Qgtb_false in Hgt.
    eapply Forall_impl; [exact Hup|]. intros x Hx. cbv beta in Hx. lra.
Qed.

Lemma trim_or_pad_audio_peak (self : AudioPreprocessor) (audio : Signal)
    (target : option Z) (bound : Q) (out : Signal) :
  (0 <= bound)%Q -> peak_at_most bound audio ->
  trim_or_pad_audio self audio target = Return out ->
  peak_at_most bound out.
Proof.
  intros Hb Hp. unfold trim_or_pad_audio, rbind.
  destruct (match target with
            | Some t => Return t
            | None => default_target_length self
            end) as [t|e]; [|done].
  destruct (_ >? _)%Z.
  - intros [= <-].
    unfold py_slice_to. destruct (_ <? _)%Z; by apply Forall_take.
  - destruct (_ <? _)%Z; intros [= <-]; [|done].
    unfold np_pad_right. apply Forall_app. split; [done|].
    apply Forall_replicate. by rewrite Qabs_pos.
Qed.

(** X5: every record [process_audio_file] returns carries the path it was
    given and no ['augmented'] key; its signal has the fixed length
    [int(max_duration * sample_rate)], the product being the one the
    doubles give, and a peak of at most 1; and its ['duration'] is the
    length of that framed signal over the sample rate (the fixed duration,
    not the duration of the file). The file it comes from was loaded and
    passed the duration check. *)
Theorem process_audio_file_record (l : Librosa) (self : AudioPreprocessor)
    (file_path : string) (r : ProcessedRecord) :
  process_audio_file l self file_path = Return (Some r) ->
  exists t,
    default_target_length self = Return t /\
    r_file_path r = file_path /\
    r_augmented r = None /\
    peak_at_most 1 (r_audio_data r) /\
    ((0 <= t)%Z ->
     length (r_audio_data r) = Z.to_nat t /\
     py_div (inject_Z t) (inject_Z (r_sample_rate r))
     = Return (r_duration r)) /\
    exists audio,
      load_audio l self file_path = Return (audio, r_sample_rate r) /\
      validate_audio_duration self audio = Return true.
Proof.
  intros Hr.
  destruct (process_audio_file_length _ _ _ _ Hr) as (t & Ht & Hlen).
  exists t. split; [exact Ht|].
  revert Hr. rewrite process_audio_file_by_outcome. unfold file_outcome.
  destruct (load_audio l self file_path) as [[audio sr]|e] eqn:El; [|done].
  destruct (validate_audio_duration self audio) as [[|]|e] eqn:Ev;
    [|done|done].
  destruct (extract_record l self file_path audio sr) as [r'|e] eqn:E; [|done].
  simpl. intros [= ->]. revert E Hlen. unfold extract_record, rbind.
  destruct (normalize_audio audio) as [a|e] eqn:En; [|done].
  destruct (trim_or_pad_audio self a None) as [fitted|e] eqn:Ef; [|done].
  destruct (py_div _ _) as [d|e] eqn:Ed; [|done].
  destruct (extract_mel_spectrogram _ _ _) as [mel|e]; [|done].
  destruct (extract_mfcc _ _ _ _) as [mf|e]; [|done].
  destruct (extract_spectral_features _ _ _) as [spec|e]; [|done].
  intros [= <-]. cbn. intros Hlen.
  split_and!; try done.
  - eapply trim_or_pad_audio_peak; [|by eapply normalize_audio_peak|exact Ef].
    lra.
  - intros Hpos. specialize (Hlen Hpos). split; [exact Hlen|].
    rewrite <- Ed, Hlen, Z2Nat.id by done. done.
  - by exists audio.
Qed.

Lemma process_audio_file_record_witness :
  exists r,
    process_audio_file (stub_librosa demo_decode)
      (mk_preprocessor 4 3 1) "a.wav" = Return (Some r) /\
    length (r_audio_data r) = 12%nat /\
    peak_at_most 1 (r_audio_data r).
Proof.
  destruct (stub_process_audio_file demo_decode (mk_preprocessor 4 3 1)
              "a.wav" (replicate 8 (1 # 2)%Q) 12) as [r Hr];
    [reflexivity|reflexivity|discriminate|vm_compute; reflexivity|].
  destruct (process_audio_file_record (stub_librosa demo_decode)
              (mk_preprocessor 4 3 1) "a.wav" r Hr)
    as (t & Ht & _ & _ & H4 & H5 & _).
  assert (t = 12%Z) as ->.
  { assert (E : default_target_length (mk_preprocessor 4 3 1) = Return 12%Z)
      by (vm_compute; reflexivity).
    rewrite E in Ht. by injection Ht. }
  exists r. split; [exact Hr|]. split; [|exact H4].
  apply H5. lia.
Defined.

(** ** Taking computations apart *)

Lemma mbind_Return_inv {A B} (m : M A) (k : A -> M B) w b w' :
  mbind m k w = (Return b, w') ->
  exists a w1, m w = (Return a, w1) /\ k a w1 = (Return b, w').
Proof.
  unfold mbind. destruct (m w) as [[a|e] w1]; [|done]. by exists a, w1.
Qed.

Lemma mbind_lift_Return_inv {A B} (r : result A) (k : A -> M B) w b w' :
  mbind (lift r) k w = (Return b, w') ->
  exists a, r = Return a /\ k a w = (Return b, w').
Proof.
  intros H. apply mbind_Return_inv in H as (a & w1 & H1 & H2).
  unfold lift in H1. injection H1 as -> <-. by exists a.
Qed.

(** A handler that reports the failure and raises again never turns a
    failure into a result. *)
Lemma mtry_reraise_Return_inv {A} env ps id pr (fmsg : exn -> string)
    (body : M A) w a w' :
  mtry body
    (fun e => mbind (update_status env ps id "failed" pr (fmsg e) None)
                    (fun _ => mraise e)) w = (Return a, w') ->
  body w = (Return a, w').
Proof.
  unfold mtry. destruct (body w) as [[a'|e] w1]; [done|].
  unfold mbind.
  destruct (update_status_returns env ps id "failed" pr (fmsg e) None w1)
    as (b & w2 & ->).
  done.
Qed.

(** ** Augmentation of the dataset *)

Lemma length_add_noise (l : Librosa) (audio : Signal) (level : Q) :
  length (add_noise l audio level) = length audio.
Proof.
  unfold add_noise, np_add, np_random_normal.
  rewrite length_zip_with, length_map, length_seq. lia.
Qed.

Lemma augment_one_four (env : Env) (self : DataProcessor)
    (data : ProcessedRecord) (added : list ProcessedRecord) :
  augment_one env self data = Return added ->
  exists v0 v1 v2, added = [data; v0; v1; v2].
Proof.
  unfold augment_one, augmentations, rbind at 1 2 3.
  destruct (time_stretch _ _ _) as [y1|e]; [|done].
  destruct (pitch_shift _ _ _ _) as [y2|e]; [|done].
  cbn [augmented_records rbind].
  destruct (augmented_record env self data 0 _) as [v0|e]; [|done].
  destruct (augmented_record env self data 1 y1) as [v1|e]; [|done].
  destruct (augmented_record env self data 2 y2) as [v2|e]; [|done].
  cbn [rbind]. intros [= <-]. by exists v0, v1, v2.
Qed.

(** X6: when [augment_one] returns, it returns the record itself followed
    by exactly three variants, in the order noise, time-stretch,
    pitch-shift. Each variant is flagged as augmented, is named after the
    original with the suffix [_aug_0], [_aug_1], [_aug_2], and keeps the
    original's ['duration'] and ['sample_rate'] (also the stretched one,
    whose signal is shorter). The noisy variant has as many samples as the
    original. *)
Theorem augment_one_variants (env : Env) (self : DataProcessor)
    (data : ProcessedRecord) (added : list ProcessedRecord) :
  augment_one env self data = Return added ->
  exists v0 v1 v2,
    added = [data; v0; v1; v2] /\
    r_audio_data v0 = add_noise (lib env) (r_audio_data data) (5 # 1000) /\
    length (r_audio_data v0) = length (r_audio_data data) /\
    time_stretch (lib env) (r_audio_data data) (11 # 10)
    = Return (r_audio_data v1) /\
    pitch_shift (lib env) (augmentation self) (r_audio_data data) 1
    = Return (r_audio_data v2) /\
    Forall2 (fun j v =>
               r_file_path v = r_file_path data +:+ "_aug_" +:+ pretty j /\
               r_augmented v = Some true /\
               r_duration v = r_duration data /\
               r_sample_rate v = r_sample_rate data)
            [0; 1; 2]%nat [v0; v1; v2].
Proof.
  unfold augment_one, augmentations, rbind at 1 2 3.
  destruct (time_stretch _ _ _) as [y1|e] eqn:E1; [|done].
  destruct (pitch_shift _ _ _ _) as [y2|e] eqn:E2; [|done].
  cbn [augmented_records rbind].
  assert (Hrec : forall j y v, augmented_record env self data j y = Return v ->
            r_audio_data v = y /\
            r_file_path v = r_file_path data +:+ "_aug_" +:+ pretty j /\
            r_augmented v = Some true /\
            r_duration v = r_duration data /\
            r_sample_rate v = r_sample_rate data).
  { intros j y v. unfold augmented_record, rbind.
    destruct (extract_mel_spectrogram _ _ _); [|done].
    destruct (extract_mfcc _ _ _ _); [|done].
    destruct (extract_spectral_features _ _ _); [|done].
    by intros [= <-]. }
  destruct (augmented_record env self data 0 _) as [v0|e] eqn:R0; [|done].
  destruct (augmented_record env self data 1 y1) as [v1|e] eqn:R1; [|done].
  destruct (augmented_record env self data 2 y2) as [v2|e] eqn:R2; [|done].
  cbn [rbind]. intros [= <-].
  apply Hrec in R0 as (A0 & P0). apply Hrec in R1 as (A1 & P1).
  apply Hrec in R2 as (A2 & P2).
  exists v0, v1, v2. split_and!; try done.
  - by rewrite A0, length_add_noise.
  - by rewrite A1.
  - by rewrite A2.
  - repeat constructor; tauto.
Qed.

Lemma augment_one_variants_witness :
  exists r added,
    demo_records !! 0%nat = Some r /\
    augment_one (calm_env (stub_librosa demo_decode))
      (mk_data_processor demo_config (mk_gcp_config "p")) r = Return added /\
    length added = 4%nat.
Proof.
  destruct (demo_records !! 0%nat) as [r|] eqn:Er; [|vm_compute in Er; done].
  destruct (stub_augment_one demo_decode
              (mk_data_processor demo_config (mk_gcp_config "p")) r)
    as [added Hadd].
  exists r, added. split; [reflexivity|]. split; [exact Hadd|].
  destruct (augment_one_variants _ _ _ _ Hadd) as (v0 & v1 & v2 & -> & _).
  reflexivity.
Defined.

Lemma augment_loop_returns env self id total todo :
  forall i acc w out w',
    augment_loop env self id total i todo acc w = (Return out, w') ->
    exists groups,
      Forall2 (fun d g => augment_one env self d = Return g) todo groups /\
      out = acc ++ concat groups.
Proof.
  induction todo as [|d rest IH]; intros i acc w out w' H;
    cbn [augment_loop] in H.
  - injection H as <- <-. exists []. split; [constructor|].
    by rewrite app_nil_r.
  - apply mbind_lift_Return_inv in H as (g & Hg & H).
    apply mbind_lift_Return_inv in H as (p & _ & H).
    apply mbind_Return_inv in H as (b & w1 & _ & H).
    apply IH in H as (groups & Hgroups & ->).
    exists (g :: groups). split; [by constructor|].
    cbn [concat]. by rewrite app_assoc.
Qed.

Lemma augment_groups_layout env self (todo : list ProcessedRecord)
    (groups : list (list ProcessedRecord)) :
  Forall2 (fun d g => augment_one env self d = Return g) todo groups ->
  length (concat groups) = (4 * length todo)%nat /\
  forall i, concat groups !! (4 * i)%nat = todo !! i.
Proof.
  induction 1 as [|d g todo groups Hg _ [IH1 IH2]].
  - split; [done|]. intros i. by rewrite !lookup_nil.
  - apply augment_one_four in Hg as (v0 & v1 & v2 & ->).
    cbn [concat length app]. split; [lia|].
    intros [|i]; [done|].
    replace (4 * S i)%nat with (S (S (S (S (4 * i))))) by lia.
    cbn. apply IH2.
Qed.

(** The names and flags of the three copies. *)
Lemma augment_one_named (env : Env) (self : DataProcessor)
    (data : ProcessedRecord) (v0 v1 v2 : ProcessedRecord) :
  augment_one env self data = Return [data; v0; v1; v2] ->
  Forall2 (fun j v =>
             r_file_path v = r_file_path data +:+ "_aug_" +:+ pretty j /\
             r_augmented v = Some true)
          [0; 1; 2]%nat [v0; v1; v2].
Proof.
  unfold augment_one, augmentations, rbind at 1 2 3.
  destruct (time_stretch _ _ _) as [y1|e]; [|done].
  destruct (pitch_shift _ _ _ _) as [y2|e]; [|done].
  cbn [augmented_records rbind].
  assert (Hrec : forall j y v, augmented_record env self data j y = Return v ->
            r_file_path v = r_file_path data +:+ "_aug_" +:+ pretty j /\
            r_augmented v = Some true).
  { intros j y v. unfold augmented_record, rbind.
    destruct (extract_mel_spectrogram _ _ _); [|done].
    destruct (extract_mfcc _ _ _ _); [|done].
    destruct (extract_spectral_features _ _ _); [|done].
    by intros [= <-]. }
  destruct (augmented_record env self data 0 _) as [u0|e] eqn:R0; [|done].
  destruct (augmented_record env self data 1 y1) as [u1|e] eqn:R1; [|done].
  destruct (augmented_record env self data 2 y2) as [u2|e] eqn:R2; [|done].
  cbn [rbind]. intros [= <- <- <-].
  apply Hrec in R0, R1, R2.
  constructor; [exact R0|]. constructor; [exact R1|].
  constructor; [exact R2|]. constructor.
Qed.

(** Where the three copies of the [i]-th record sit. *)
Lemma augment_groups_variants env self (todo : list ProcessedRecord)
    (groups : list (list ProcessedRecord)) :
  Forall2 (fun d g => augment_one env self d = Return g) todo groups ->
  forall i data, todo !! i = Some data ->
    exists v0 v1 v2,
      augment_one env self data = Return [data; v0; v1; v2] /\
      concat groups !! (4 * i + 1)%nat = Some v0 /\
      concat groups !! (4 * i + 2)%nat = Some v1 /\
      concat groups !! (4 * i + 3)%nat = Some v2.
Proof.
  induction 1 as [|d g todo groups Hg _ IH]; intros i data Hi.
  - by rewrite lookup_nil in Hi.
  - destruct (augment_one_four _ _ _ _ Hg) as (v0 & v1 & v2 & ->).
    destruct i as [|i].
    + injection Hi as <-. by exists v0, v1, v2.
    + cbn in Hi. destruct (IH i data Hi) as (u0 & u1 & u2 & Hu & H1 & H2 & H3).
      exists u0, u1, u2. split; [exact Hu|].
      replace (4 * S i + 1)%nat with (S (S (S (S (4 * i + 1))))) by lia.
      replace (4 * S i + 2)%nat with (S (S (S (S (4 * i + 2))))) by lia.
      replace (4 * S i + 3)%nat with (S (S (S (S (4 * i + 3))))) by lia.
      cbn [concat app]. by rewrite !lookup_cons.
Qed.

(** X7: when [augment_data] returns with augmentation disabled
    (['enabled'] present and false) it hands back its input and touches
    nothing, not even the status record. Otherwise (also when the key is
    absent) the result is four times as long as the input, and the [i]-th
    input record sits at position [4 * i], followed at positions
    [4 * i + 1], [4 * i + 2] and [4 * i + 3] by the three copies that
    [augment_one] makes of it, in that order; the copies are named after
    the record with the suffixes [_aug_0], [_aug_1], [_aug_2] and are
    flagged as augmented. *)
Theorem augment_data_fan_out (env : Env) (self : DataProcessor)
    (processed : list ProcessedRecord) (id : string) (w w' : World)
    (out : list ProcessedRecord) :
  augment_data env self processed id w = (Return out, w') ->
  if default true (augmentation_enabled (config self))
  then length out = (4 * length processed)%nat /\
       (forall i, out !! (4 * i)%nat = processed !! i) /\
       forall i data, processed !! i = Some data ->
         exists v0 v1 v2,
           augment_one env self data = Return [data; v0; v1; v2] /\
           out !! (4 * i + 1)%nat = Some v0 /\
           out !! (4 * i + 2)%nat = Some v1 /\
           out !! (4 * i + 3)%nat = Some v2 /\
           Forall2 (fun j v =>
                      r_file_path v
                      = r_file_path data +:+ "_aug_" +:+ pretty j /\
                      r_augmented v = Some true)
                   [0; 1; 2]%nat [v0; v1; v2]
  else out = processed /\ w' = w.
Proof.
  unfold augment_data. intros H.
  apply mtry_reraise_Return_inv in H.
  destruct (default true (augmentation_enabled (config self))); cbn [negb] in H.
  - apply mbind_Return_inv in H as (b & w1 & _ & H).
    apply augment_loop_returns in H as (groups & Hgroups & ->).
    rewrite app_nil_l.
    destruct (augment_groups_layout _ _ _ _ Hgroups) as [Hlen Hat].
    split; [exact Hlen|]. split; [exact Hat|].
    intros i data Hi.
    destruct (augment_groups_variants _ _ _ _ Hgroups i data Hi)
      as (v0 & v1 & v2 & Hone & H1 & H2 & H3).
    exists v0, v1, v2. split_and!; try done.
    by apply augment_one_named in Hone.
  - unfold mret in H. by injection H as <- <-.
Qed.

Lemma augment_data_fan_out_witness :
  exists out w',
    augment_data (calm_env (stub_librosa demo_decode))
      (mk_data_processor demo_config (mk_gcp_config "p"))
      demo_records "run" empty_world = (Return out, w') /\
    length out = 8%nat /\ out !! 4%nat = demo_records !! 1%nat /\
    exists data v,
      demo_records !! 1%nat = Some data /\ out !! 5%nat = Some v /\
      r_file_path v = r_file_path data +:+ "_aug_0" /\
      r_augmented v = Some true.
Proof.
  destruct (augment_data (calm_env (stub_librosa demo_decode))
              (mk_data_processor demo_config (mk_gcp_config "p"))
              demo_records "run" empty_world) as [[out|e] w'] eqn:E;
    [|vm_compute in E; discriminate E].
  exists out, w'. split; [reflexivity|].
  pose proof (augment_data_fan_out _ _ _ _ _ _ _ E) as (Hlen & Hat & Hvar).
  split; [exact Hlen|]. split; [exact (Hat 1%nat)|].
  destruct (demo_records !! 1%nat) as [data|] eqn:Ed;
    [|vm_compute in Ed; discriminate Ed].
  destruct (Hvar 1%nat data Ed) as (v0 & v1 & v2 & _ & H1 & _ & _ & Hn).
  exists data, v0. split; [reflexivity|]. split; [exact H1|].
  inversion Hn as [|? ? ? ? Hv0 _]. exact Hv0.
Defined.

(** ** Assembling the dataset *)

Lemma remove_dups_replicate (x : string) (n : nat) :
  remove_dups (replicate (S n) x) = [x].
Proof.
  induction n as [|n IH].
  - cbn. case_decide as H; [by apply elem_of_nil in H|done].
  - change (replicate (S (S n)) x) with (x :: replicate (S n) x).
    cbn [remove_dups]. case_decide as H; [exact IH|].
    exfalso. apply H. cbn. left.
Qed.

Lemma np_array_2d_Return_inv (rows : list (list Q)) (a : Matrix) :
  np_array_2d rows = Return a ->
  a = rows /\
  forall r, rows !! 0%nat = Some r -> Forall (fun r' => length r' = length r) rows.
Proof.
  destruct rows as [|r rest]; cbn [np_array_2d].
  - intros [= <-]. split; [done|]. intros r. by rewrite lookup_nil.
  - destruct (forallb _ rest) eqn:E; [|done]. intros [= <-]. split; [done|].
    intros r0 [= <-]. constructor; [done|].
    apply Forall_forall. intros r' Hr'.
    rewrite forallb_forall in E. apply Nat.eqb_eq, E.
    by apply list_elem_of_In.
Qed.

(** X8: if [prepare_dataset] returns a dataset, the batch was not empty
    and all its feature vectors have one length, which is the recorded
    [feature_dim]; [total_samples] is the number of records; the split is
    what [train_test_split] made of the scaled vectors with every label
    equal to ["default_label"], so [num_classes] is 1; and the training
    and validation counts are the sizes of the two parts of that split. *)
Theorem prepare_dataset_stats (env : Env) (self : DataProcessor)
    (processed : list ProcessedRecord) (id : string) (w w' : World)
    (ds : Dataset) :
  prepare_dataset env self processed id w = (Return ds, w') ->
  (exists first, processed !! 0%nat = Some first /\
     feature_dim (dataset_stats ds) = length (feature_vector first) /\
     Forall (fun r => length (feature_vector r) = length (feature_vector first))
            processed) /\
  total_samples (dataset_stats ds) = length processed /\
  num_classes (dataset_stats ds) = 1%nat /\
  training_samples (dataset_stats ds) = length (X_train (split ds)) /\
  validation_samples (dataset_stats ds) = length (X_val (split ds)) /\
  exists normalized,
    scaler_fit_transform env (map feature_vector processed)
    = Return (scaler ds, normalized) /\
    train_test_split env normalized
      (replicate (length processed) "default_label")
      (map record_metadata processed) (validation_split (config self))
    = Return (split ds).
Proof.
  unfold prepare_dataset. intros H.
  apply mtry_reraise_Return_inv in H.
  apply mbind_Return_inv in H as (b & w1 & _ & H).
  cbv zeta in H.
  apply mbind_lift_Return_inv in H as (features & Hf & H).
  apply np_array_2d_Return_inv in Hf as [-> Hrows].
  apply mbind_lift_Return_inv in H as ([sc normalized] & Hfit & H).
  apply mbind_lift_Return_inv in H as (parts & Hsplit & H).
  apply mbind_lift_Return_inv in H as (dim & Hdim & H).
  unfold mret in H. injection H as <- <-. cbn.
  assert (Hlabels : map (fun data => _extract_label_from_filename
                                       (r_file_path data)) processed
                    = replicate (length processed) "default_label").
  { clear. induction processed as [|r rest IH]; [done|].
    cbn. by rewrite IH. }
  destruct processed as [|first rest]; [done|].
  split_and!.
  - exists first. split; [done|]. cbn in Hdim. injection Hdim as <-.
    split; [done|].
    specialize (Hrows _ eq_refl). by apply Forall_map in Hrows.
  - by rewrite length_map.
  - rewrite Hlabels. apply (f_equal length (remove_dups_replicate _ _)).
  - done.
  - done.
  - exists normalized. split; [done|]. by rewrite <- Hlabels.
Qed.

Lemma prepare_dataset_stats_witness :
  exists ds w',
    prepare_dataset (calm_env (stub_librosa demo_decode))
      (mk_data_processor demo_config (mk_gcp_config "p"))
      demo_records "run" empty_world = (Return ds, w') /\
    total_samples (dataset_stats ds) = 2%nat /\
    num_classes (dataset_stats ds) = 1%nat.
Proof.
  destruct (prepare_dataset (calm_env (stub_librosa demo_decode))
              (mk_data_processor demo_config (mk_gcp_config "p"))
              demo_records "run" empty_world) as [[ds|e] w'] eqn:E;
    [|vm_compute in E; discriminate E].
  exists ds, w'. split; [reflexivity|].
  pose proof (prepare_dataset_stats _ _ _ _ _ _ _ E) as (_ & Ht & Hc & _).
  split; [exact Ht | exact Hc].
Defined.

(** ** The storage manager *)

Lemma write_file_ok env path c w :
  fault env (tick w) = None ->
  write_file env path c w
  = (Return tt, set_files (<[path := c]> (files w)) (bump w)).
Proof. intros F. unfold write_file. by rewrite external_ok. Qed.

Lemma os_remove_ok env path c w :
  fault env (tick w) = None -> files w !! path = Some c ->
  os_remove env path w
  = (Return tt, set_files (delete path (files w)) (bump w)).
Proof.
  intros F Hc. unfold os_remove. rewrite external_ok by done.
  cbn [bump files]. by rewrite Hc.
Qed.

Lemma upload_file_ok env bucket src name c w :
  fault env (tick w) = None -> files w !! src = Some c ->
  upload_file env bucket src name w
  = (Return ("gs://" +:+ bucket +:+ "/" +:+ name),
     put_blob bucket name c (bump w)).
Proof.
  intros F Hc. unfold upload_file, mtry, mbind, blob_upload_from_filename.
  rewrite external_ok by done. cbn [bump files]. by rewrite Hc.
Qed.

Lemma upload_file_raises env bucket src name w :
  fault env (tick w) <> None \/ files w !! src = None ->
  exists e, upload_file env bucket src name w = (Raise e, bump w).
Proof.
  intros H. unfold upload_file, mtry, mbind, blob_upload_from_filename.
  destruct (fault env (tick w)) as [e|] eqn:F.
  - exists e. by rewrite (external_fault _ _ _ _ F).
  - destruct H as [H|H]; [done|]. rewrite external_ok by done.
    cbn [bump files]. rewrite H. by eexists.
Qed.

Lemma download_file_ok env bucket name dst c w :
  fault env (tick w) = None -> blobs w !! (bucket, name) = Some c ->
  download_file env bucket name dst w
  = (Return dst, set_files (<[dst := c]> (files w)) (bump w)).
Proof.
  intros F Hc. unfold download_file, mtry, mbind, blob_download_to_filename.
  rewrite F. cbn [bump blobs]. by rewrite Hc.
Qed.

(** A download that fails changes at most its destination. *)
Lemma download_file_raises env bucket name dst w :
  fault env (tick w) <> None \/ blobs w !! (bucket, name) = None ->
  exists e w',
    download_file env bucket name dst w = (Raise e, w') /\
    tick w' = S (tick w) /\ blobs w' = blobs w /\
    uploads w' = uploads w /\ requests w' = requests w /\
    forall p, p <> dst -> files w' !! p = files w !! p.
Proof.
  intros H. unfold download_file, mtry, mbind, blob_download_to_filename.
  assert (Hother : forall p, p <> dst ->
            partial_alter (download_leftover env (tick w)) dst (files w) !! p
            = files w !! p).
  { intros p Hp. by apply lookup_partial_alter_ne. }
  destruct (fault env (tick w)) as [e|] eqn:F.
  - exists e. eexists. split; [reflexivity|]. by split_and!.
  - destruct H as [H|H]; [done|].
    cbn [bump blobs]. rewrite H. do 2 eexists. split; [reflexivity|].
    by split_and!.
Qed.

Lemma calls_succeed_head env t n :
  calls_succeed env t (S n) -> fault env t = None.
Proof. intros H. specialize (H 0%nat ltac:(lia)). by rewrite Nat.add_0_r in H. Qed.

Lemma calls_succeed_tail env t n :
  calls_succeed env t (S n) -> calls_succeed env (S t) n.
Proof.
  intros H i Hi. specialize (H (S i) ltac:(lia)).
  by rewrite Nat.add_succ_r in H.
Qed.

(** X9: a file that [upload_file] stored comes back unchanged with
    [download_file]. When the two calls go through, the upload returns the
    [gs://bucket/name] address, the download returns the local path it
    was given, the local file then holds what the source file held, and no
    other blob and no other local file is changed. *)
Theorem upload_download_round_trip (env : Env)
    (bucket src name dst : string) (c : Content) (w : World) :
  calls_succeed env (tick w) 2 ->
  files w !! src = Some c ->
  exists w1 w2,
    upload_file env bucket src name w
    = (Return ("gs://" +:+ bucket +:+ "/" +:+ name), w1) /\
    download_file env bucket name dst w1 = (Return dst, w2) /\
    files w2 !! dst = Some c /\
    blobs w2 !! (bucket, name) = Some c /\
    (forall p, p <> dst -> files w2 !! p = files w !! p) /\
    (forall k, k <> (bucket, name) -> blobs w2 !! k = blobs w !! k).
Proof.
  intros Hcalls Hsrc.
  pose proof (calls_succeed_head _ _ _ Hcalls) as F0.
  pose proof (calls_succeed_head _ _ _ (calls_succeed_tail _ _ _ Hcalls)) as F1.
  do 2 eexists. split; [by apply upload_file_ok|].
  split.
  { apply download_file_ok; [exact F1|]. cbn. apply lookup_insert_eq. }
  cbn. split_and!.
  - apply lookup_insert_eq.
  - apply lookup_insert_eq.
  - intros p Hp. by apply lookup_insert_ne.
  - intros k Hk. by apply lookup_insert_ne.
Qed.

Lemma upload_download_round_trip_witness :
  let env := calm_env (stub_librosa demo_decode) in
  let w := set_files {[ "/tmp/a.bin" := Bytes "abc" ]} empty_world in
  exists w1 w2,
    upload_file env "b" "/tmp/a.bin" "x/a.bin" w
    = (Return "gs://b/x/a.bin", w1) /\
    download_file env "b" "x/a.bin" "/tmp/copy.bin" w1
    = (Return "/tmp/copy.bin", w2) /\
    files w2 !! "/tmp/copy.bin" = Some (Bytes "abc").
Proof.
  intros env w.
  destruct (upload_download_round_trip env "b" "/tmp/a.bin" "x/a.bin"
              "/tmp/copy.bin" (Bytes "abc") w)
    as (w1 & w2 & H1 & H2 & H3 & _).
  - intros i Hi. reflexivity.
  - reflexivity.
  - exists w1, w2. split; [exact H1|]. split; [exact H2|exact H3].
Defined.

Lemma NoDup_omap_keys {K A B} (f : K * A -> option B) (l : list (K * A)) :
  NoDup l.*1 ->
  (forall x y b, x ∈ l -> y ∈ l -> f x = Some b -> f y = Some b -> x.1 = y.1) ->
  NoDup (omap f l).
Proof.
  induction l as [|x l IH]; intros Hnd Hinj; [constructor|].
  cbn in Hnd. apply NoDup_cons in Hnd as [Hx Hnd].
  change (omap f (x :: l))
    with (match f x with Some y => y :: omap f l | None => omap f l end).
  destruct (f x) as [b|] eqn:Efx.
  - apply NoDup_cons. split.
    + rewrite list_elem_of_omap. intros (y & Hy & Efy).
      apply Hx. apply list_elem_of_fmap. exists y. split; [|done].
      apply (Hinj x y b); [left|by right|done|done].
    + apply IH; [done|]. intros y z b' Hy Hz. apply Hinj; by right.
  - apply IH; [done|]. intros y z b' Hy Hz. apply Hinj; by right.
Qed.

(** The names [bucket.list_blobs(prefix=prefix)] yields. *)
Local Abbreviation blob_names := (fun (bucket prefix : string)
    (m : gmap (string * string) Content) =>
  omap (fun kv : string * string * Content =>
          let '(b, name, _) := kv in
          if String.eqb b bucket && String.prefix prefix name
          then Some name else None)
       (map_to_list m)).

Lemma list_files_ok env bucket prefix w :
  fault env (tick w) = None ->
  list_files env bucket prefix w
  = (Return (blob_names bucket prefix (blobs w)), bump w).
Proof.
  intros F. unfold list_files, mtry, bucket_list_blobs.
  by rewrite external_ok.
Qed.

Lemma blob_names_spec (bucket prefix : string)
    (m : gmap (string * string) Content) :
  NoDup (blob_names bucket prefix m) /\
  forall name,
    name ∈ blob_names bucket prefix m <->
    is_Some (m !! (bucket, name)) /\ String.prefix prefix name = true.
Proof.
  split.
  - apply NoDup_omap_keys; [apply NoDup_fst_map_to_list|].
    intros [[b1 n1] c1] [[b2 n2] c2] n _ _. cbn.
    destruct (String.eqb b1 bucket && String.prefix prefix n1) eqn:E1; [|done].
    destruct (String.eqb b2 bucket && String.prefix prefix n2) eqn:E2; [|done].
    apply andb_true_iff in E1 as [E1 _]. apply andb_true_iff in E2 as [E2 _].
    apply String.eqb_eq in E1, E2. by intros [= ->] [= ->]; subst.
  - intros name. rewrite list_elem_of_omap. split.
    + intros ([[b n] c] & Hin & Hf).
      apply elem_of_map_to_list in Hin.
      destruct (String.eqb b bucket && String.prefix prefix n) eqn:E; [|done].
      injection Hf as ->. apply andb_true_iff in E as [E1 E2].
      apply String.eqb_eq in E1 as ->. split; [by eexists|done].
    + intros [[c Hc] Hp]. exists (bucket, name, c). split.
      * by apply elem_of_map_to_list.
      * by rewrite String.eqb_refl, Hp.
Qed.

(** X11: when the listing call goes through, [list_files] returns each
    blob name of the bucket that starts with the prefix exactly once, and
    nothing else: no name of another bucket and no name without the
    prefix. The world is left as it was. *)
Theorem list_files_lists_bucket (env : Env) (bucket prefix : string)
    (w : World) :
  fault env (tick w) = None ->
  exists names,
    list_files env bucket prefix w = (Return names, bump w) /\
    NoDup names /\
    forall name,
      name ∈ names <->
      is_Some (blobs w !! (bucket, name)) /\ String.prefix prefix name = true.
Proof.
  intros F. eexists. split; [by apply list_files_ok|].
  apply blob_names_spec.
Qed.

Lemma list_files_lists_bucket_witness :
  exists names,
    list_files (calm_env (stub_librosa demo_decode))
      (raw_data (buckets (mk_gcp_config "p"))) "" one_file_world
    = (Return names, bump one_file_world) /\
    "a.wav" ∈ names.
Proof.
  destruct (list_files_lists_bucket (calm_env (stub_librosa demo_decode))
              (raw_data (buckets (mk_gcp_config "p"))) "" one_file_world
              eq_refl) as (names & H & _ & Hin).
  exists names. split; [exact H|]. apply Hin. split; [|reflexivity].
  exists (Bytes "RIFF"). reflexivity.
Defined.

(** X12: [delete_file] never raises. It returns [True] exactly when the
    call goes through and the blob existed, and then that blob, and only
    that blob, is gone; when it returns [False] (the blob is missing, or
    the call failed) every bucket is as it was. Local files are never
    touched. *)
Theorem delete_file_outcome (env : Env) (bucket name : string) (w : World) :
  exists b w',
    delete_file env bucket name w = (Return b, w') /\
    (b = true <->
     fault env (tick w) = None /\ is_Some (blobs w !! (bucket, name))) /\
    blobs w' = (if b then delete (bucket, name) (blobs w) else blobs w) /\
    files w' = files w.
Proof.
  unfold delete_file, mtry, mbind, blob_delete.
  destruct (fault env (tick w)) as [e|] eqn:F.
  - rewrite (external_fault _ _ _ _ F). exists false, (bump w).
    split; [done|]. split; [|done]. split; [done|]. by intros [? _].
  - rewrite external_ok by done. cbn [bump blobs].
    destruct (blobs w !! (bucket, name)) as [c|] eqn:E.
    + exists true. eexists. split; [reflexivity|]. split; [|done].
      split; [|done]. intros _. split; [done|by eexists].
    + exists false. eexists. split; [reflexivity|]. split; [|done].
      split; [done|]. intros [_ [? ?]]. done.
Qed.

(** ** Reading the status back *)

Lemma json_load_ok env path c w :
  fault env (tick w) = None -> files w !! path = Some c ->
  json_load env path w = (json_document env c, bump w).
Proof.
  intros F Hd. unfold json_load. rewrite external_ok by done.
  cbn [bump files]. by rewrite Hd.
Qed.

Lemma get_status_ok env self id d w :
  calls_succeed env (tick w) 3 ->
  blobs w !! (status_bucket self, status_blob_name self id)
  = Some (JsonStatus d) ->
  get_status env self id w
  = (Return (Some (DocStatus d)),
     {| tick := tick w + 3;
        files := delete (status_file_path id)
                   (<[status_file_path id := JsonStatus d]> (files w));
        blobs := blobs w;
        uploads := uploads w;
        requests := requests w |}).
Proof.
  intros Hcalls Hd.
  pose proof (calls_succeed_head _ _ _ Hcalls) as F0.
  apply calls_succeed_tail in Hcalls.
  pose proof (calls_succeed_head _ _ _ Hcalls) as F1.
  apply calls_succeed_tail in Hcalls.
  pose proof (calls_succeed_head _ _ _ Hcalls) as F2.
  unfold get_status, mtry, mbind.
  rewrite (download_file_ok _ _ _ _ (JsonStatus d)) by done.
  rewrite (json_load_ok _ _ (JsonStatus d)) by (done || apply lookup_insert_eq).
  cbn [json_document].
  rewrite (os_remove_ok _ _ (JsonStatus d)) by (done || apply lookup_insert_eq).
  unfold mret, set_files, bump. cbn. do 2 f_equal. lia.
Qed.

(** What [get_status] returns is [None] or the document of the status
    blob. *)
Lemma get_status_cases env self id w :
  exists r w',
    get_status env self id w = (Return r, w') /\
    blobs w' = blobs w /\ uploads w' = uploads w /\
    (r = None \/
     exists c doc,
       blobs w !! (status_bucket self, status_blob_name self id) = Some c /\
       json_document env c = Return doc /\ r = optional doc).
Proof.
  unfold get_status, mtry, mbind.
  destruct (fault env (tick w)) as [e0|] eqn:F0.
  { destruct (download_file_raises env (status_bucket self)
                (status_blob_name self id) (status_file_path id) w)
      as (e' & w' & -> & _ & Hb & Hu & _); [left; congruence|].
    exists None, w'. split_and!; try done. by left. }
  destruct (blobs w !! (status_bucket self, status_blob_name self id))
    as [c|] eqn:Hc; cycle 1.
  { destruct (download_file_raises env (status_bucket self)
                (status_blob_name self id) (status_file_path id) w)
      as (e' & w' & -> & _ & Hb & Hu & _); [by right|].
    exists None, w'. split_and!; try done. by left. }
  rewrite (download_file_ok _ _ _ _ c) by done.
  unfold json_load.
  destruct (fault env (tick (set_files
              (<[status_file_path id := c]> (files w)) (bump w))))
    as [e1|] eqn:F1.
  { rewrite (external_fault _ _ _ _ F1). exists None. eexists.
    split; [reflexivity|]. split_and!; try done. by left. }
  rewrite external_ok by done. cbn [bump files set_files].
  rewrite lookup_insert_eq.
  destruct (json_document env c) as [doc|e] eqn:Edoc; cycle 1.
  { exists None. eexists. split; [reflexivity|]. split_and!; try done.
    by left. }
  unfold os_remove. cbn [tick set_files bump].
  destruct (fault env (S (S (tick w)))) as [e2|] eqn:F2.
  { rewrite external_fault with (e := e2) by done. exists None. eexists.
    split; [reflexivity|]. split_and!; try done. by left. }
  rewrite external_ok by done. cbn [bump files set_files].
  rewrite lookup_insert_eq. exists (optional doc). eexists.
  split; [reflexivity|]. split_and!; try done.
  right. by exists c, doc.
Qed.

Lemma json_document_status env c d :
  json_document env c = Return (DocStatus d) -> c = JsonStatus d.
Proof.
  destruct c as [d'|s|p|b]; cbn; try done.
  - by intros [= ->].
  - destruct (json_loads env b); done.
Qed.

Lemma json_document_stats env c s :
  json_document env c = Return (DocStats s) -> c = JsonStats s.
Proof.
  destruct c as [d'|s'|p|b]; cbn; try done.
  - by intros [= ->].
  - destruct (json_loads env b); done.
Qed.

Lemma optional_Some (doc doc' : JsonDoc) :
  optional doc = Some doc' -> doc = doc'.
Proof. destruct doc as [| |[]]; cbn; congruence. Qed.

(** X13: [get_status] never raises and never writes to a bucket. What it
    returns, if not [None], is the JSON document held by the pipeline's
    status blob: a record it returns is the content of that blob. When the
    blob is missing it returns [None]. When its three external calls go
    through and the blob holds a status record, it returns that record and
    removes its temporary file. *)
Theorem get_status_reads_blob (env : Env) (self : PipelineStatus)
    (id : string) (w : World) :
  let key := (status_bucket self, status_blob_name self id) in
  exists r w',
    get_status env self id w = (Return r, w') /\
    blobs w' = blobs w /\ uploads w' = uploads w /\
    (forall doc, r = Some doc ->
                 exists c, blobs w !! key = Some c /\
                           json_document env c = Return doc) /\
    (forall d, r = Some (DocStatus d) ->
               blobs w !! key = Some (JsonStatus d)) /\
    (forall s, r = Some (DocStats s) ->
               blobs w !! key = Some (JsonStats s)) /\
    (blobs w !! key = None -> r = None) /\
    (forall d, calls_succeed env (tick w) 3 ->
               blobs w !! key = Some (JsonStatus d) ->
               r = Some (DocStatus d) /\
               files w' !! status_file_path id = None).
Proof.
  intros key.
  destruct (get_status_cases env self id w) as (r & w' & E & Hb & Hu & Hr).
  exists r, w'. split; [exact E|]. split; [exact Hb|]. split; [exact Hu|].
  split_and!.
  - intros doc' ->. destruct Hr as [|(c & doc & Hc & Hdoc & Hopt)]; [done|].
    symmetry in Hopt. apply optional_Some in Hopt as ->.
    by exists c.
  - intros d ->. destruct Hr as [|(c & doc & Hc & Hdoc & Hopt)]; [done|].
    symmetry in Hopt. apply optional_Some in Hopt as ->.
    apply json_document_status in Hdoc as ->. exact Hc.
  - intros s ->. destruct Hr as [|(c & doc & Hc & Hdoc & Hopt)]; [done|].
    symmetry in Hopt. apply optional_Some in Hopt as ->.
    apply json_document_stats in Hdoc as ->. exact Hc.
  - intros Hnone. destruct Hr as [|(c & doc & Hc & _)]; [done|].
    fold key in Hc. congruence.
  - intros d Hcalls Hd.
    rewrite (get_status_ok env self id d w Hcalls Hd) in E.
    injection E as <- <-. split; [done|]. cbn. apply lookup_delete_eq.
Qed.

(** X14: [get_status] returns what [update_status] wrote. When the seven
    external calls of the two operations go through, the update returns
    [True] and the read that follows returns the record of that update:
    the given id, status, progress and message, with the metadata (empty
    when none was given) and the time of the update. *)
Theorem get_status_after_update_status (env : Env) (self : PipelineStatus)
    (id st : string) (pr : Q) (msg : string)
    (md : option (gmap string JsonValue)) (w : World) :
  calls_succeed env (tick w) 7 ->
  exists w1 w2,
    update_status env self id st pr msg md w = (Return true, w1) /\
    get_status env self id w1
    = (Return (Some (DocStatus
                       {| pipeline_id := id; status := st; progress := pr;
                          message := msg; timestamp := clock env (S (tick w));
                          metadata := default ∅ md |})), w2) /\
    blobs w2 = blobs w1 /\
    files w2 !! status_file_path id = None.
Proof.
  intros Hcalls.
  rewrite (update_status_ok env self id st pr msg md w)
    by (eapply calls_succeed_weaken; [exact Hcalls|lia]).
  do 2 eexists. split; [reflexivity|].
  rewrite (get_status_ok env self id (status_record env w id st pr msg md)).
  - split; [reflexivity|]. cbn. split; [done|]. apply lookup_delete_eq.
  - cbn [tick]. apply (calls_succeed_shift _ _ 7); [done|lia].
  - cbn [blobs]. apply lookup_insert_eq.
Qed.

Lemma get_status_after_update_status_witness :
  exists w1 w2,
    update_status (calm_env (stub_librosa demo_decode))
      (mk_pipeline_status (mk_gcp_config "p")) "run" "running" (1 # 2)
      "half way" None empty_world = (Return true, w1) /\
    get_status (calm_env (stub_librosa demo_decode))
      (mk_pipeline_status (mk_gcp_config "p")) "run" w1
    = (Return (Some (DocStatus
                       {| pipeline_id := "run"; status := "running";
                          progress := 1 # 2; message := "half way";
                          timestamp := "t1"; metadata := ∅ |})), w2).
Proof.
  destruct (get_status_after_update_status
              (calm_env (stub_librosa demo_decode))
              (mk_pipeline_status (mk_gcp_config "p")) "run" "running"
              (1 # 2) "half way" None empty_world)
    as (w1 & w2 & H1 & H2 & _).
  - intros i Hi. reflexivity.
  - exists w1, w2. split; [exact H1|exact H2].
Defined.

(** X15: the status record can be stored although [update_status]
    reports failure. When the clock, the write of the temporary file and
    the upload go through and only the removal of the temporary file
    fails, the call returns [False], yet the bucket holds the new record
    and the temporary file is still on the disk. *)
Theorem update_status_cleanup_failure (env : Env) (self : PipelineStatus)
    (id st : string) (pr : Q) (msg : string)
    (md : option (gmap string JsonValue)) (w : World) (e : exn) :
  calls_succeed env (tick w) 3 ->
  fault env (tick w + 3) = Some e ->
  exists w',
    update_status env self id st pr msg md w = (Return false, w') /\
    blobs w' !! (status_bucket self, status_blob_name self id)
    = Some (JsonStatus (status_record env w id st pr msg md)) /\
    files w' !! status_file_path id
    = Some (JsonStatus (status_record env w id st pr msg md)) /\
    status_history id w'
    = status_history id w ++ [status_record env w id st pr msg md].
Proof.
  intros Hcalls F3.
  pose proof (calls_succeed_head _ _ _ Hcalls) as F0.
  apply calls_succeed_tail in Hcalls.
  pose proof (calls_succeed_head _ _ _ Hcalls) as F1.
  apply calls_succeed_tail in Hcalls.
  pose proof (calls_succeed_head _ _ _ Hcalls) as F2.
  replace (tick w + 3)%nat with (S (S (S (tick w)))) in F3 by lia.
  unfold update_status. rewrite request_noted_then.
  unfold mtry, mbind, timestamp_now.
  rewrite external_ok by exact F0. cbn [bump tick note_request].
  rewrite write_file_ok by done.
  rewrite (upload_file_ok _ _ _ _
             (JsonStatus (status_record env w id st pr msg md)))
    by (done || apply lookup_insert_eq).
  unfold os_remove. rewrite external_fault with (e := e) by done.
  eexists. split; [reflexivity|]. split_and!.
  - cbn. apply lookup_insert_eq.
  - cbn. apply lookup_insert_eq.
  - unfold status_history. cbn [uploads put_blob bump set_files note_request].
    rewrite status_writes_app. by rewrite status_writes_own.
Qed.

Lemma update_status_cleanup_failure_witness :
  exists w',
    update_status (failing_at 3 (calm_env (stub_librosa demo_decode)))
      (mk_pipeline_status (mk_gcp_config "p")) "run" "running" (1 # 2)
      "half way" None empty_world = (Return false, w') /\
    is_Some (blobs w' !! ("p-ml-pipeline-models", "pipeline_status/run.json")).
Proof.
  destruct (update_status_cleanup_failure
              (failing_at 3 (calm_env (stub_librosa demo_decode)))
              (mk_pipeline_status (mk_gcp_config "p")) "run" "running"
              (1 # 2) "half way" None empty_world (ExternalError "503"))
    as (w' & H1 & H2 & _).
  - intros [|[|[|i]]] Hi; [reflexivity|reflexivity|reflexivity|lia].
  - reflexivity.
  - exists w'. split; [exact H1|]. eexists. exact H2.
Defined.

(** ** Saving the dataset *)

Lemma save_paths_differ (id : string) :
  "/tmp/processed_dataset_" +:+ id +:+ ".pkl"
  <> "/tmp/dataset_metadata_" +:+ id +:+ ".json" /\
  "datasets/processed_dataset_" +:+ id +:+ ".pkl"
  <> "datasets/metadata_" +:+ id +:+ ".json".
Proof. split; intros H; cbv [String.append] in H; discriminate H. Qed.

(** X16: when its ten external calls go through, [save_processed_data]
    returns the [gs://] address of the dataset blob in the processed-data
    bucket; after it that blob holds the pickled dataset, the blob
    [datasets/metadata_<id>.json] holds the dataset's statistics, and both
    temporary files are gone from the disk. *)
Theorem save_processed_data_stores (env : Env) (self : DataProcessor)
    (dataset : Dataset) (id : string) (w : World) :
  calls_succeed env (tick w) 10 ->
  let bucket := processed_data (buckets (gcp_config self)) in
  let blob := "datasets/processed_dataset_" +:+ id +:+ ".pkl" in
  exists w',
    save_processed_data env self dataset id w
    = (Return ("gs://" +:+ bucket +:+ "/" +:+ blob), w') /\
    blobs w' !! (bucket, blob) = Some (Pickle dataset) /\
    blobs w' !! (bucket, "datasets/metadata_" +:+ id +:+ ".json")
    = Some (JsonStats (dataset_stats dataset)) /\
    files w' !! ("/tmp/processed_dataset_" +:+ id +:+ ".pkl") = None /\
    files w' !! ("/tmp/dataset_metadata_" +:+ id +:+ ".json") = None.
Proof.
  intros Hcalls bucket blob.
  destruct (save_paths_differ id) as [Hpaths Hblobs].
  assert (F : forall i, (i < 10)%nat -> fault env (tick w + i) = None)
    by exact Hcalls.
  unfold save_processed_data, mtry, mbind.
  rewrite update_status_ok
    by (eapply calls_succeed_weaken; [exact Hcalls|lia]).
  cbv zeta.
  rewrite write_file_ok by (cbn [tick]; apply F; lia).
  rewrite (upload_file_ok _ _ _ _ (Pickle dataset));
    [|cbn [tick set_files bump];
      replace (S (tick w + 4)) with (tick w + 5)%nat by lia; apply F; lia
     |cbn [files set_files bump]; apply lookup_insert_eq].
  rewrite write_file_ok
    by (cbn [tick set_files bump put_blob];
        replace (S (S (tick w + 4))) with (tick w + 6)%nat by lia;
        apply F; lia).
  rewrite (upload_file_ok _ _ _ _ (JsonStats (dataset_stats dataset)));
    [|cbn [tick set_files bump put_blob];
      replace (S (S (S (tick w + 4)))) with (tick w + 7)%nat by lia;
      apply F; lia
     |cbn [files set_files bump put_blob]; apply lookup_insert_eq].
  rewrite (os_remove_ok _ _ (Pickle dataset));
    [|cbn [tick set_files bump put_blob];
      replace (S (S (S (S (tick w + 4))))) with (tick w + 8)%nat by lia;
      apply F; lia
     |cbn [files set_files bump put_blob];
      rewrite lookup_insert_ne by done; apply lookup_insert_eq].
  rewrite (os_remove_ok _ _ (JsonStats (dataset_stats dataset)));
    [|cbn [tick set_files bump put_blob];
      replace (S (S (S (S (S (tick w + 4)))))) with (tick w + 9)%nat by lia;
      apply F; lia
     |cbn [files set_files bump put_blob];
      rewrite lookup_delete_ne by done; apply lookup_insert_eq].
  eexists. split; [reflexivity|].
  cbn [blobs files set_files bump put_blob]. split_and!.
  - rewrite lookup_insert_ne by (intros [= ?]; done). apply lookup_insert_eq.
  - apply lookup_insert_eq.
  - rewrite lookup_delete_ne by done. apply lookup_delete_eq.
  - apply lookup_delete_eq.
Qed.

Lemma save_processed_data_stores_witness :
  exists w',
    save_processed_data (calm_env (stub_librosa demo_decode))
      (mk_data_processor demo_config (mk_gcp_config "p"))
      demo_dataset "run" empty_world
    = (Return
         "gs://p-ml-pipeline-processed-data/datasets/processed_dataset_run.pkl",
       w') /\
    blobs w' !! ("p-ml-pipeline-processed-data",
                 "datasets/processed_dataset_run.pkl")
    = Some (Pickle demo_dataset).
Proof.
  destruct (save_processed_data_stores
              (calm_env (stub_librosa demo_decode))
              (mk_data_processor demo_config (mk_gcp_config "p"))
              demo_dataset "run" empty_world)
    as (w' & H1 & H2 & _).
  - intros i Hi. reflexivity.
  - exists w'. split; [exact H1|exact H2].
Defined.

(** ** How a run of the data pipeline ends *)

Lemma last_status_after_update (id : string) (bucket name : string)
    (d : StatusData) (us : list (string * string * Content)) :
  pipeline_id d = id ->
  last (status_writes id (us ++ [(bucket, name, JsonStatus d)])) = Some d.
Proof.
  intros Hid. rewrite status_writes_app, status_writes_own by done.
  apply last_snoc.
Qed.

(** X17: in an environment where no external call fails, a run of the
    data pipeline always ends with a terminal status record. When it
    returns the dataset address, the last record written for the run, which
    is also the content of the run's status blob, is [completed] with
    progress 1.0, names the address in its message and carries it as
    ['dataset_path'] in its metadata. When it raises, the last record is
    [failed] with progress 0.0 and the message
    ["Pipeline failed: "] followed by the text of the exception. *)
Theorem data_pipeline_terminal_status (env : Env) (self : DataProcessor)
    (id : string) (w : World) :
  (forall t, fault env t = None) ->
  let key := (status_bucket (pipeline_status self),
              status_blob_name (pipeline_status self) id) in
  match data_run_complete_pipeline env self id w with
  | (Return path, w') =>
      exists d,
        last (status_history id w') = Some d /\
        blobs w' !! key = Some (JsonStatus d) /\
        status d = "completed" /\ progress d = 1%Q /\
        message d = "Data processing complete. Dataset saved to: " +:+ path /\
        metadata d !! "dataset_path" = Some (JStr path)
  | (Raise e, w') =>
      exists d,
        last (status_history id w') = Some d /\
        blobs w' !! key = Some (JsonStatus d) /\
        status d = "failed" /\ progress d = 0%Q /\
        message d = "Pipeline failed: " +:+ exn_str e
  end.
Proof.
  intros Hcalm key.
  assert (Hcalls : forall w0, calls_succeed env (tick w0) 4)
    by (intros w0 i _; apply Hcalm).
  unfold data_run_complete_pipeline, mtry.
  match goal with |- match (match ?body w with _ => _ end) with _ => _ end =>
    destruct (body w) as [[path|e] w1] eqn:E
  end.
  - apply mbind_Return_inv in E as (files & wa & _ & E).
    apply mbind_Return_inv in E as (processed & wb & _ & E).
    apply mbind_Return_inv in E as (augmented & wc & _ & E).
    apply mbind_Return_inv in E as (dataset & wd & _ & E).
    apply mbind_Return_inv in E as (gcs_path & we & _ & E).
    unfold mbind in E. rewrite update_status_ok in E by apply Hcalls.
    unfold mret in E. injection E as <- <-.
    eexists. split_and!.
    + unfold status_history. cbn [uploads].
      by apply last_status_after_update.
    + cbn [blobs]. apply lookup_insert_eq.
    + done.
    + done.
    + done.
    + cbn. apply lookup_insert_eq.
  - unfold mbind. rewrite update_status_ok by apply Hcalls.
    unfold mraise. eexists. split_and!.
    + unfold status_history. cbn [uploads].
      by apply last_status_after_update.
    + cbn [blobs]. apply lookup_insert_eq.
    + done.
    + done.
    + done.
Qed.

Lemma data_pipeline_terminal_status_witness :
  let run := data_run_complete_pipeline (calm_env (stub_librosa demo_decode))
               (mk_data_processor single_config (mk_gcp_config "p"))
               "run" one_file_world in
  exists d,
    run.1 = Raise (ValueError "the resulting train set will be empty") /\
    last (status_history "run" run.2) = Some d /\
    status d = "failed" /\ progress d = 0%Q /\
    message d = "Pipeline failed: the resulting train set will be empty".
Proof.
  intros run.
  pose proof (data_pipeline_terminal_status
                (calm_env (stub_librosa demo_decode))
                (mk_data_processor single_config (mk_gcp_config "p"))
                "run" one_file_world (fun t => eq_refl)) as H.
  cbv zeta in H. fold run in H.
  assert (E : run.1
              = Raise (ValueError "the resulting train set will be empty"))
    by (vm_compute; reflexivity).
  destruct run as [[path|e] w']; [discriminate E|].
  cbn [fst] in E. injection E as ->.
  destruct H as (d & H1 & _ & H2 & H3 & H4).
  exists d. split; [reflexivity|]. split; [exact H1|]. split; [exact H2|].
  split; [exact H3|exact H4].
Defined.

(** ** Downloading the raw data *)

(** The local path [download_raw_data] uses for a blob. *)
Local Abbreviation local_path :=
  (fun file_name : string => path_join "/tmp/raw_audio" (basename file_name)).

Lemma local_path_not_status (name id : string) :
  local_path name <> status_file_path id.
Proof.
  unfold path_join, status_file_path. intros H.
  cbv [String.append] in H. discriminate H.
Qed.

Lemma update_status_keeps env ps id st pr msg md w :
  fault env (tick w) = None -> fault env (S (tick w)) = None ->
  fault env (S (S (tick w))) = None -> fault env (S (S (S (tick w)))) = None ->
  exists w',
    update_status env ps id st pr msg md w = (Return true, w') /\
    (forall k, is_Some (blobs w !! k) -> is_Some (blobs w' !! k)) /\
    (forall p, p <> status_file_path id -> files w' !! p = files w !! p).
Proof.
  intros F0 F1 F2 F3.
  rewrite update_status_ok; cycle 1.
  { intros [|[|[|[|i]]]] Hi; try lia.
    - by rewrite Nat.add_0_r.
    - by replace (tick w + 1)%nat with (S (tick w)) by lia.
    - by replace (tick w + 2)%nat with (S (S (tick w))) by lia.
    - by replace (tick w + 3)%nat with (S (S (S (tick w)))) by lia. }
  eexists. split; [reflexivity|]. cbn [blobs files]. split.
  - intros k Hk. apply lookup_insert_is_Some'. by right.
  - intros p Hp. rewrite lookup_delete_ne by done.
    by rewrite lookup_insert_ne.
Qed.

Lemma download_loop_calm env self raw id total :
  (forall t, fault env t = None) ->
  forall todo i acc w,
    (i + length todo = total)%nat ->
    (forall name, name ∈ todo -> is_Some (blobs w !! (raw, name))) ->
    (forall p, p ∈ acc -> is_Some (files w !! p)) ->
    Forall (fun p => p <> status_file_path id) acc ->
    exists w',
      download_loop env self raw "/tmp/raw_audio" id total i todo acc w
      = (Return (acc ++ map local_path todo), w') /\
      forall p, p ∈ acc ++ map local_path todo -> is_Some (files w' !! p).
Proof.
  intros Hcalm. induction todo as [|name rest IH]; intros i acc w Hi Hblobs Hacc Hns.
  - cbn [download_loop map]. rewrite app_nil_r. by exists w.
  - cbn [download_loop]. unfold mbind at 1.
    destruct (Hblobs name) as [c Hc]; [left|].
    rewrite (download_file_ok _ _ _ _ c) by done.
    unfold mbind at 1, lift at 1.
    rewrite loop_progress_value by (cbn in Hi; lia).
    unfold mbind at 1.
    match goal with |- context [update_status env ?ps id ?st ?pr ?msg ?md ?w0] =>
      destruct (update_status_keeps env ps id st pr msg md w0)
        as (w1 & -> & Hb1 & Hf1); try apply Hcalm
    end.
    destruct (IH (S i) (acc ++ [local_path name]) w1) as (w' & -> & Hfiles).
    + cbn in Hi. lia.
    + intros n Hn. apply Hb1. cbn [blobs set_files bump].
      apply Hblobs. by right.
    + intros p Hp. rewrite Hf1; cycle 1.
      { apply elem_of_app in Hp as [Hp|Hp%list_elem_of_singleton].
        - by eapply Forall_forall in Hns.
        - subst p. apply local_path_not_status. }
      cbn [files set_files bump].
      destruct (decide (local_path name = p)) as [<-|Hne].
      * rewrite lookup_insert_eq. by eexists.
      * rewrite lookup_insert_ne by done.
        apply elem_of_app in Hp as [Hp|Hp%list_elem_of_singleton];
          [by apply Hacc|congruence].
    + apply Forall_app. split; [done|]. constructor; [|constructor].
      apply local_path_not_status.
    + exists w'. rewrite <- app_assoc in *. cbn [map app] in *. by split.
Qed.

Lemma bucket_names_differ (project : string) :
  status_bucket (mk_pipeline_status (mk_gcp_config project))
  <> raw_data (buckets (mk_gcp_config project)).
Proof.
  cbn. intros H. apply string_app_inj in H. discriminate H.
Qed.

(** X18: in an environment where no external call fails,
    [download_raw_data] returns one local path for each audio blob of the
    raw-data bucket and for nothing else: a blob counts as audio when its
    name, in lower case, ends in [.wav], [.mp3], [.flac], [.m4a] or
    [.ogg]. The path of a blob is [/tmp/raw_audio/] followed by the base
    name of the blob, and every returned path exists on the disk
    afterwards. *)
Theorem download_raw_data_fetches (env : Env) (cfg : Config)
    (project id : string) (w : World) :
  (forall t, fault env t = None) ->
  let self := mk_data_processor cfg (mk_gcp_config project) in
  let raw := raw_data (buckets (mk_gcp_config project)) in
  exists names w',
    download_raw_data env self id w
    = (Return (map (fun name => path_join "/tmp/raw_audio" (basename name))
                   names), w') /\
    NoDup names /\
    (forall name,
       name ∈ names <->
       is_Some (blobs w !! (raw, name)) /\
       existsb (endswith (lower name)) audio_extensions = true) /\
    forall name,
      name ∈ names ->
      is_Some (files w' !! path_join "/tmp/raw_audio" (basename name)).
Proof.
  intros Hcalm self raw.
  unfold download_raw_data, mtry. unfold mbind at 1.
  rewrite update_status_ok by (intros i _; apply Hcalm).
  unfold mbind at 1. rewrite list_files_ok by apply Hcalm.
  cbv zeta. unfold mbind at 1, os_makedirs.
  rewrite external_ok by apply Hcalm.
  cbn [blobs bump].
  match goal with |- context [filter ?P ?l] => set (names := filter P l) end.
  destruct (blob_names_spec (raw_data (buckets (gcp_config self))) ""
              (<[(status_bucket (pipeline_status self),
                  status_blob_name (pipeline_status self) id) :=
                   JsonStatus (status_record env w id "running" (1 # 10)
                                 "Downloading raw data" None)]> (blobs w)))
    as [Hnd Hall].
  assert (Hnames : forall name,
            name ∈ names <->
            is_Some (blobs w !! (raw, name)) /\
            existsb (endswith (lower name)) audio_extensions = true).
  { intros name. unfold names. rewrite list_elem_of_filter, Hall.
    rewrite lookup_insert_ne
      by (intros [= H _]; by apply bucket_names_differ in H).
    split; [intros [He [Hb _]]|intros [Hb He]].
    - split; [exact Hb|]. by apply Is_true_true.
    - split; [by apply Is_true_true|]. split; [exact Hb|by destruct name]. }
  match goal with |- context [download_loop env self ?r _ id ?total 0 names [] ?w0] =>
    destruct (download_loop_calm env self r id total Hcalm names 0%nat [] w0)
      as (w' & Hloop & Hfiles)
  end.
  - done.
  - intros name Hn. apply Hnames in Hn as [Hb _]. cbn [blobs].
    apply lookup_insert_is_Some'. by right.
  - intros p Hp. by apply elem_of_nil in Hp.
  - constructor.
  - exists names, w'. split; [by rewrite Hloop|].
    split; [by apply NoDup_filter|]. split; [exact Hnames|].
    intros name Hn. apply Hfiles. rewrite app_nil_l.
    apply list_elem_of_fmap. by exists name.
Qed.

Lemma download_raw_data_fetches_witness :
  exists names w',
    download_raw_data (calm_env (stub_librosa demo_decode))
      (mk_data_processor demo_config (mk_gcp_config "p")) "run"
      one_file_world
    = (Return (map (fun name => path_join "/tmp/raw_audio" (basename name))
                   names), w') /\
    "a.wav" ∈ names.
Proof.
  destruct (download_raw_data_fetches (calm_env (stub_librosa demo_decode))
              demo_config "p" "run" one_file_world (fun t => eq_refl))
    as (names & w' & H & _ & Hin & _).
  exists names, w'. split; [exact H|].
  apply Hin. split; [exists (Bytes "RIFF")|]; reflexivity.
Defined.

(** ** The orchestrator with data processing skipped *)

Lemma mtry_Return_inv {A} (body : M A) (handler : exn -> M A) w a w' :
  (forall e w1, exists e' w2, handler e w1 = (Raise e', w2)) ->
  mtry body handler w = (Return a, w') ->
  body w = (Return a, w').
Proof.
  intros Hh. unfold mtry. destruct (body w) as [[a'|e] w1]; [done|].
  destruct (Hh e w1) as (e' & w2 & ->). done.
Qed.

Lemma orchestrator_handler_raises {A} env ps id (e : exn) w :
  exists w',
    mbind (mtry (mbind (update_status env ps id "failed" 0
                          ("Pipeline failed: " +:+ exn_str e) None)
                       (fun _ => mret tt))
                (fun _ => mret tt))
          (fun _ => @mraise A e) w
    = (Raise e, w').
Proof.
  unfold mbind, mtry.
  destruct (update_status_returns env ps id "failed" 0
              ("Pipeline failed: " +:+ exn_str e) None w) as (b & w1 & ->).
  by eexists.
Qed.

Lemma emits_orchestrator_skip hist env gcp id cfg args :
  skip_data_processing args = true ->
  emits hist (run_complete_pipeline env gcp id cfg args)
        (top_ok id (id +:+ "-data") true 0 1).
Proof.
  intros Hskip.
  pose proof (data_id_fresh id) as Hd.
  assert (Hd' : id +:+ "-data" <> id) by done.
  unfold run_complete_pipeline. cbv zeta. rewrite Hskip.
  eapply emits_mtry with (P1 := top_ok id (id +:+ "-data") true 0 1)
                         (P2 := top_ok id (id +:+ "-data") true 1 1).
  - eapply (emits_top_seq_l _ _ _ id _ true 0 0 0 1);
      [apply emits_top_update; [done|lra|lra]|intros _|lra|lra|lra].
    eapply (emits_top_seq_r _ _ _ id _ true 0 (5 # 10) (5 # 10) 1);
      [|intros dataset_path|lra|lra|lra].
    + destruct (falsy _); [apply emits_mraise, top_ok_nil|].
      eapply emits_weaken;
        [apply (emits_top_update_ret _ env _ id (id +:+ "-data")); [done|lra|lra]|].
      intros d Hq. eapply top_ok_widen; [exact Hq|lra|lra].
    + eapply (emits_top_seq_l _ _ _ id _ true (5 # 10) (5 # 10) (9 # 10) 1);
        [apply emits_run_model_training|intros training_result|lra|lra|lra].
      eapply (emits_top_seq_l _ _ _ id _ true (9 # 10) (9 # 10) 1 1);
        [apply emits_top_update; [done|lra|lra]|intros _|lra|lra|lra].
      apply emits_silent_then; [|apply top_ok_nil|intros now].
      { intros w. exists []. by rewrite app_nil_r. }
      apply emits_top_update_ret; [done|lra|lra].
  - intros e.
    eapply emits_mbind with (P1 := top_ok id (id +:+ "-data") true 1 1)
                            (P2 := fun d => d = []).
    + eapply emits_mtry with (P1 := top_ok id (id +:+ "-data") true 1 1)
                             (P2 := fun d => d = []).
      * eapply emits_mbind with (P2 := fun d => d = []);
          [apply emits_update_status|intros _; by apply emits_mret| |].
        -- intros d Hup.
           eapply (top_ok_own id _ 1 1 1 1); [|done|lra|lra].
           eapply stage_ok_update; [exact Hup|lra|lra|by left].
        -- intros d1 d2 Hd1 ->. rewrite app_nil_r.
           eapply (top_ok_own id _ 1 1 1 1); [|done|lra|lra].
           eapply stage_ok_update; [exact Hd1|lra|lra|by left].
      * intros _. by apply emits_mret.
      * done.
      * intros d1 d2 Hd1 ->. by rewrite app_nil_r.
    + intros _. by apply emits_mraise.
    + done.
    + intros d1 d2 Hd1 ->. by rewrite app_nil_r.
  - done.
  - intros d1 d2 H1 H2. eapply top_ok_app_r; [exact H1|exact H2|lra|lra|lra].
Qed.

(** X19: with [--skip-data-processing] the orchestrator never starts the
    data pipeline: no status record is written under the id of the data
    run, whatever fails. If the dataset path is absent or empty it raises
    [ValueError]. If it returns, the result carries the given pipeline id
    and exactly the given dataset path, and its model fields are those of
    the training run started on that path under the id with suffix
    [-training]. *)
Theorem run_complete_pipeline_skip (env : Env) (gcp : GCPConfig)
    (id : string) (cfg : Config) (args : Args) (w : World) :
  skip_data_processing args = true ->
  let run := run_complete_pipeline env gcp id cfg args w in
  status_history (id +:+ "-data") run.2 = status_history (id +:+ "-data") w /\
  (falsy (existing_dataset_path args) = true ->
   run.1 = Raise dataset_path_required) /\
  (forall r, run.1 = Return r ->
     existing_dataset_path args = Some (fr_dataset_path r) /\
     fr_dataset_path r <> "" /\
     fr_pipeline_id r = id /\
     exists calls tr,
       training_run env (fr_dataset_path r) (id +:+ "-training")
       = (calls, Return tr) /\
       fr_model_gcs_path r = model_gcs_path tr /\
       fr_vertex_model_name r = vertex_model_name tr /\
       fr_final_metrics r = final_metrics tr /\
       fr_model_config r = model_config tr).
Proof.
  intros Hskip run. split_and!.
  - destruct (emits_orchestrator_skip Stored env gcp id cfg args Hskip w)
      as (delta & E & _ & Hsilent).
    cbn [history] in E.
    unfold status_history, run. rewrite E, status_writes_app, Hsilent.
    apply app_nil_r.
  - intros Hfalsy. unfold run, run_complete_pipeline. cbv zeta.
    rewrite Hskip, Hfalsy. unfold mtry at 1, mbind at 1.
    destruct (update_status_returns env (mk_pipeline_status gcp) id "running"
                0 "Complete pipeline started" None w) as (b & w1 & ->).
    unfold mbind at 1, mraise at 1.
    destruct (@orchestrator_handler_raises FinalResult env
                (mk_pipeline_status gcp) id dataset_path_required w1)
      as (w' & ->).
    done.
  - intros r Hr. unfold run in Hr.
    destruct (run_complete_pipeline env gcp id cfg args w) as [res w'] eqn:E.
    cbn in Hr. subst res.
    unfold run_complete_pipeline in E. cbv zeta in E. rewrite Hskip in E.
    apply mtry_Return_inv in E;
      [|intros e w1;
        destruct (@orchestrator_handler_raises FinalResult env
                    (mk_pipeline_status gcp) id e w1) as (w2 & ->);
        by do 2 eexists].
    apply mbind_Return_inv in E as (b0 & w1 & _ & E).
    apply mbind_Return_inv in E as (path & w2 & Hpath & E).
    destruct (falsy (existing_dataset_path args)) eqn:Hf; [done|].
    apply mbind_Return_inv in Hpath as (b1 & w3 & _ & Hpath).
    unfold mret in Hpath. injection Hpath as <- <-.
    apply mbind_Return_inv in E as (tr & w4 & Htrain & E).
    apply mbind_Return_inv in E as (b2 & w5 & _ & E).
    apply mbind_Return_inv in E as (now & w6 & _ & E).
    apply mbind_Return_inv in E as (b3 & w7 & _ & E).
    unfold mret in E. injection E as <- <-. cbn.
    destruct (existing_dataset_path args) as [s|] eqn:Hs; [|done].
    cbn in Hf. cbn. split; [done|]. split.
    { intros ->. done. }
    split; [done|].
    unfold run_model_training in Htrain.
    apply mtry_Return_inv in Htrain; [|intros e w0; by do 2 eexists].
    unfold run_training_pipeline in Htrain. change (default "" (Some s)) with s in Htrain.
    destruct (training_run env s (id +:+ "-training")) as [calls outcome].
    apply mbind_Return_inv in Htrain as (u & w8 & _ & Htrain).
    unfold lift in Htrain. injection Htrain as -> _.
    by exists calls, tr.
Qed.

Lemma run_complete_pipeline_skip_witness :
  let run := run_complete_pipeline (calm_env (stub_librosa demo_decode))
               (mk_gcp_config "p") "run" demo_config
               {| skip_data_processing := true;
                  existing_dataset_path := None |} empty_world in
  run.1 = Raise dataset_path_required /\
  status_history "run-data" run.2 = [].
Proof.
  intros run.
  destruct (run_complete_pipeline_skip (calm_env (stub_librosa demo_decode))
              (mk_gcp_config "p") "run" demo_config
              {| skip_data_processing := true;
                 existing_dataset_path := None |} empty_world eq_refl)
    as (H1 & H2 & _).
  split; [exact (H2 eq_refl)|exact H1].
Defined.

(** ** Random augmentation *)

Lemma Qltb_false (x y : Q) : (y <= x)%Q -> Qltb x y = false.
Proof. intros H. unfold Qltb. apply Qle_bool_iff in H. by rewrite H. Qed.

Lemma Qltb_true (x y : Q) : (x < y)%Q -> Qltb x y = true.
Proof.
  intros H. unfold Qltb. destruct (Qle_bool y x) eqn:E; [|done].
  apply Qle_bool_iff in E. lra.
Qed.

Lemma time_stretch_returns (l : Librosa) (audio : Signal) (rate : Q) :
  exists out, time_stretch l audio rate = Return out.
Proof.
  unfold time_stretch. destruct (effects_time_stretch l audio rate);
    by eexists.
Qed.

Lemma pitch_shift_returns (l : Librosa) (self : DataAugmentation)
    (audio : Signal) (n_steps : Q) :
  exists out, pitch_shift l self audio n_steps = Return out.
Proof.
  unfold pitch_shift. destruct (effects_pitch_shift l audio _ n_steps);
    by eexists.
Qed.

(** X20: [apply_random_augmentation] never raises, whatever the effects
    of the library do, and it consumes between three and six random draws.
    When none of the three gates fires (the first draw is at least 0.5
    and the next two at least 0.3) the signal comes back unchanged after
    exactly three draws. When only the noise gate fires, the result is the
    signal with noise of level [0.001 + 0.009 * u] added, [u] being the
    second draw, and it has as many samples as the input. *)
Theorem apply_random_augmentation_outcome (l : Librosa)
    (self : DataAugmentation) (rng : Rng) (audio : Signal) (pos : nat) :
  exists out pos',
    apply_random_augmentation l self rng audio pos = Return (out, pos') /\
    (pos + 3 <= pos' <= pos + 6)%nat /\
    ((5 # 10 <= rng pos)%Q -> (3 # 10 <= rng (S pos))%Q ->
     (3 # 10 <= rng (S (S pos)))%Q ->
     out = audio /\ pos' = (pos + 3)%nat) /\
    ((rng pos < 5 # 10)%Q -> (3 # 10 <= rng (S (S pos)))%Q ->
     (3 # 10 <= rng (S (S (S pos))))%Q ->
     out = add_noise l audio ((1 # 1000) + ((1 # 100) - (1 # 1000)) * rng (S pos))
     /\ length out = length audio /\ pos' = (pos + 4)%nat).
Proof.
  unfold apply_random_augmentation, random_random, random_uniform.
  cbv zeta.
  destruct (Qltb (rng pos) (5 # 10)) eqn:G1; cbn [rbind].
  - destruct (Qltb (rng (S (S pos))) (3 # 10)) eqn:G2; cbn [rbind].
    + destruct (time_stretch_returns l
                  (add_noise l audio
                     ((1 # 1000) + ((1 # 100) - (1 # 1000)) * rng (S pos)))
                  ((8 # 10) + ((12 # 10) - (8 # 10)) * rng (S (S (S pos)))))
        as [y1 ->]. cbn [rbind].
      destruct (Qltb (rng (S (S (S (S pos))))) (3 # 10)) eqn:G3; cbn [rbind].
      * destruct (pitch_shift_returns l self y1
                    (-2 + (2 - -2) * rng (S (S (S (S (S pos)))))))
          as [y2 ->]. cbn [rbind].
        do 2 eexists. split; [reflexivity|]. split; [lia|]. split.
        -- intros H. apply Qltb_false in H. congruence.
        -- intros _ H. apply Qltb_false in H. congruence.
      * do 2 eexists. split; [reflexivity|]. split; [lia|]. split.
        -- intros H. apply Qltb_false in H. congruence.
        -- intros _ H. apply Qltb_false in H. congruence.
    + destruct (Qltb (rng (S (S (S pos)))) (3 # 10)) eqn:G3; cbn [rbind].
      * destruct (pitch_shift_returns l self
                    (add_noise l audio
                       ((1 # 1000) + ((1 # 100) - (1 # 1000)) * rng (S pos)))
                    (-2 + (2 - -2) * rng (S (S (S (S pos))))))
          as [y2 ->]. cbn [rbind].
        do 2 eexists. split; [reflexivity|]. split; [lia|]. split.
        -- intros H. apply Qltb_false in H. congruence.
        -- intros _ _ H. apply Qltb_false in H. congruence.
      * do 2 eexists. split; [reflexivity|]. split; [lia|]. split.
        -- intros H. apply Qltb_false in H. congruence.
        -- intros _ _ _. split; [done|]. split; [apply length_add_noise|lia].
  - destruct (Qltb (rng (S pos)) (3 # 10)) eqn:G2; cbn [rbind].
    + destruct (time_stretch_returns l audio
                  ((8 # 10) + ((12 # 10) - (8 # 10)) * rng (S (S pos))))
        as [y1 ->]. cbn [rbind].
      destruct (Qltb (rng (S (S (S pos)))) (3 # 10)) eqn:G3; cbn [rbind].
      * destruct (pitch_shift_returns l self y1
                    (-2 + (2 - -2) * rng (S (S (S (S pos))))))
          as [y2 ->]. cbn [rbind].
        do 2 eexists. split; [reflexivity|]. split; [lia|]. split.
        -- intros _ H. apply Qltb_false in H. congruence.
        -- intros H. apply Qltb_true in H. congruence.
      * do 2 eexists. split; [reflexivity|]. split; [lia|]. split.
        -- intros _ H. apply Qltb_false in H. congruence.
        -- intros H. apply Qltb_true in H. congruence.
    + destruct (Qltb (rng (S (S pos))) (3 # 10)) eqn:G3; cbn [rbind].
      * destruct (pitch_shift_returns l self audio
                    (-2 + (2 - -2) * rng (S (S (S pos)))))
          as [y2 ->]. cbn [rbind].
        do 2 eexists. split; [reflexivity|]. split; [lia|]. split.
        -- intros _ _ H. apply Qltb_false in H. congruence.
        -- intros H. apply Qltb_true in H. congruence.
      * do 2 eexists. split; [reflexivity|]. split; [lia|]. split.
        -- intros _ _ _. split; [done|lia].
        -- intros H. apply Qltb_true in H. congruence.
Qed.
